(** * buzzit: crawler core and content extractor

    A shallow embedding of [backend/core/crawler/main.py],
    [backend/core/extractor.py] and the crawl cache of [backend/main.py],
    and the properties of the written specification proved (or refuted) on
    it.

    Conventions of the embedding:
    - a Python [str] is a list of Unicode code points ([str]); [len] is
      [length], slicing is [firstn]/[skipn]; the UTF-8 size of a text is
      [utf8_len];
    - [Optional[T]] is [option T]; a call that may raise returns a [result];
    - a parsed document (what [BeautifulSoup(html, "lxml")] hands to the code)
      is a tree of [node]s; tags inside it are addressed by their path from
      the root, so that ancestors stay reachable as they are in bs4;
    - the classes of characters ([\d], [str.isdigit], [str.isspace]), the
      digits that [int] reads and the case mapping of [str.lower] are those
      of CPython 3.11, whose tables are those of Unicode 14.0.0. *)

From Stdlib Require Import String Ascii List NArith ZArith Lia Bool.
Import ListNotations.

Set Implicit Arguments.

(* ================================================================= *)
(** ** Exceptions *)

Inductive exn : Type :=
| ValueError       (* urllib.parse on a malformed authority, int on a text
                      that is no numeral or is too long *)
| DecodeError      (* UnicodeDecodeError, LookupError of a codec *)
| TransportError   (* httpx / curl_cffi failures *)
| OtherError.

Inductive result (A : Type) : Type :=
| Ok (a : A)
| Raise (e : exn).
Arguments Ok {A} a.
Arguments Raise {A} e.

Definition bind {A B} (m : result A) (k : A -> result B) : result B :=
  match m with
  | Ok a => k a
  | Raise e => Raise e
  end.

Declare Scope result_scope.
Delimit Scope result_scope with result.
Notation "x <- m ;; k" := (bind m (fun x => k))
  (at level 61, m at next level, right associativity) : result_scope.
Open Scope result_scope.

(* ================================================================= *)
(** ** Python strings *)

Module PyStr.

Abbreviation codepoint := N (only parsing).
Definition str := list codepoint.

(** Decoding of the UTF-8 bytes of a literal of this file into code points. *)
Fixpoint utf8_decode (bs : list N) : str :=
  match bs with
  | [] => []
  | b :: r =>
      if (b <? 0x80)%N then b :: utf8_decode r
      else if (b <? 0xE0)%N then
        match r with
        | c1 :: r1 => ((b mod 0x20) * 0x40 + c1 mod 0x40)%N :: utf8_decode r1
        | [] => [0xFFFD%N]
        end
      else if (b <? 0xF0)%N then
        match r with
        | c1 :: c2 :: r2 =>
            ((b mod 0x10) * 0x1000 + (c1 mod 0x40) * 0x40 + c2 mod 0x40)%N
              :: utf8_decode r2
        | _ => [0xFFFD%N]
        end
      else
        match r with
        | c1 :: c2 :: c3 :: r3 =>
            ((b mod 0x08) * 0x40000 + (c1 mod 0x40) * 0x1000
             + (c2 mod 0x40) * 0x40 + c3 mod 0x40)%N :: utf8_decode r3
        | _ => [0xFFFD%N]
        end
  end.

Definition u (s : string) : str :=
  utf8_decode (map N_of_ascii (list_ascii_of_string s)).
Arguments u s%_string.

(** Number of bytes of a code point, and of a text, in UTF-8. *)
Definition utf8_width (c : codepoint) : N :=
  if (c <? 0x80)%N then 1
  else if (c <? 0x800)%N then 2
  else if (c <? 0x10000)%N then 3 else 4.

Definition utf8_len (s : str) : N :=
  fold_right (fun c n => (utf8_width c + n)%N) 0%N s.

Fixpoint str_eqb (a b : str) : bool :=
  match a, b with
  | [], [] => true
  | c :: a', d :: b' => (c =? d)%N && str_eqb a' b'
  | _, _ => false
  end.

(** [s.startswith(p)] *)
Fixpoint startswith (s p : str) {struct p} : bool :=
  match p, s with
  | [], _ => true
  | c :: p', d :: s' => (c =? d)%N && startswith s' p'
  | _ :: _, [] => false
  end.

(** [s.startswith((p1, p2, ...))] *)
Definition startswith_any (s : str) (ps : list str) : bool :=
  existsb (startswith s) ps.

(** [s.endswith(p)] *)
Definition endswith (s p : str) : bool := startswith (rev s) (rev p).

(** [sub in s] *)
Fixpoint contains (s sub : str) : bool :=
  startswith s sub ||
  match s with
  | [] => false
  | _ :: s' => contains s' sub
  end.

(** [x in l] for a list (or tuple, or set) of strings *)
Definition mem (x : str) (l : list str) : bool := existsb (str_eqb x) l.

(** [any(p in s for p in ps)] *)
Definition contains_any (s : str) (ps : list str) : bool :=
  existsb (contains s) ps.

(** [c] lies in one of the ranges, the bounds included. *)
Definition in_ranges (ranges : list (N * N)) (c : codepoint) : bool :=
  existsb (fun r => (fst r <=? c)%N && (c <=? snd r)%N) ranges.

Definition is_upper (c : codepoint) : bool := (0x41 <=? c)%N && (c <=? 0x5A)%N.
Definition lower_char (c : codepoint) : codepoint :=
  if is_upper c then (c + 0x20)%N else c.

(** The lower-case mapping of the characters beyond ASCII, as runs
    [(first, last, step, image of first)]: every [step]-th character from
    [first] to [last] is mapped, at the same distance from the image of
    [first]. *)
Definition lower_runs : list (N * N * N * N) :=
  [
   (0xC0, 0xD6, 1, 0xE0); (0xD8, 0xDE, 1, 0xF8); (0x100, 0x12E, 2, 0x101);
   (0x132, 0x136, 2, 0x133); (0x139, 0x147, 2, 0x13A);
   (0x14A, 0x176, 2, 0x14B); (0x178, 0x178, 1, 0xFF);
   (0x179, 0x17D, 2, 0x17A); (0x181, 0x181, 1, 0x253);
   (0x182, 0x184, 2, 0x183); (0x186, 0x186, 1, 0x254);
   (0x187, 0x187, 1, 0x188); (0x189, 0x18A, 1, 0x256);
   (0x18B, 0x18B, 1, 0x18C); (0x18E, 0x18E, 1, 0x1DD);
   (0x18F, 0x18F, 1, 0x259); (0x190, 0x190, 1, 0x25B);
   (0x191, 0x191, 1, 0x192); (0x193, 0x193, 1, 0x260);
   (0x194, 0x194, 1, 0x263); (0x196, 0x196, 1, 0x269);
   (0x197, 0x197, 1, 0x268); (0x198, 0x198, 1, 0x199);
   (0x19C, 0x19C, 1, 0x26F); (0x19D, 0x19D, 1, 0x272);
   (0x19F, 0x19F, 1, 0x275); (0x1A0, 0x1A4, 2, 0x1A1);
   (0x1A6, 0x1A6, 1, 0x280); (0x1A7, 0x1A7, 1, 0x1A8);
   (0x1A9, 0x1A9, 1, 0x283); (0x1AC, 0x1AC, 1, 0x1AD);
   (0x1AE, 0x1AE, 1, 0x288); (0x1AF, 0x1AF, 1, 0x1B0);
   (0x1B1, 0x1B2, 1, 0x28A); (0x1B3, 0x1B5, 2, 0x1B4);
   (0x1B7, 0x1B7, 1, 0x292); (0x1B8, 0x1B8, 1, 0x1B9);
   (0x1BC, 0x1BC, 1, 0x1BD); (0x1C4, 0x1C4, 1, 0x1C6);
   (0x1C5, 0x1C5, 1, 0x1C6); (0x1C7, 0x1C7, 1, 0x1C9);
   (0x1C8, 0x1C8, 1, 0x1C9); (0x1CA, 0x1CA, 1, 0x1CC);
   (0x1CB, 0x1DB, 2, 0x1CC); (0x1DE, 0x1EE, 2, 0x1DF);
   (0x1F1, 0x1F1, 1, 0x1F3); (0x1F2, 0x1F4, 2, 0x1F3);
   (0x1F6, 0x1F6, 1, 0x195); (0x1F7, 0x1F7, 1, 0x1BF);
   (0x1F8, 0x21E, 2, 0x1F9); (0x220, 0x220, 1, 0x19E);
   (0x222, 0x232, 2, 0x223); (0x23A, 0x23A, 1, 0x2C65);
   (0x23B, 0x23B, 1, 0x23C); (0x23D, 0x23D, 1, 0x19A);
   (0x23E, 0x23E, 1, 0x2C66); (0x241, 0x241, 1, 0x242);
   (0x243, 0x243, 1, 0x180); (0x244, 0x244, 1, 0x289);
   (0x245, 0x245, 1, 0x28C); (0x246, 0x24E, 2, 0x247);
   (0x370, 0x372, 2, 0x371); (0x376, 0x376, 1, 0x377);
   (0x37F, 0x37F, 1, 0x3F3); (0x386, 0x386, 1, 0x3AC);
   (0x388, 0x38A, 1, 0x3AD); (0x38C, 0x38C, 1, 0x3CC);
   (0x38E, 0x38F, 1, 0x3CD); (0x391, 0x3A1, 1, 0x3B1);
   (0x3A3, 0x3AB, 1, 0x3C3); (0x3CF, 0x3CF, 1, 0x3D7);
   (0x3D8, 0x3EE, 2, 0x3D9); (0x3F4, 0x3F4, 1, 0x3B8);
   (0x3F7, 0x3F7, 1, 0x3F8); (0x3F9, 0x3F9, 1, 0x3F2);
   (0x3FA, 0x3FA, 1, 0x3FB); (0x3FD, 0x3FF, 1, 0x37B);
   (0x400, 0x40F, 1, 0x450); (0x410, 0x42F, 1, 0x430);
   (0x460, 0x480, 2, 0x461); (0x48A, 0x4BE, 2, 0x48B);
   (0x4C0, 0x4C0, 1, 0x4CF); (0x4C1, 0x4CD, 2, 0x4C2);
   (0x4D0, 0x52E, 2, 0x4D1); (0x531, 0x556, 1, 0x561);
   (0x10A0, 0x10C5, 1, 0x2D00); (0x10C7, 0x10C7, 1, 0x2D27);
   (0x10CD, 0x10CD, 1, 0x2D2D); (0x13A0, 0x13EF, 1, 0xAB70);
   (0x13F0, 0x13F5, 1, 0x13F8); (0x1C90, 0x1CBA, 1, 0x10D0);
   (0x1CBD, 0x1CBF, 1, 0x10FD); (0x1E00, 0x1E94, 2, 0x1E01);
   (0x1E9E, 0x1E9E, 1, 0xDF); (0x1EA0, 0x1EFE, 2, 0x1EA1);
   (0x1F08, 0x1F0F, 1, 0x1F00); (0x1F18, 0x1F1D, 1, 0x1F10);
   (0x1F28, 0x1F2F, 1, 0x1F20); (0x1F38, 0x1F3F, 1, 0x1F30);
   (0x1F48, 0x1F4D, 1, 0x1F40); (0x1F59, 0x1F5F, 2, 0x1F51);
   (0x1F68, 0x1F6F, 1, 0x1F60); (0x1F88, 0x1F8F, 1, 0x1F80);
   (0x1F98, 0x1F9F, 1, 0x1F90); (0x1FA8, 0x1FAF, 1, 0x1FA0);
   (0x1FB8, 0x1FB9, 1, 0x1FB0); (0x1FBA, 0x1FBB, 1, 0x1F70);
   (0x1FBC, 0x1FBC, 1, 0x1FB3); (0x1FC8, 0x1FCB, 1, 0x1F72);
   (0x1FCC, 0x1FCC, 1, 0x1FC3); (0x1FD8, 0x1FD9, 1, 0x1FD0);
   (0x1FDA, 0x1FDB, 1, 0x1F76); (0x1FE8, 0x1FE9, 1, 0x1FE0);
   (0x1FEA, 0x1FEB, 1, 0x1F7A); (0x1FEC, 0x1FEC, 1, 0x1FE5);
   (0x1FF8, 0x1FF9, 1, 0x1F78); (0x1FFA, 0x1FFB, 1, 0x1F7C);
   (0x1FFC, 0x1FFC, 1, 0x1FF3); (0x2126, 0x2126, 1, 0x3C9);
   (0x212A, 0x212A, 1, 0x6B); (0x212B, 0x212B, 1, 0xE5);
   (0x2132, 0x2132, 1, 0x214E); (0x2160, 0x216F, 1, 0x2170);
   (0x2183, 0x2183, 1, 0x2184); (0x24B6, 0x24CF, 1, 0x24D0);
   (0x2C00, 0x2C2F, 1, 0x2C30); (0x2C60, 0x2C60, 1, 0x2C61);
   (0x2C62, 0x2C62, 1, 0x26B); (0x2C63, 0x2C63, 1, 0x1D7D);
   (0x2C64, 0x2C64, 1, 0x27D); (0x2C67, 0x2C6B, 2, 0x2C68);
   (0x2C6D, 0x2C6D, 1, 0x251); (0x2C6E, 0x2C6E, 1, 0x271);
   (0x2C6F, 0x2C6F, 1, 0x250); (0x2C70, 0x2C70, 1, 0x252);
   (0x2C72, 0x2C72, 1, 0x2C73); (0x2C75, 0x2C75, 1, 0x2C76);
   (0x2C7E, 0x2C7F, 1, 0x23F); (0x2C80, 0x2CE2, 2, 0x2C81);
   (0x2CEB, 0x2CED, 2, 0x2CEC); (0x2CF2, 0x2CF2, 1, 0x2CF3);
   (0xA640, 0xA66C, 2, 0xA641); (0xA680, 0xA69A, 2, 0xA681);
   (0xA722, 0xA72E, 2, 0xA723); (0xA732, 0xA76E, 2, 0xA733);
   (0xA779, 0xA77B, 2, 0xA77A); (0xA77D, 0xA77D, 1, 0x1D79);
   (0xA77E, 0xA786, 2, 0xA77F); (0xA78B, 0xA78B, 1, 0xA78C);
   (0xA78D, 0xA78D, 1, 0x265); (0xA790, 0xA792, 2, 0xA791);
   (0xA796, 0xA7A8, 2, 0xA797); (0xA7AA, 0xA7AA, 1, 0x266);
   (0xA7AB, 0xA7AB, 1, 0x25C); (0xA7AC, 0xA7AC, 1, 0x261);
   (0xA7AD, 0xA7AD, 1, 0x26C); (0xA7AE, 0xA7AE, 1, 0x26A);
   (0xA7B0, 0xA7B0, 1, 0x29E); (0xA7B1, 0xA7B1, 1, 0x287);
   (0xA7B2, 0xA7B2, 1, 0x29D); (0xA7B3, 0xA7B3, 1, 0xAB53);
   (0xA7B4, 0xA7C2, 2, 0xA7B5); (0xA7C4, 0xA7C4, 1, 0xA794);
   (0xA7C5, 0xA7C5, 1, 0x282); (0xA7C6, 0xA7C6, 1, 0x1D8E);
   (0xA7C7, 0xA7C9, 2, 0xA7C8); (0xA7D0, 0xA7D0, 1, 0xA7D1);
   (0xA7D6, 0xA7D8, 2, 0xA7D7); (0xA7F5, 0xA7F5, 1, 0xA7F6);
   (0xFF21, 0xFF3A, 1, 0xFF41); (0x10400, 0x10427, 1, 0x10428);
   (0x104B0, 0x104D3, 1, 0x104D8); (0x10570, 0x10594, 2, 0x10597);
   (0x10571, 0x1057A, 1, 0x10598); (0x1057D, 0x1058A, 1, 0x105A4);
   (0x1058D, 0x10592, 1, 0x105B4); (0x10595, 0x10595, 1, 0x105BC);
   (0x10C80, 0x10CB2, 1, 0x10CC0); (0x118A0, 0x118BF, 1, 0x118C0);
   (0x16E40, 0x16E5F, 1, 0x16E60); (0x1E900, 0x1E921, 1, 0x1E922)]%N.

Definition in_run (c : codepoint) (r : N * N * N * N) : bool :=
  let '(first, last, step, _) := r in
  (first <=? c)%N && (c <=? last)%N && ((c - first) mod step =? 0)%N.

(** The lower-case form of a character that has a simple one: the letters
    [A] to [Z] within ASCII, the table beyond. *)
Definition lower_code (c : codepoint) : codepoint :=
  if (c <? 0x80)%N then lower_char c
  else match find (in_run c) lower_runs with
       | Some (first, _, _, image) => (image + (c - first))%N
       | None => c
       end.

(** The full lower-case form: that of U+0130 has two characters. *)
Definition lower_full (c : codepoint) : str :=
  if (c =? 0x130)%N then [0x69; 0x307]%N else [lower_code c].

(** The properties [Cased] and [Case_Ignorable]. *)
Definition cased_ranges : list (N * N) :=
  [
   (0x41, 0x5A); (0x61, 0x7A); (0xAA, 0xAA); (0xB5, 0xB5); (0xBA, 0xBA);
   (0xC0, 0xD6); (0xD8, 0xF6); (0xF8, 0x1BA); (0x1BC, 0x1BF);
   (0x1C4, 0x293); (0x295, 0x2B8); (0x2C0, 0x2C1); (0x2E0, 0x2E4);
   (0x345, 0x345); (0x370, 0x373); (0x376, 0x377); (0x37A, 0x37D);
   (0x37F, 0x37F); (0x386, 0x386); (0x388, 0x38A); (0x38C, 0x38C);
   (0x38E, 0x3A1); (0x3A3, 0x3F5); (0x3F7, 0x481); (0x48A, 0x52F);
   (0x531, 0x556); (0x560, 0x588); (0x10A0, 0x10C5); (0x10C7, 0x10C7);
   (0x10CD, 0x10CD); (0x10D0, 0x10FA); (0x10FD, 0x10FF); (0x13A0, 0x13F5);
   (0x13F8, 0x13FD); (0x1C80, 0x1C88); (0x1C90, 0x1CBA); (0x1CBD, 0x1CBF);
   (0x1D00, 0x1DBF); (0x1E00, 0x1F15); (0x1F18, 0x1F1D); (0x1F20, 0x1F45);
   (0x1F48, 0x1F4D); (0x1F50, 0x1F57); (0x1F59, 0x1F59); (0x1F5B, 0x1F5B);
   (0x1F5D, 0x1F5D); (0x1F5F, 0x1F7D); (0x1F80, 0x1FB4); (0x1FB6, 0x1FBC);
   (0x1FBE, 0x1FBE); (0x1FC2, 0x1FC4); (0x1FC6, 0x1FCC); (0x1FD0, 0x1FD3);
   (0x1FD6, 0x1FDB); (0x1FE0, 0x1FEC); (0x1FF2, 0x1FF4); (0x1FF6, 0x1FFC);
   (0x2071, 0x2071); (0x207F, 0x207F); (0x2090, 0x209C); (0x2102, 0x2102);
   (0x2107, 0x2107); (0x210A, 0x2113); (0x2115, 0x2115); (0x2119, 0x211D);
   (0x2124, 0x2124); (0x2126, 0x2126); (0x2128, 0x2128); (0x212A, 0x212D);
   (0x212F, 0x2134); (0x2139, 0x2139); (0x213C, 0x213F); (0x2145, 0x2149);
   (0x214E, 0x214E); (0x2160, 0x217F); (0x2183, 0x2184); (0x24B6, 0x24E9);
   (0x2C00, 0x2CE4); (0x2CEB, 0x2CEE); (0x2CF2, 0x2CF3); (0x2D00, 0x2D25);
   (0x2D27, 0x2D27); (0x2D2D, 0x2D2D); (0xA640, 0xA66D); (0xA680, 0xA69D);
   (0xA722, 0xA787); (0xA78B, 0xA78E); (0xA790, 0xA7CA); (0xA7D0, 0xA7D1);
   (0xA7D3, 0xA7D3); (0xA7D5, 0xA7D9); (0xA7F5, 0xA7F6); (0xA7F8, 0xA7FA);
   (0xAB30, 0xAB5A); (0xAB5C, 0xAB68); (0xAB70, 0xABBF); (0xFB00, 0xFB06);
   (0xFB13, 0xFB17); (0xFF21, 0xFF3A); (0xFF41, 0xFF5A);
   (0x10400, 0x1044F); (0x104B0, 0x104D3); (0x104D8, 0x104FB);
   (0x10570, 0x1057A); (0x1057C, 0x1058A); (0x1058C, 0x10592);
   (0x10594, 0x10595); (0x10597, 0x105A1); (0x105A3, 0x105B1);
   (0x105B3, 0x105B9); (0x105BB, 0x105BC); (0x10780, 0x10780);
   (0x10783, 0x10785); (0x10787, 0x107B0); (0x107B2, 0x107BA);
   (0x10C80, 0x10CB2); (0x10CC0, 0x10CF2); (0x118A0, 0x118DF);
   (0x16E40, 0x16E7F); (0x1D400, 0x1D454); (0x1D456, 0x1D49C);
   (0x1D49E, 0x1D49F); (0x1D4A2, 0x1D4A2); (0x1D4A5, 0x1D4A6);
   (0x1D4A9, 0x1D4AC); (0x1D4AE, 0x1D4B9); (0x1D4BB, 0x1D4BB);
   (0x1D4BD, 0x1D4C3); (0x1D4C5, 0x1D505); (0x1D507, 0x1D50A);
   (0x1D50D, 0x1D514); (0x1D516, 0x1D51C); (0x1D51E, 0x1D539);
   (0x1D53B, 0x1D53E); (0x1D540, 0x1D544); (0x1D546, 0x1D546);
   (0x1D54A, 0x1D550); (0x1D552, 0x1D6A5); (0x1D6A8, 0x1D6C0);
   (0x1D6C2, 0x1D6DA); (0x1D6DC, 0x1D6FA); (0x1D6FC, 0x1D714);
   (0x1D716, 0x1D734); (0x1D736, 0x1D74E); (0x1D750, 0x1D76E);
   (0x1D770, 0x1D788); (0x1D78A, 0x1D7A8); (0x1D7AA, 0x1D7C2);
   (0x1D7C4, 0x1D7CB); (0x1DF00, 0x1DF09); (0x1DF0B, 0x1DF1E);
   (0x1E900, 0x1E943); (0x1F130, 0x1F149); (0x1F150, 0x1F169);
   (0x1F170, 0x1F189)]%N.

Definition case_ignorable_ranges : list (N * N) :=
  [
   (0x27, 0x27); (0x2E, 0x2E); (0x3A, 0x3A); (0x5E, 0x5E); (0x60, 0x60);
   (0xA8, 0xA8); (0xAD, 0xAD); (0xAF, 0xAF); (0xB4, 0xB4); (0xB7, 0xB8);
   (0x2B0, 0x36F); (0x374, 0x375); (0x37A, 0x37A); (0x384, 0x385);
   (0x387, 0x387); (0x483, 0x489); (0x559, 0x559); (0x55F, 0x55F);
   (0x591, 0x5BD); (0x5BF, 0x5BF); (0x5C1, 0x5C2); (0x5C4, 0x5C5);
   (0x5C7, 0x5C7); (0x5F4, 0x5F4); (0x600, 0x605); (0x610, 0x61A);
   (0x61C, 0x61C); (0x640, 0x640); (0x64B, 0x65F); (0x670, 0x670);
   (0x6D6, 0x6DD); (0x6DF, 0x6E8); (0x6EA, 0x6ED); (0x70F, 0x70F);
   (0x711, 0x711); (0x730, 0x74A); (0x7A6, 0x7B0); (0x7EB, 0x7F5);
   (0x7FA, 0x7FA); (0x7FD, 0x7FD); (0x816, 0x82D); (0x859, 0x85B);
   (0x888, 0x888); (0x890, 0x891); (0x898, 0x89F); (0x8C9, 0x902);
   (0x93A, 0x93A); (0x93C, 0x93C); (0x941, 0x948); (0x94D, 0x94D);
   (0x951, 0x957); (0x962, 0x963); (0x971, 0x971); (0x981, 0x981);
   (0x9BC, 0x9BC); (0x9C1, 0x9C4); (0x9CD, 0x9CD); (0x9E2, 0x9E3);
   (0x9FE, 0x9FE); (0xA01, 0xA02); (0xA3C, 0xA3C); (0xA41, 0xA42);
   (0xA47, 0xA48); (0xA4B, 0xA4D); (0xA51, 0xA51); (0xA70, 0xA71);
   (0xA75, 0xA75); (0xA81, 0xA82); (0xABC, 0xABC); (0xAC1, 0xAC5);
   (0xAC7, 0xAC8); (0xACD, 0xACD); (0xAE2, 0xAE3); (0xAFA, 0xAFF);
   (0xB01, 0xB01); (0xB3C, 0xB3C); (0xB3F, 0xB3F); (0xB41, 0xB44);
   (0xB4D, 0xB4D); (0xB55, 0xB56); (0xB62, 0xB63); (0xB82, 0xB82);
   (0xBC0, 0xBC0); (0xBCD, 0xBCD); (0xC00, 0xC00); (0xC04, 0xC04);
   (0xC3C, 0xC3C); (0xC3E, 0xC40); (0xC46, 0xC48); (0xC4A, 0xC4D);
   (0xC55, 0xC56); (0xC62, 0xC63); (0xC81, 0xC81); (0xCBC, 0xCBC);
   (0xCBF, 0xCBF); (0xCC6, 0xCC6); (0xCCC, 0xCCD); (0xCE2, 0xCE3);
   (0xD00, 0xD01); (0xD3B, 0xD3C); (0xD41, 0xD44); (0xD4D, 0xD4D);
   (0xD62, 0xD63); (0xD81, 0xD81); (0xDCA, 0xDCA); (0xDD2, 0xDD4);
   (0xDD6, 0xDD6); (0xE31, 0xE31); (0xE34, 0xE3A); (0xE46, 0xE4E);
   (0xEB1, 0xEB1); (0xEB4, 0xEBC); (0xEC6, 0xEC6); (0xEC8, 0xECD);
   (0xF18, 0xF19); (0xF35, 0xF35); (0xF37, 0xF37); (0xF39, 0xF39);
   (0xF71, 0xF7E); (0xF80, 0xF84); (0xF86, 0xF87); (0xF8D, 0xF97);
   (0xF99, 0xFBC); (0xFC6, 0xFC6); (0x102D, 0x1030); (0x1032, 0x1037);
   (0x1039, 0x103A); (0x103D, 0x103E); (0x1058, 0x1059); (0x105E, 0x1060);
   (0x1071, 0x1074); (0x1082, 0x1082); (0x1085, 0x1086); (0x108D, 0x108D);
   (0x109D, 0x109D); (0x10FC, 0x10FC); (0x135D, 0x135F); (0x1712, 0x1714);
   (0x1732, 0x1733); (0x1752, 0x1753); (0x1772, 0x1773); (0x17B4, 0x17B5);
   (0x17B7, 0x17BD); (0x17C6, 0x17C6); (0x17C9, 0x17D3); (0x17D7, 0x17D7);
   (0x17DD, 0x17DD); (0x180B, 0x180F); (0x1843, 0x1843); (0x1885, 0x1886);
   (0x18A9, 0x18A9); (0x1920, 0x1922); (0x1927, 0x1928); (0x1932, 0x1932);
   (0x1939, 0x193B); (0x1A17, 0x1A18); (0x1A1B, 0x1A1B); (0x1A56, 0x1A56);
   (0x1A58, 0x1A5E); (0x1A60, 0x1A60); (0x1A62, 0x1A62); (0x1A65, 0x1A6C);
   (0x1A73, 0x1A7C); (0x1A7F, 0x1A7F); (0x1AA7, 0x1AA7); (0x1AB0, 0x1ACE);
   (0x1B00, 0x1B03); (0x1B34, 0x1B34); (0x1B36, 0x1B3A); (0x1B3C, 0x1B3C);
   (0x1B42, 0x1B42); (0x1B6B, 0x1B73); (0x1B80, 0x1B81); (0x1BA2, 0x1BA5);
   (0x1BA8, 0x1BA9); (0x1BAB, 0x1BAD); (0x1BE6, 0x1BE6); (0x1BE8, 0x1BE9);
   (0x1BED, 0x1BED); (0x1BEF, 0x1BF1); (0x1C2C, 0x1C33); (0x1C36, 0x1C37);
   (0x1C78, 0x1C7D); (0x1CD0, 0x1CD2); (0x1CD4, 0x1CE0); (0x1CE2, 0x1CE8);
   (0x1CED, 0x1CED); (0x1CF4, 0x1CF4); (0x1CF8, 0x1CF9); (0x1D2C, 0x1D6A);
   (0x1D78, 0x1D78); (0x1D9B, 0x1DFF); (0x1FBD, 0x1FBD); (0x1FBF, 0x1FC1);
   (0x1FCD, 0x1FCF); (0x1FDD, 0x1FDF); (0x1FED, 0x1FEF); (0x1FFD, 0x1FFE);
   (0x200B, 0x200F); (0x2018, 0x2019); (0x2024, 0x2024); (0x2027, 0x2027);
   (0x202A, 0x202E); (0x2060, 0x2064); (0x2066, 0x206F); (0x2071, 0x2071);
   (0x207F, 0x207F); (0x2090, 0x209C); (0x20D0, 0x20F0); (0x2C7C, 0x2C7D);
   (0x2CEF, 0x2CF1); (0x2D6F, 0x2D6F); (0x2D7F, 0x2D7F); (0x2DE0, 0x2DFF);
   (0x2E2F, 0x2E2F); (0x3005, 0x3005); (0x302A, 0x302D); (0x3031, 0x3035);
   (0x303B, 0x303B); (0x3099, 0x309E); (0x30FC, 0x30FE); (0xA015, 0xA015);
   (0xA4F8, 0xA4FD); (0xA60C, 0xA60C); (0xA66F, 0xA672); (0xA674, 0xA67D);
   (0xA67F, 0xA67F); (0xA69C, 0xA69F); (0xA6F0, 0xA6F1); (0xA700, 0xA721);
   (0xA770, 0xA770); (0xA788, 0xA78A); (0xA7F2, 0xA7F4); (0xA7F8, 0xA7F9);
   (0xA802, 0xA802); (0xA806, 0xA806); (0xA80B, 0xA80B); (0xA825, 0xA826);
   (0xA82C, 0xA82C); (0xA8C4, 0xA8C5); (0xA8E0, 0xA8F1); (0xA8FF, 0xA8FF);
   (0xA926, 0xA92D); (0xA947, 0xA951); (0xA980, 0xA982); (0xA9B3, 0xA9B3);
   (0xA9B6, 0xA9B9); (0xA9BC, 0xA9BD); (0xA9CF, 0xA9CF); (0xA9E5, 0xA9E6);
   (0xAA29, 0xAA2E); (0xAA31, 0xAA32); (0xAA35, 0xAA36); (0xAA43, 0xAA43);
   (0xAA4C, 0xAA4C); (0xAA70, 0xAA70); (0xAA7C, 0xAA7C); (0xAAB0, 0xAAB0);
   (0xAAB2, 0xAAB4); (0xAAB7, 0xAAB8); (0xAABE, 0xAABF); (0xAAC1, 0xAAC1);
   (0xAADD, 0xAADD); (0xAAEC, 0xAAED); (0xAAF3, 0xAAF4); (0xAAF6, 0xAAF6);
   (0xAB5B, 0xAB5F); (0xAB69, 0xAB6B); (0xABE5, 0xABE5); (0xABE8, 0xABE8);
   (0xABED, 0xABED); (0xFB1E, 0xFB1E); (0xFBB2, 0xFBC2); (0xFE00, 0xFE0F);
   (0xFE13, 0xFE13); (0xFE20, 0xFE2F); (0xFE52, 0xFE52); (0xFE55, 0xFE55);
   (0xFEFF, 0xFEFF); (0xFF07, 0xFF07); (0xFF0E, 0xFF0E); (0xFF1A, 0xFF1A);
   (0xFF3E, 0xFF3E); (0xFF40, 0xFF40); (0xFF70, 0xFF70); (0xFF9E, 0xFF9F);
   (0xFFE3, 0xFFE3); (0xFFF9, 0xFFFB); (0x101FD, 0x101FD);
   (0x102E0, 0x102E0); (0x10376, 0x1037A); (0x10780, 0x10785);
   (0x10787, 0x107B0); (0x107B2, 0x107BA); (0x10A01, 0x10A03);
   (0x10A05, 0x10A06); (0x10A0C, 0x10A0F); (0x10A38, 0x10A3A);
   (0x10A3F, 0x10A3F); (0x10AE5, 0x10AE6); (0x10D24, 0x10D27);
   (0x10EAB, 0x10EAC); (0x10F46, 0x10F50); (0x10F82, 0x10F85);
   (0x11001, 0x11001); (0x11038, 0x11046); (0x11070, 0x11070);
   (0x11073, 0x11074); (0x1107F, 0x11081); (0x110B3, 0x110B6);
   (0x110B9, 0x110BA); (0x110BD, 0x110BD); (0x110C2, 0x110C2);
   (0x110CD, 0x110CD); (0x11100, 0x11102); (0x11127, 0x1112B);
   (0x1112D, 0x11134); (0x11173, 0x11173); (0x11180, 0x11181);
   (0x111B6, 0x111BE); (0x111C9, 0x111CC); (0x111CF, 0x111CF);
   (0x1122F, 0x11231); (0x11234, 0x11234); (0x11236, 0x11237);
   (0x1123E, 0x1123E); (0x112DF, 0x112DF); (0x112E3, 0x112EA);
   (0x11300, 0x11301); (0x1133B, 0x1133C); (0x11340, 0x11340);
   (0x11366, 0x1136C); (0x11370, 0x11374); (0x11438, 0x1143F);
   (0x11442, 0x11444); (0x11446, 0x11446); (0x1145E, 0x1145E);
   (0x114B3, 0x114B8); (0x114BA, 0x114BA); (0x114BF, 0x114C0);
   (0x114C2, 0x114C3); (0x115B2, 0x115B5); (0x115BC, 0x115BD);
   (0x115BF, 0x115C0); (0x115DC, 0x115DD); (0x11633, 0x1163A);
   (0x1163D, 0x1163D); (0x1163F, 0x11640); (0x116AB, 0x116AB);
   (0x116AD, 0x116AD); (0x116B0, 0x116B5); (0x116B7, 0x116B7);
   (0x1171D, 0x1171F); (0x11722, 0x11725); (0x11727, 0x1172B);
   (0x1182F, 0x11837); (0x11839, 0x1183A); (0x1193B, 0x1193C);
   (0x1193E, 0x1193E); (0x11943, 0x11943); (0x119D4, 0x119D7);
   (0x119DA, 0x119DB); (0x119E0, 0x119E0); (0x11A01, 0x11A0A);
   (0x11A33, 0x11A38); (0x11A3B, 0x11A3E); (0x11A47, 0x11A47);
   (0x11A51, 0x11A56); (0x11A59, 0x11A5B); (0x11A8A, 0x11A96);
   (0x11A98, 0x11A99); (0x11C30, 0x11C36); (0x11C38, 0x11C3D);
   (0x11C3F, 0x11C3F); (0x11C92, 0x11CA7); (0x11CAA, 0x11CB0);
   (0x11CB2, 0x11CB3); (0x11CB5, 0x11CB6); (0x11D31, 0x11D36);
   (0x11D3A, 0x11D3A); (0x11D3C, 0x11D3D); (0x11D3F, 0x11D45);
   (0x11D47, 0x11D47); (0x11D90, 0x11D91); (0x11D95, 0x11D95);
   (0x11D97, 0x11D97); (0x11EF3, 0x11EF4); (0x13430, 0x13438);
   (0x16AF0, 0x16AF4); (0x16B30, 0x16B36); (0x16B40, 0x16B43);
   (0x16F4F, 0x16F4F); (0x16F8F, 0x16F9F); (0x16FE0, 0x16FE1);
   (0x16FE3, 0x16FE4); (0x1AFF0, 0x1AFF3); (0x1AFF5, 0x1AFFB);
   (0x1AFFD, 0x1AFFE); (0x1BC9D, 0x1BC9E); (0x1BCA0, 0x1BCA3);
   (0x1CF00, 0x1CF2D); (0x1CF30, 0x1CF46); (0x1D167, 0x1D169);
   (0x1D173, 0x1D182); (0x1D185, 0x1D18B); (0x1D1AA, 0x1D1AD);
   (0x1D242, 0x1D244); (0x1DA00, 0x1DA36); (0x1DA3B, 0x1DA6C);
   (0x1DA75, 0x1DA75); (0x1DA84, 0x1DA84); (0x1DA9B, 0x1DA9F);
   (0x1DAA1, 0x1DAAF); (0x1E000, 0x1E006); (0x1E008, 0x1E018);
   (0x1E01B, 0x1E021); (0x1E023, 0x1E024); (0x1E026, 0x1E02A);
   (0x1E130, 0x1E13D); (0x1E2AE, 0x1E2AE); (0x1E2EC, 0x1E2EF);
   (0x1E8D0, 0x1E8D6); (0x1E944, 0x1E94B); (0x1F3FB, 0x1F3FF);
   (0xE0001, 0xE0001); (0xE0020, 0xE007F); (0xE0100, 0xE01EF)]%N.

Definition cased (c : codepoint) : bool := in_ranges cased_ranges c.
Definition case_ignorable (c : codepoint) : bool :=
  in_ranges case_ignorable_ranges c.

(** The first character that is not case-ignorable exists and is cased. *)
Fixpoint cased_ahead (s : str) : bool :=
  match s with
  | [] => false
  | c :: r => if case_ignorable c then cased_ahead r else cased c
  end.

(** [s.lower()], from a place in the text: [after_cased] tells that the
    last character before that place which is not case-ignorable is cased.
    A capital sigma (U+03A3) becomes the final sigma (U+03C2) after such a
    character, unless a cased character follows it in the same way; it
    becomes the small sigma (U+03C3) otherwise. *)
Fixpoint lower_from (after_cased : bool) (s : str) : str :=
  match s with
  | [] => []
  | c :: r =>
      (if (c =? 0x3A3)%N
       then [if after_cased && negb (cased_ahead r) then 0x3C2 else 0x3C3]%N
       else lower_full c)
      ++ lower_from (if case_ignorable c then after_cased else cased c) r
  end.

(** [s.lower()] *)
Definition lower (s : str) : str := lower_from false s.

(** [str.isspace] on one code point *)
Definition isspace (c : codepoint) : bool :=
  ((0x09 <=? c) && (c <=? 0x0D))%N || ((0x1C <=? c) && (c <=? 0x20))%N
  || (c =? 0x85)%N || (c =? 0xA0)%N || (c =? 0x1680)%N
  || ((0x2000 <=? c) && (c <=? 0x200A))%N || (c =? 0x2028)%N
  || (c =? 0x2029)%N || (c =? 0x202F)%N || (c =? 0x205F)%N
  || (c =? 0x3000)%N.

Fixpoint dropwhile (f : codepoint -> bool) (s : str) : str :=
  match s with
  | [] => []
  | c :: r => if f c then dropwhile f r else s
  end.

Fixpoint takewhile (f : codepoint -> bool) (s : str) : str :=
  match s with
  | [] => []
  | c :: r => if f c then c :: takewhile f r else []
  end.

Definition lstrip (s : str) : str := dropwhile isspace s.

(** [s.rstrip()]: the text up to its last character that is not a space. *)
Fixpoint rstrip (s : str) : str :=
  match s with
  | [] => []
  | c :: r =>
      match rstrip r with
      | [] => if isspace c then [] else [c]
      | r' => c :: r'
      end
  end.

(** [s.strip()] *)
Definition strip (s : str) : str := rstrip (lstrip s).

(** [s.strip(chars)] *)
Definition strip_chars (chars : str) (s : str) : str :=
  let f c := existsb (N.eqb c) chars in
  rev (dropwhile f (rev (dropwhile f s))).

(** [s.replace(c, "")] for a one-character [c] *)
Definition remove_char (c : codepoint) (s : str) : str :=
  filter (fun d => negb (d =? c)%N) s.

(** [s.split(c)] for a one-character separator *)
Fixpoint split (c : codepoint) (s : str) : list str :=
  match s with
  | [] => [[]]
  | d :: r =>
      if (d =? c)%N then [] :: split c r
      else match split c r with
           | [] => [[d]]
           | w :: ws => (d :: w) :: ws
           end
  end.

(** [s.partition(c)]: the text before the first [c] and the text after it. *)
Fixpoint partition (c : codepoint) (s : str) : str * str :=
  match s with
  | [] => ([], [])
  | d :: r =>
      if (d =? c)%N then ([], r)
      else let '(a, b) := partition c r in (d :: a, b)
  end.

(** [sep.join(parts)] *)
Fixpoint join (sep : str) (parts : list str) : str :=
  match parts with
  | [] => []
  | [p] => p
  | p :: ps => p ++ sep ++ join sep ps
  end.

(** The zeros of the decimal systems: the ten digits of a system follow
    each other from its zero. *)
Definition decimal_zeros : list N :=
  [
   0x30; 0x660; 0x6F0; 0x7C0; 0x966; 0x9E6; 0xA66; 0xAE6; 0xB66; 0xBE6;
   0xC66; 0xCE6; 0xD66; 0xDE6; 0xE50; 0xED0; 0xF20; 0x1040; 0x1090; 0x17E0;
   0x1810; 0x1946; 0x19D0; 0x1A80; 0x1A90; 0x1B50; 0x1BB0; 0x1C40; 0x1C50;
   0xA620; 0xA8D0; 0xA900; 0xA9D0; 0xA9F0; 0xAA50; 0xABF0; 0xFF10; 0x104A0;
   0x10D30; 0x11066; 0x110F0; 0x11136; 0x111D0; 0x112F0; 0x11450; 0x114D0;
   0x11650; 0x116C0; 0x11730; 0x118E0; 0x11950; 0x11C50; 0x11D50; 0x11DA0;
   0x16A60; 0x16AC0; 0x16B50; 0x1D7CE; 0x1D7D8; 0x1D7E2; 0x1D7EC; 0x1D7F6;
   0x1E140; 0x1E2F0; 0x1E950; 0x1FBF0]%N.

(** The value of a decimal digit. *)
Definition decimal_value (c : codepoint) : option N :=
  match find (fun zero => (zero <=? c)%N && (c <? zero + 10)%N) decimal_zeros with
  | Some zero => Some (c - zero)%N
  | None => None
  end.

(** The class [\d] of [re] on a [str]: the decimal digits. *)
Definition isdecimal (c : codepoint) : bool :=
  match decimal_value c with
  | Some _ => true
  | None => false
  end.

(** The digits that are not decimal: superscripts, circled digits and the
    like. *)
Definition other_digits : list (N * N) :=
  [
   (0xB2, 0xB3); (0xB9, 0xB9); (0x1369, 0x1371); (0x19DA, 0x19DA);
   (0x2070, 0x2070); (0x2074, 0x2079); (0x2080, 0x2089); (0x2460, 0x2468);
   (0x2474, 0x247C); (0x2488, 0x2490); (0x24EA, 0x24EA); (0x24F5, 0x24FD);
   (0x24FF, 0x24FF); (0x2776, 0x277E); (0x2780, 0x2788); (0x278A, 0x2792);
   (0x10A40, 0x10A43); (0x10E60, 0x10E68); (0x11052, 0x1105A);
   (0x1F100, 0x1F10A)]%N.

(** [str.isdigit] on one code point *)
Definition isdigit (c : codepoint) : bool := isdecimal c || in_ranges other_digits c.

(** The digits of ASCII. *)
Definition ascii_digit (c : codepoint) : bool := (0x30 <=? c)%N && (c <=? 0x39)%N.

(** [s.isdigit()] *)
Definition str_isdigit (s : str) : bool :=
  match s with [] => false | _ => forallb isdigit s end.

(** [sys.get_int_max_str_digits()], as it is by default *)
Definition int_max_str_digits : nat := 4300.

(** The value of a run of decimal digits, the first digit counting most. *)
Definition digits_value (ds : str) : Z :=
  fold_left (fun acc c =>
               (10 * acc + match decimal_value c with
                           | Some v => Z.of_N v
                           | None => 0
                           end)%Z) ds 0%Z.

(** [int(ds)] on a text made of digits, without sign, space or underscore:
    [ValueError] on more than 4300 characters and on a character that is
    not a decimal digit. *)
Definition int_of_digits (ds : str) : result Z :=
  if (int_max_str_digits <? length ds)%nat then Raise ValueError
  else if negb (length ds =? 0)%nat && forallb isdecimal ds then Ok (digits_value ds)
  else Raise ValueError.

(** [re.search(r"(\d+)", s)]: group 1 of the leftmost match, the digits
    being taken greedily. *)
Fixpoint search_digits (s : str) : option str :=
  match s with
  | [] => None
  | c :: r => if isdecimal c then Some (c :: takewhile isdecimal r)
              else search_digits r
  end.

(** [re.search(l + r"([class]+)", s)] for a literal [l] and a character
    class: group 1 of the leftmost place where [l] is followed by at least
    one character of the class, the run being taken greedily. *)
Fixpoint search_lit_run (cls : codepoint -> bool) (l : str) (s : str)
  : option str :=
  let here :=
    if startswith s l
    then match takewhile cls (skipn (length l) s) with
         | [] => None
         | run => Some run
         end
    else None in
  match here with
  | Some run => Some run
  | None => match s with
            | [] => None
            | _ :: r => search_lit_run cls l r
            end
  end.

(** [re.search(l + r"(\d+)", s)] *)
Definition search_lit_digits (l s : str) : option str :=
  search_lit_run isdecimal l s.

End PyStr.
Import PyStr.

(* ================================================================= *)
(** ** [urllib.parse]: the part of CPython's module the code relies on

    [urlsplit], [urlparse], [urlunparse] and [urljoin] after CPython 3.11's
    [Lib/urllib/parse.py], for [str] arguments, with the checks of the
    authority that make [urlsplit] raise [ValueError]: the square brackets,
    the address between them (after [Lib/ipaddress.py]) and the characters
    that NFKC normalisation turns into delimiters. *)

Module Url.

Definition uses_relative : list str :=
  [u ""; u "ftp"; u "http"; u "gopher"; u "nntp"; u "imap"; u "wais";
   u "file"; u "https"; u "shttp"; u "mms"; u "prospero"; u "rtsp";
   u "rtspu"; u "sftp"; u "svn"; u "svn+ssh"; u "ws"; u "wss"].

Definition uses_netloc : list str :=
  [u ""; u "ftp"; u "http"; u "gopher"; u "nntp"; u "telnet"; u "imap";
   u "wais"; u "file"; u "mms"; u "https"; u "shttp"; u "snews";
   u "prospero"; u "rtsp"; u "rtspu"; u "rsync"; u "svn"; u "svn+ssh";
   u "sftp"; u "nfs"; u "git"; u "git+ssh"; u "ws"; u "wss"].

Definition uses_params : list str :=
  [u ""; u "ftp"; u "hdl"; u "prospero"; u "http"; u "imap"; u "https";
   u "shttp"; u "rtsp"; u "rtspu"; u "sip"; u "sips"; u "mms"; u "sftp";
   u "tel"].

Definition is_lower (c : codepoint) : bool := (0x61 <=? c)%N && (c <=? 0x7A)%N.
Definition ascii_alpha (c : codepoint) : bool := is_lower c || is_upper c.
Definition scheme_char (c : codepoint) : bool :=
  ascii_alpha c || ascii_digit c || (c =? 0x2B)%N || (c =? 0x2D)%N || (c =? 0x2E)%N.

(** [_WHATWG_C0_CONTROL_OR_SPACE] and [_UNSAFE_URL_BYTES_TO_REMOVE] *)
Definition c0_or_space (c : codepoint) : bool := (c <=? 0x20)%N.
Definition unsafe_byte (c : codepoint) : bool :=
  (c =? 0x09)%N || (c =? 0x0D)%N || (c =? 0x0A)%N.

Definition has_char (c : codepoint) (s : str) : bool := existsb (N.eqb c) s.

Definition nonempty (s : str) : bool := match s with [] => false | _ => true end.

Record SplitResult : Type := mkSplit {
  scheme : str; netloc : str; path : str; query : str; fragment : str }.

Record ParseResult : Type := mkParse {
  p_scheme : str; p_netloc : str; p_path : str; p_params : str;
  p_query : str; p_fragment : str }.

(** The scheme test of [urlsplit]: [i = url.find(':')], [i > 0], an ASCII
    letter first and only scheme characters before the colon. *)
Definition split_scheme (dflt url : str) : str * str :=
  if has_char 0x3A%N url then
    let pre := takewhile (fun c => negb (c =? 0x3A)%N) url in
    match pre with
    | c :: _ =>
        if ascii_alpha c && forallb scheme_char pre
        then (lower pre, skipn (S (length pre)) url)
        else (dflt, url)
    | [] => (dflt, url)
    end
  else (dflt, url).

Definition is_delim (c : codepoint) : bool :=
  (c =? 0x2F)%N || (c =? 0x3F)%N || (c =? 0x23)%N.

(** [_splitnetloc(url, 2)] *)
Definition _splitnetloc (url : str) : str * str :=
  let body := skipn 2 url in
  (takewhile (fun c => negb (is_delim c)) body,
   dropwhile (fun c => negb (is_delim c)) body).

(** *** The checks of the authority *)

Definition hex_digit (c : codepoint) : bool :=
  ascii_digit c || ((0x41 <=? c)%N && (c <=? 0x46)%N)
  || ((0x61 <=? c)%N && (c <=? 0x66)%N).

(** [IPv4Address._parse_octet] does not raise: ASCII digits, three at most,
    no leading zero, 255 at most. *)
Definition octet_ok (octet_str : str) : bool :=
  nonempty octet_str
  && forallb ascii_digit octet_str
  && (length octet_str <=? 3)%nat
  && (str_eqb octet_str (u "0") || negb (startswith octet_str (u "0")))
  && (digits_value octet_str <=? 255)%Z.

(** [IPv4Address(address)] does not raise. *)
Definition ipv4_ok (address : str) : bool :=
  negb (has_char 0x2F%N address)
  && nonempty address
  && (let octets := split 0x2E%N address in
      (length octets =? 4)%nat && forallb octet_ok octets).

(** [IPv6Address._parse_hextet] does not raise: one to four hexadecimal
    digits. *)
Definition hextet_ok (hextet_str : str) : bool :=
  nonempty hextet_str && forallb hex_digit hextet_str
  && (length hextet_str <=? 4)%nat.

(** The places of the empty parts other than the first and the last. *)
Fixpoint inner_empty (i : nat) (parts : list str) : list nat :=
  match parts with
  | [] => []
  | [_] => []
  | p :: rest =>
      if negb (nonempty p) && negb (i =? 0)%nat then i :: inner_empty (S i) rest
      else inner_empty (S i) rest
  end.

(** [IPv6Address._ip_int_from_string(ip_str)] does not raise. *)
Definition ipv6_parts_ok (ip_str : str) : bool :=
  if negb (nonempty ip_str) then false
  else
    let parts := split 0x3A%N ip_str in
    if (length parts <? 3)%nat then false
    else
      (* an IPv4-style suffix makes two parts *)
      let suffix := last parts [] in
      let suffix_ok := negb (has_char 0x2E%N suffix) || ipv4_ok suffix in
      let parts :=
        if has_char 0x2E%N suffix then removelast parts ++ [u "0"; u "0"]
        else parts in
      if negb suffix_ok then false
      else if (9 <? length parts)%nat then false
      else
        match inner_empty 0 parts with
        | _ :: _ :: _ => false
        | [skip_index] =>
            let first_empty := negb (nonempty (hd [] parts)) in
            let last_empty := negb (nonempty (last parts [])) in
            let parts_hi := if first_empty then skip_index - 1 else skip_index in
            let parts_lo :=
              if last_empty then length parts - skip_index - 1 - 1
              else length parts - skip_index - 1 in
            if first_empty && negb (parts_hi =? 0)%nat then false
            else if last_empty && negb (parts_lo =? 0)%nat then false
            else if (8 - (parts_hi + parts_lo) <? 1)%nat then false
            else
              forallb hextet_ok (firstn parts_hi parts)
              && forallb hextet_ok (skipn (length parts - parts_lo) parts)
        | [] =>
            (length parts =? 8)%nat
            && nonempty (hd [] parts) && nonempty (last parts [])
            && forallb hextet_ok parts
        end.

(** [IPv6Address(address)] does not raise: the address may end with a scope
    id after a percent sign. *)
Definition ipv6_ok (address : str) : bool :=
  negb (has_char 0x2F%N address)
  && (let '(addr, scope_id) := partition 0x25%N address in
      (negb (has_char 0x25%N address)
       || (nonempty scope_id && negb (has_char 0x25%N scope_id)))
      && ipv6_parts_ok addr).

(** [_check_bracketed_host(hostname)]: an address of a future version,
    [\Av[a-fA-F0-9]+\..+\Z], or an address that [ipaddress.ip_address]
    reads as one of version 6. *)
Definition _check_bracketed_host (hostname : str) : result unit :=
  if startswith hostname (u "v") then
    let digits := takewhile hex_digit (tl hostname) in
    let rest := skipn (length digits) (tl hostname) in
    if nonempty digits && startswith rest (u ".") && nonempty (tl rest)
       && negb (has_char 0x0A%N (tl rest))
    then Ok tt else Raise ValueError
  else if negb (ipv4_ok hostname) && ipv6_ok hostname then Ok tt
  else Raise ValueError.

(** [s.rpartition(c)[2]]: the text after the last [c]. *)
Definition after_last (c : codepoint) (s : str) : str :=
  rev (takewhile (fun d => negb (d =? c)%N) (rev s)).

(** [_check_bracketed_netloc(netloc)] *)
Definition _check_bracketed_netloc (netloc : str) : result unit :=
  let hostname_and_port := after_last 0x40%N netloc in
  if has_char 0x5B%N hostname_and_port then
    let '(before_bracket, bracketed) := partition 0x5B%N hostname_and_port in
    if nonempty before_bracket then Raise ValueError
    else
      let '(hostname, port) := partition 0x5D%N bracketed in
      if nonempty port && negb (startswith port (u ":")) then Raise ValueError
      else _check_bracketed_host hostname
  else
    let '(hostname, _) := partition 0x3A%N hostname_and_port in
    _check_bracketed_host hostname.

(** The characters whose form under NFKC normalisation holds one of the
    characters [/?#@:] (Unicode 14.0.0). *)
Definition nfkc_delimiters : list N :=
  [0x2047; 0x2048; 0x2049; 0x2100; 0x2101; 0x2105; 0x2106; 0x2A74; 0xFE13;
   0xFE16; 0xFE55; 0xFE56; 0xFE5F; 0xFE6B; 0xFF03; 0xFF0F; 0xFF1A; 0xFF1F;
   0xFF20]%N.

(** [_checknetloc(netloc)]: the normal form of the authority without its
    own [@:#?] must hold none of [/?#@:].  Normalisation never removes one
    of these characters, and brings one in exactly where the text holds a
    character of [nfkc_delimiters]. *)
Definition _checknetloc (netloc : str) : result unit :=
  if existsb (fun c => existsb (N.eqb c) nfkc_delimiters) netloc
  then Raise ValueError else Ok tt.

Definition urlsplit (url dflt : str) : result SplitResult :=
  let url := dropwhile c0_or_space url in
  let dflt := rev (dropwhile c0_or_space (rev (dropwhile c0_or_space dflt))) in
  let url := filter (fun c => negb (unsafe_byte c)) url in
  let dflt := filter (fun c => negb (unsafe_byte c)) dflt in
  let '(sch, url) := split_scheme dflt url in
  nu <- (if startswith url (u "//") then
           let '(nl, rest) := _splitnetloc url in
           if (has_char 0x5B%N nl && negb (has_char 0x5D%N nl))
              || (has_char 0x5D%N nl && negb (has_char 0x5B%N nl))
           then Raise ValueError
           else
             _ <- (if has_char 0x5B%N nl && has_char 0x5D%N nl
                   then _check_bracketed_netloc nl else Ok tt) ;;
             Ok (nl, rest)
         else Ok ([], url)) ;;
  let '(nl, url) := nu in
  let '(url, frag) := partition 0x23%N url in
  let '(url, qry) := partition 0x3F%N url in
  _ <- _checknetloc nl ;;
  Ok (mkSplit sch nl url qry frag).

(** [_splitparams]: the parameters are cut off the last path segment. *)
Definition _splitparams (url : str) : str * str :=
  let last := rev (takewhile (fun c => negb (c =? 0x2F)%N) (rev url)) in
  let dir := firstn (length url - length last) url in
  if has_char 0x3B%N last
  then let '(a, b) := partition 0x3B%N last in (dir ++ a, b)
  else (url, []).

Definition urlparse (url dflt : str) : result ParseResult :=
  r <- urlsplit url dflt ;;
  let '(url, params) :=
    if mem (scheme r) uses_params && has_char 0x3B%N (path r)
    then _splitparams (path r) else (path r, []) in
  Ok (mkParse (scheme r) (netloc r) url params (query r) (fragment r)).

Definition urlunsplit (sch nl url qry frag : str) : str :=
  let url :=
    if nonempty nl
       || (nonempty sch && mem sch uses_netloc && negb (startswith url (u "//")))
    then u "//" ++ nl ++
         (if nonempty url && negb (startswith url (u "/")) then u "/" ++ url
          else url)
    else url in
  let url := if nonempty sch then sch ++ u ":" ++ url else url in
  let url := if nonempty qry then url ++ u "?" ++ qry else url in
  if nonempty frag then url ++ u "#" ++ frag else url.

Definition urlunparse (sch nl url params qry frag : str) : str :=
  let url := if nonempty params then url ++ u ";" ++ params else url in
  urlunsplit sch nl url qry frag.

(** The loop of [urljoin] over the segments; [acc] is [resolved_path],
    last segment first. *)
Fixpoint resolve (segments : list str) (acc : list str) : list str :=
  match segments with
  | [] => acc
  | seg :: rest =>
      if str_eqb seg (u "..") then resolve rest (tl acc)
      else if str_eqb seg (u ".") then resolve rest acc
      else resolve rest (seg :: acc)
  end.

(** [segments[1:-1] = filter(None, segments[1:-1])] *)
Definition drop_inner_empty (segments : list str) : list str :=
  match segments with
  | [] => []
  | [a] => [a]
  | a :: rest =>
      a :: filter nonempty (removelast rest) ++ [last rest []]
  end.

Definition urljoin (base url : str) : result str :=
  if negb (nonempty base) then Ok url
  else if negb (nonempty url) then Ok base
  else
    b <- urlparse base [] ;;
    r <- urlparse url (p_scheme b) ;;
    let sch := p_scheme r in
    if negb (str_eqb sch (p_scheme b)) || negb (mem sch uses_relative)
    then Ok url
    else if mem sch uses_netloc && nonempty (p_netloc r)
    then Ok (urlunparse sch (p_netloc r) (p_path r) (p_params r)
                        (p_query r) (p_fragment r))
    else
      let nl := if mem sch uses_netloc then p_netloc b else p_netloc r in
      if negb (nonempty (p_path r)) && negb (nonempty (p_params r))
      then Ok (urlunparse sch nl (p_path b) (p_params b)
                 (if nonempty (p_query r) then p_query r else p_query b)
                 (p_fragment r))
      else
        let base_parts := split 0x2F%N (p_path b) in
        let base_parts :=
          if nonempty (last base_parts []) then removelast base_parts
          else base_parts in
        let segments :=
          if startswith (p_path r) (u "/") then split 0x2F%N (p_path r)
          else drop_inner_empty (base_parts ++ split 0x2F%N (p_path r)) in
        let resolved := rev (resolve segments []) in
        let lastseg := last segments [] in
        let resolved :=
          if str_eqb lastseg (u ".") || str_eqb lastseg (u "..")
          then resolved ++ [[]] else resolved in
        let joined := join (u "/") resolved in
        Ok (urlunparse sch nl (if nonempty joined then joined else u "/")
              (p_params r) (p_query r) (p_fragment r)).

End Url.
Import Url.

(* ================================================================= *)
(** ** Parsed documents: the part of bs4 and soupsieve the code uses *)

Module Dom.

#[warnings="-register-all"]
Inductive node : Type :=
| Text (s : str)
| Comment (s : str)
| Elem (name : str) (attrs : list (str * str)) (kids : list node).

(** A tag as the code holds it: the element and its ancestors, the parent
    first.  The root of a document is the [BeautifulSoup] object, an element
    named [[document]] without attributes. *)
Record tag : Type := mkTag { self : node; ancestors : list node }.

Definition soup (kids : list node) : tag :=
  mkTag (Elem (u "[document]") [] kids) [].

Definition name_is (nm : str) (n : node) : bool :=
  match n with
  | Elem nm' _ _ => str_eqb nm' nm
  | _ => false
  end.

Fixpoint lookup (k : str) (l : list (str * str)) : option str :=
  match l with
  | [] => None
  | (k', v) :: r => if str_eqb k' k then Some v else lookup k r
  end.

(** [tag.get(k)] and [tag.get(k, d)] *)
Definition get (n : node) (k : str) : option str :=
  match n with
  | Elem _ attrs _ => lookup k attrs
  | _ => None
  end.

Definition get_or (n : node) (k d : str) : str :=
  match get n k with
  | Some v => v
  | None => d
  end.

(** The runs of non-space characters of a text: the values of a [class]
    attribute. *)
Fixpoint words_from (cur : str) (s : str) : list str :=
  match s with
  | [] => match cur with [] => [] | _ => [rev cur] end
  | c :: r =>
      if isspace c
      then match cur with [] => words_from [] r | _ => rev cur :: words_from [] r end
      else words_from (c :: cur) r
  end.

Definition words (s : str) : list str := words_from [] s.

(** [tag.get("class", [])] *)
Definition classes (n : node) : list str :=
  match get n (u "class") with
  | Some v => words v
  | None => []
  end.

(** The tags whose strings the tree builder of bs4 keeps apart, in a class
    of their own each ([HTMLTreeBuilder.DEFAULT_STRING_CONTAINERS]). *)
Definition string_containers : list str :=
  [u "rt"; u "rp"; u "style"; u "script"; u "template"].

(** The container that the strings right below [n] are in, [outer] being
    the one that [n] is in: the innermost tag of [string_containers] that
    is open when the string is read. *)
Definition container (outer : option str) (n : node) : option str :=
  match n with
  | Elem nm _ _ => if mem nm string_containers then Some nm else outer
  | _ => outer
  end.

(** The container a node with the ancestors [anc] is in. *)
Fixpoint context (anc : list node) : option str :=
  match anc with
  | [] => None
  | a :: r =>
      match container None a with
      | Some c => Some c
      | None => context r
      end
  end.

Definition same_container (a b : option str) : bool :=
  match a, b with
  | None, None => true
  | Some x, Some y => str_eqb x y
  | _, _ => false
  end.

(** The strings of the class [wanted] at and below a node that is in the
    container [inside], in document order; comments are not text. *)
Fixpoint strings_of (wanted inside : option str) (n : node) : list str :=
  match n with
  | Text s => if same_container inside wanted then [s] else []
  | Comment _ => []
  | Elem _ _ kids => flat_map (strings_of wanted (container inside n)) kids
  end.

(** The strings that [get_text] joins ([tag._all_strings]): those of the
    class that the tag is interested in, which is the class of its own
    strings for a tag of [string_containers] and the plain class for every
    other tag.  The text of a script or a style sheet is no text of the
    tags around it. *)
Definition strings (t : tag) : list str :=
  strings_of (container None (self t)) (context (ancestors t)) (self t).

(** [tag.get_text()], [tag.get_text(strip=True)], [tag.get_text(sep, strip=True)] *)
Definition get_text (t : tag) : str := concat (strings t).

Definition stripped_strings (t : tag) : list str :=
  filter Url.nonempty (map strip (strings t)).

Definition get_text_strip (t : tag) : str := concat (stripped_strings t).

Definition get_text_sep_strip (sep : str) (t : tag) : str :=
  join sep (stripped_strings t).

(** The tags below a node in document order, each with its ancestors. *)
Fixpoint descendants (anc : list node) (n : node) : list tag :=
  match n with
  | Elem _ _ kids =>
      flat_map (fun k =>
                  match k with
                  | Elem _ _ _ => mkTag k (n :: anc) :: descendants (n :: anc) k
                  | _ => []
                  end) kids
  | _ => []
  end.

Definition tags_below (t : tag) : list tag := descendants (ancestors t) (self t).

(** [tag.find_all(name)] and [tag.find_all(name, limit=k)] *)
Definition find_all (nm : str) (t : tag) : list tag :=
  filter (fun d => name_is nm (self d)) (tags_below t).

Definition find_all_limit (nm : str) (k : nat) (t : tag) : list tag :=
  firstn k (find_all nm t).

(** *** CSS selectors

    The selectors of the code are compound selectors joined by the
    descendant combinator.  A compound selector tests the tag name, the id,
    classes and attributes. *)

Inductive attr_test : Type :=
| AttrEq (a v : str)          (* [a='v'] *)
| AttrContains (a v : str).   (* [a*='v'] *)

Record compound : Type := mkCompound {
  c_tag : option str;
  c_id : option str;
  c_classes : list str;
  c_attrs : list attr_test }.

Definition selector := list compound.

Definition attr_ok (n : node) (t : attr_test) : bool :=
  match t with
  | AttrEq a v => match get n a with Some w => str_eqb w v | None => false end
  | AttrContains a v =>
      match get n a with
      | Some w => Url.nonempty v && contains w v
      | None => false
      end
  end.

Definition matches_compound (c : compound) (n : node) : bool :=
  match n with
  | Elem nm _ _ =>
      match c_tag c with Some t => str_eqb nm t | None => true end
      && match c_id c with
         | Some i => match get n (u "id") with Some v => str_eqb v i | None => false end
         | None => true
         end
      && forallb (fun cl => mem cl (classes n)) (c_classes c)
      && forallb (attr_ok n) (c_attrs c)
  | _ => false
  end.

(** The compounds left of the subject, innermost first, against the
    ancestors, parent first. *)
Fixpoint ancestors_match (cs : list compound) (anc : list node) : bool :=
  match cs with
  | [] => true
  | c :: cs' =>
      (fix up (anc : list node) : bool :=
         match anc with
         | [] => false
         | a :: anc' =>
             (matches_compound c a && ancestors_match cs' anc') || up anc'
         end) anc
  end.

Definition matches (sel : selector) (t : tag) : bool :=
  match rev sel with
  | [] => false
  | c :: cs => matches_compound c (self t) && ancestors_match cs (ancestors t)
  end.

(** [tag.select(sel)] and [tag.select_one(sel)] *)
Definition select (sel : selector) (t : tag) : list tag :=
  filter (matches sel) (tags_below t).

Definition select_one (sel : selector) (t : tag) : option tag :=
  hd_error (select sel t).

(** [a or b] on two optional tags *)
Definition or_else {A} (a b : option A) : option A :=
  match a with Some _ => a | None => b end.

(** [tag.find_parent(name)] and [tag.find_parent(name, class_=cl)] *)
Fixpoint first_ancestor (f : node -> bool) (anc : list node) : option tag :=
  match anc with
  | [] => None
  | a :: r => if f a then Some (mkTag a r) else first_ancestor f r
  end.

Definition find_parent (nm : str) (t : tag) : option tag :=
  first_ancestor (name_is nm) (ancestors t).

Definition find_parent_class (nm cl : str) (t : tag) : option tag :=
  first_ancestor (fun a => name_is nm a && mem cl (classes a)) (ancestors t).

(** Shorthands for compound selectors: [El "td"] is [td], [ElC "td" "hit"] is
    [td.hit], [Cls "title"] is [.title], [Id "cnts"] is [#cnts], and so on. *)
Definition El (t : string) : compound := mkCompound (Some (u t)) None [] [].
Definition Cls (c : string) : compound := mkCompound None None [u c] [].
Definition Cls2 (c1 c2 : string) : compound := mkCompound None None [u c1; u c2] [].
Definition Id (i : string) : compound := mkCompound None (Some (u i)) [] [].
Definition ElC (t c : string) : compound := mkCompound (Some (u t)) None [u c] [].
Definition ElC2 (t c1 c2 : string) : compound :=
  mkCompound (Some (u t)) None [u c1; u c2] [].
Definition ElId (t i : string) : compound := mkCompound (Some (u t)) (Some (u i)) [] [].
Definition ElA (t : string) (a : attr_test) : compound :=
  mkCompound (Some (u t)) None [] [a].
Definition ElCA (t c : string) (a : attr_test) : compound :=
  mkCompound (Some (u t)) None [u c] [a].
Definition href_has (v : string) : attr_test := AttrContains (u "href") (u v).

End Dom.
Import Dom.

(* ================================================================= *)
(** ** [core/crawler/main.py] *)

Module Crawler.

Record Post : Type := mkPost {
  site : str;
  title : str;
  url : str;
  author : option str;
  timestamp : option str;
  views : option Z;
  likes : option Z;
  comments : option Z;
  collected_at : option str;
  thumbnail : option str }.

Definition _LAZY_ATTRS : list str :=
  [u "data-src"; u "data-original"; u "data-lazy-src"; u "data-lazy"].

Definition _THUMB_EXCLUDE_PATTERNS : list str :=
  [u "profile"; u "avatar"; u "icon"; u "logo"; u "emoticon"; u "emot";
   u "placeholder"; u "blank"; u "spacer"; u "noimg"; u "no_img";
   u "/img/new_icon"; u "/img/renewal"; u "/img/rank/"; u "/renew/images/";
   u "/newimg/";
   u "/board/level/"; u "/level/";
   u "num01"; u "num02"; u "num03"; u "num04"; u "num05";
   u "num06"; u "num07"; u "num08"; u "num09"; u "num10";
   u ".svg"].

(** The inner loop over the lazy-load attributes: the first attribute whose
    value is non-empty and starts with one of [prefixes]. *)
Fixpoint lazy_src (prefixes : list str) (attrs : list str) (img : node)
  : option str :=
  match attrs with
  | [] => None
  | a :: rest =>
      match get img a with
      | Some val =>
          if Url.nonempty val && startswith_any val prefixes then Some val
          else lazy_src prefixes rest img
      | None => lazy_src prefixes rest img
      end
  end.

(** [v and str(v).isdigit() and int(v) < limit] *)
Definition declared_below (limit : Z) (v : str) : result bool :=
  if Url.nonempty v && str_isdigit v
  then n <- int_of_digits v ;; Ok (n <? limit)%Z
  else Ok false.

(** The candidate an [img] offers: a lazy-load value if there is one, the
    [src] otherwise. *)
Definition candidate_src (prefixes : list str) (lazy : list str) (img : node)
  : str :=
  match lazy_src prefixes lazy img with
  | Some v => v
  | None => get_or img (u "src") []
  end.

Fixpoint thumbnail_loop (base_url : str) (imgs : list tag)
  : result (option str) :=
  match imgs with
  | [] => Ok None
  | img :: rest =>
      let src := candidate_src [u "http"; u "/"] _LAZY_ATTRS (self img) in
      if negb (Url.nonempty src) || startswith src (u "data:")
      then thumbnail_loop base_url rest
      else if contains_any (lower src) _THUMB_EXCLUDE_PATTERNS
      then thumbnail_loop base_url rest
      else
        narrow <- declared_below 30 (get_or (self img) (u "width") []) ;;
        if narrow then thumbnail_loop base_url rest
        else
          low <- declared_below 30 (get_or (self img) (u "height") []) ;;
          if low then thumbnail_loop base_url rest
          else if negb (startswith src (u "http"))
          then r <- urljoin base_url src ;; Ok (Some r)
          else Ok (Some src)
  end.

(** [_extract_thumbnail(element, base_url)] *)
Definition _extract_thumbnail (element : option tag) (base_url : str)
  : result (option str) :=
  match element with
  | None => Ok None
  | Some e => thumbnail_loop base_url (find_all_limit (u "img") 5 e)
  end.

(** [_to_int_safe(text)] *)
Definition _to_int_safe (text : option str) : result (option Z) :=
  match text with
  | None => Ok None
  | Some [] => Ok None
  | Some text =>
      let text := strip (remove_char 0x2C%N text) in
      match search_digits text with
      | Some ds => n <- int_of_digits ds ;; Ok (Some n)
      | None => Ok None
      end
  end.

(** *** [_decode_html] *)

Inductive errors : Type := Replace | Ignore.

Section Decode.

(** The codecs: [content.decode(enc, errors="strict")], which raises on an
    unknown codec name and on undecodable bytes, and the decoding with
    [errors="replace"] or ["ignore"] by a codec that exists. *)
Variable decode_strict : str -> list N -> result str.
Variable decode_lossy : str -> errors -> list N -> str.

(** The first loop: [for enc in (...): try: return decode ... except: continue] *)
Fixpoint first_decoding (encs : list str) (content : list N) : option str :=
  match encs with
  | [] => None
  | enc :: rest =>
      if negb (Url.nonempty enc) then first_decoding rest content
      else match decode_strict enc content with
           | Ok s => Some s
           | Raise _ => first_decoding rest content
           end
  end.

(** The second loop, with its list [tried]. *)
Fixpoint first_untried_decoding (encs : list (option str)) (tried : list str)
         (content : list N) : option str :=
  match encs with
  | [] => None
  | None :: rest => first_untried_decoding rest tried content
  | Some enc :: rest =>
      if negb (Url.nonempty enc) || mem enc tried
      then first_untried_decoding rest tried content
      else match decode_strict enc content with
           | Ok s => Some s
           | Raise _ => first_untried_decoding rest (tried ++ [enc]) content
           end
  end.

Definition _decode_html (url : str) (content : list N)
           (declared_encoding : option str) : result str :=
  p <- urlparse url [] ;;
  let host := p_netloc p in
  if contains host (u "humoruniv.com") || contains host (u "mlbpark.donga.com")
  then
    if contains host (u "mlbpark.donga.com")
    then Ok (decode_lossy (u "utf-8") Replace content)
    else
      match first_decoding
              [u "cp949"; u "euc-kr"; u "utf-8";
               match declared_encoding with Some e => e | None => [] end]
              content with
      | Some s => Ok s
      | None => Ok (decode_lossy (u "cp949") Ignore content)
      end
  else
    match first_untried_decoding
            [declared_encoding; Some (u "utf-8"); Some (u "cp949");
             Some (u "euc-kr"); Some (u "latin-1")] [] content with
    | Some s => Ok s
    | None => Ok (decode_lossy (u "utf-8") Ignore content)
    end.

End Decode.

(** [_abs(url, base)] *)
Definition _abs (url base : str) : result str :=
  if startswith url (u "http") then Ok url
  else if contains base (u "humoruniv.com") && startswith url (u "read.html")
  then urljoin (u "https://web.humoruniv.com/board/humor/") url
  else urljoin base url.

(** *** [dedupe_posts] *)

(** [f"{label}_{match.group(1)}"] if [pattern(\d+)] is found, else the url *)
Definition keyed (label pattern : string) (url : str) : str :=
  match search_lit_digits (u pattern) url with
  | Some id => u label ++ u "_" ++ id
  | None => url
  end.

(** The value of [url_key] at the end of the loop body. *)
Definition dedupe_key (url : str) : str :=
  if contains url (u "number=") then keyed "humoruniv" "number=" url
  else if contains url (u "document_srl=") then keyed "fmkorea" "document_srl=" url
  else if contains url (u "read/") then keyed "ruliweb" "read/" url
  else if contains url (u "wr_id=") then keyed "etoland" "wr_id=" url
  else if contains url (u "board/webzine/2097/") then keyed "inven" "2097/" url
  else if contains url (u "No=") then keyed "bobaedream" "No=" url
  else if contains url (u "view.php") && contains url (u "no=")
  then keyed "ppomppu" "no=" url
  else url.

Fixpoint dedupe_from (seen : list str) (posts : list Post) : list Post :=
  match posts with
  | [] => []
  | p :: rest =>
      let url_key := dedupe_key (url p) in
      if mem url_key seen then dedupe_from seen rest
      else p :: dedupe_from (url_key :: seen) rest
  end.

Definition dedupe_posts (posts : list Post) : list Post := dedupe_from [] posts.

(** *** The adapters

    Every [parse_x(base_url, html)] starts with [BeautifulSoup(html, "lxml")];
    here it takes the resulting document.  The body of each loop is a
    function from the row to the post it appends, if any. *)

(** [for row in rows: ... posts.append(...)] *)
Fixpoint collect {A} (body : A -> result (option Post)) (rows : list A)
  : result (list Post) :=
  match rows with
  | [] => Ok []
  | r :: rest =>
      o <- body r ;;
      ps <- collect body rest ;;
      Ok (match o with Some p => p :: ps | None => ps end)
  end.

Definition text (t : tag) : str := get_text_strip t.
Definition href_of (t : tag) : str := get_or (self t) (u "href") [].
Definition too_short (n : nat) (s : str) : bool := (length s <? n)%nat.
Definition empty (s : str) : bool := negb (Url.nonempty s).

(** [_to_int_safe(el.get_text(strip=True)) if el else None] *)
Definition count_in (el : option tag) : result (option Z) :=
  _to_int_safe (option_map text el).

(** [_to_int_safe(el and el.get_text())] *)
Definition count_in_raw (el : option tag) : result (option Z) :=
  _to_int_safe (option_map get_text el).

Definition brackets : str := u "[]".

Definition parse_fmkorea_row (tr : tag) : result (option Post) :=
  if mem (u "notice") (classes (self tr)) then Ok None
  else match select_one [ElC "a" "hx"] tr with
  | None => Ok None
  | Some title_link =>
      let title := text title_link in
      let href := href_of title_link in
      if empty title || empty href || too_short 3 title then Ok None
      else
        url <- _abs href (u "https://www.fmkorea.com/") ;;
        let tds := select [El "td"] tr in
        if (length tds <? 5)%nat then Ok None
        else
          let author := option_map text (nth_error tds 2) in
          let timestamp := option_map text (nth_error tds 3) in
          views <- count_in (nth_error tds 4) ;;
          likes <- count_in (nth_error tds 5) ;;
          comments <- count_in (select_one [ElC "a" "replyNum"] tr) ;;
          thumbnail <- _extract_thumbnail (Some tr) (u "https://www.fmkorea.com/") ;;
          Ok (Some (mkPost (u "fmkorea") title url author timestamp views likes
                      comments None thumbnail))
  end.

Definition parse_fmkorea (base_url : str) (doc : tag) : result (list Post) :=
  match select_one [ElC "table" "bd_lst"] doc with
  | None => Ok []
  | Some table =>
      posts <- collect parse_fmkorea_row (select [El "tbody"; El "tr"] table) ;;
      Ok (dedupe_posts posts)
  end.

(** [re.sub(r'\[\d+\].*$', '', title)]: the leftmost [[digits]] whose line
    runs to the end of the text (or to its final newline) is cut off with
    the rest of that line. *)
Fixpoint cut_reply_suffix (s : str) : str :=
  match s with
  | [] => []
  | c :: r =>
      let ds := takewhile isdecimal r in
      let after := skipn (length ds) r in
      let tail := dropwhile (fun x => negb (x =? 0x0A)%N) (tl after) in
      if (c =? 0x5B)%N && Url.nonempty ds && startswith after (u "]")
         && (empty tail || str_eqb tail [0x0A%N])
      then tail
      else c :: cut_reply_suffix r
  end.

Definition parse_humoruniv_row (tr : tag) : result (option Post) :=
  match select_one [ElC "td" "li_sbj"; ElA "a" (href_has "read.html")] tr with
  | None => Ok None
  | Some link =>
      let title := text link in
      let href := href_of link in
      if empty title || empty href || too_short 3 title then Ok None
      else
        let title := strip (cut_reply_suffix title) in
        if too_short 3 title then Ok None
        else
          url <- _abs href (u "https://web.humoruniv.com/board/humor/") ;;
          let und_cells := select [ElC "td" "li_und"] tr in
          views <- count_in (nth_error und_cells 0) ;;
          likes <- count_in (nth_error und_cells 1) ;;
          comments <- count_in (nth_error und_cells 2) ;;
          thumbnail <- _extract_thumbnail (Some tr) (u "https://web.humoruniv.com/") ;;
          Ok (Some (mkPost (u "humoruniv") title url None None views likes
                      comments None thumbnail))
  end.

Definition parse_humoruniv (base_url : str) (doc : tag) : result (list Post) :=
  posts <- collect parse_humoruniv_row (select [El "tr"] doc) ;;
  Ok (dedupe_posts posts).

Definition parse_ruliweb_row (tr : tag) : result (option Post) :=
  if mem (u "notice") (classes (self tr)) then Ok None
  else match select_one [ElC "td" "subject"; ElC "a" "subject_link"] tr with
  | None => Ok None
  | Some title_link =>
      let title := text title_link in
      let href := href_of title_link in
      if empty title || empty href || too_short 5 title then Ok None
      else
        url <- _abs href (u "https://bbs.ruliweb.com/") ;;
        views <- count_in (select_one [ElC "td" "hit"] tr) ;;
        likes <- count_in (select_one [ElC "td" "recomd"] tr) ;;
        comments <-
          _to_int_safe (option_map (fun t => strip_chars brackets (text t))
                          (select_one [ElC "span" "num_reply"] tr)) ;;
        let author := option_map text (select_one [ElC "td" "writer"] tr) in
        let timestamp := option_map text (select_one [ElC "td" "time"] tr) in
        thumbnail <- _extract_thumbnail (Some tr) (u "https://bbs.ruliweb.com/") ;;
        Ok (Some (mkPost (u "ruliweb") title url author timestamp views likes
                    comments None thumbnail))
  end.

Definition parse_ruliweb (base_url : str) (doc : tag) : result (list Post) :=
  posts <- collect parse_ruliweb_row
             (select [ElC "table" "board_list_table"; ElC "tr" "table_body"] doc) ;;
  Ok (dedupe_posts posts).

Definition parse_etoland_row (li : tag) : result (option Post) :=
  if mem (u "ad_list") (classes (self li)) then Ok None
  else match or_else (select_one [ElC "div" "subject"; ElC "a" "subject_a"] li)
                     (select_one [ElA "a" (href_has "etohumor07&wr_id=")] li) with
  | None => Ok None
  | Some title_link =>
      let href := href_of title_link in
      if contains href (u "#commentContents") then Ok None
      else
        let title := text title_link in
        (* re.sub(r'^\d+', '', title).strip() *)
        let title := strip (dropwhile isdecimal title) in
        if empty title || too_short 5 title then Ok None
        else
          url <- _abs href (u "https://www.etoland.co.kr/") ;;
          views <- count_in (select_one [ElC "div" "views"] li) ;;
          likes <- count_in (select_one [ElC "div" "sympathys"] li) ;;
          comments <-
            count_in (or_else (select_one [ElC "a" "comment_count"; El "b"] li)
                              (select_one [ElC "span" "comment_count"; El "b"] li)) ;;
          let author :=
            option_map text (select_one [ElC "div" "writer"; ElC "span" "member"] li) in
          let timestamp := option_map text (select_one [ElC "div" "datetime"] li) in
          thumbnail <- _extract_thumbnail (Some li) (u "https://www.etoland.co.kr/") ;;
          Ok (Some (mkPost (u "etoland") title url author timestamp views likes
                      comments None thumbnail))
  end.

Definition parse_etoland (base_url : str) (doc : tag) : result (list Post) :=
  match or_else (select_one [Id "fboardlist"] doc)
                (select_one [Cls "board_list_wrap"] doc) with
  | None => Ok []
  | Some board =>
      posts <- collect parse_etoland_row (select [ElC "li" "list"] board) ;;
      Ok (dedupe_posts posts)
  end.

(** [re.sub(r'^\[유머\]\s*', '', title)] *)
Definition cut_humor_tag (title : str) : str :=
  if startswith title (u "[유머]")
  then dropwhile isspace (skipn (length (u "[유머]")) title)
  else title.

Definition below (limit : Z) (v : option Z) : bool :=
  match v with
  | None => true
  | Some n => (n <? limit)%Z
  end.

Definition parse_inven_row (title_link : tag) : result (option Post) :=
  let title := text title_link in
  let href := href_of title_link in
  if empty title || empty href || too_short 5 title then Ok None
  else if match select_one [ElC "span" "category"] title_link with
          | Some category_span => contains (get_text category_span) (u "[기타]")
          | None => false
          end
  then Ok None
  else
    let title := strip (cut_humor_tag title) in
    url <- _abs href (u "https://www.inven.co.kr/") ;;
    let parent_tr := find_parent (u "tr") title_link in
    let within sel := match parent_tr with
                      | Some tr => select_one sel tr
                      | None => None
                      end in
    views <-
      _to_int_safe (option_map (fun t => remove_char 0x2C%N (text t))
                      (within [ElC "td" "view"])) ;;
    likes <-
      _to_int_safe (option_map (fun t => remove_char 0x2C%N (text t))
                      (within [ElC "td" "reco"])) ;;
    comments <-
      _to_int_safe (option_map (fun t => strip_chars brackets (text t))
                      (within [Cls "con-comment"])) ;;
    let author :=
      match within [ElC "td" "user"] with
      | Some user_td => option_map text (select_one [ElC "span" "layerNickName"] user_td)
      | None => None
      end in
    if match author with
       | Some a => Url.nonempty a && contains a (u "인벤운영팀")
       | None => false
       end
    then Ok None
    else if below 3000 views then Ok None
    else
      thumbnail <- match parent_tr with
                   | Some tr => _extract_thumbnail (Some tr) (u "https://www.inven.co.kr/")
                   | None => Ok None
                   end ;;
      Ok (Some (mkPost (u "inven") title url author None views likes comments
                  None thumbnail)).

Definition parse_inven (base_url : str) (doc : tag) : result (list Post) :=
  posts <- collect parse_inven_row
             (select [ElCA "a" "subject-link" (href_has "board/webzine/2097")] doc) ;;
  Ok (dedupe_posts posts).

(** [el and el.get("datetime")] *)
Definition datetime_of (el : option tag) : option str :=
  match el with
  | Some t => get (self t) (u "datetime")
  | None => None
  end.

Definition parse_dcinside_row (article : tag) : result (option Post) :=
  match select_one [ElA "a" (href_has "gall.dcinside.com")] article with
  | None => Ok None
  | Some title_link =>
      let title := text title_link in
      let href := href_of title_link in
      if empty title || empty href || too_short 5 title then Ok None
      else
        url <- _abs href (u "https://gall.dcinside.com/") ;;
        views <- count_in_raw (select_one [Cls "count"] article) ;;
        likes <- count_in_raw (select_one [Cls "recomm"] article) ;;
        comments <- count_in_raw (select_one [Cls "reply"] article) ;;
        let author := option_map text (select_one [Cls "writer"] article) in
        let timestamp := datetime_of (select_one [El "time"] article) in
        thumbnail <- _extract_thumbnail (Some article) (u "https://gall.dcinside.com/") ;;
        Ok (Some (mkPost (u "dcinside") title url author timestamp views likes
                    comments None thumbnail))
  end.

Definition parse_dcinside (base_url : str) (doc : tag) : result (list Post) :=
  posts <- collect parse_dcinside_row (select [Cls "ub-content"] doc) ;;
  Ok (dedupe_posts posts).

Definition parse_clien_row (item : tag) : result (option Post) :=
  match select_one [ElC "a" "list_subject"] item with
  | None => Ok None
  | Some title_link =>
      let title := text title_link in
      let href := href_of title_link in
      if empty title || empty href || too_short 5 title then Ok None
      else
        url <- _abs href (u "https://www.clien.net/") ;;
        views <- count_in (select_one [ElC "div" "list_hit"; ElC "span" "hit"] item) ;;
        likes <-
          count_in_raw (select_one [Cls2 "list_symph" "view_symph"; El "span"] item) ;;
        comments <- count_in_raw (select_one [Cls "rSymph05"] item) ;;
        let author := option_map text (select_one [Cls "nickname"; El "span"] item) in
        thumbnail <- _extract_thumbnail (Some item) (u "https://www.clien.net/") ;;
        Ok (Some (mkPost (u "clien") title url author None views likes comments
                    None thumbnail))
  end.

Definition parse_clien (base_url : str) (doc : tag) : result (list Post) :=
  posts <- collect parse_clien_row (select [Cls2 "list_item" "symph_row"] doc) ;;
  Ok (dedupe_posts posts).

(** [parse_dogdrip] and [parse_theqoo] differ in the site name, the link
    pattern and the base only. *)
Definition parse_list_item_row (site_name : string) (link : string) (base : string)
           (item : tag) : result (option Post) :=
  match select_one [ElA "a" (href_has link)] item with
  | None => Ok None
  | Some title_link =>
      let title := text title_link in
      let href := href_of title_link in
      if empty title || empty href || too_short 5 title then Ok None
      else
        url <- _abs href (u base) ;;
        views <- count_in_raw (select_one [Cls "count"] item) ;;
        likes <- count_in_raw (select_one [Cls "vote"] item) ;;
        comments <- count_in_raw (select_one [Cls "reply"] item) ;;
        let author := option_map text (select_one [Cls "author"] item) in
        let timestamp := datetime_of (select_one [El "time"] item) in
        thumbnail <- _extract_thumbnail (Some item) (u base) ;;
        Ok (Some (mkPost (u site_name) title url author timestamp views likes
                    comments None thumbnail))
  end.

Definition parse_dogdrip (base_url : str) (doc : tag) : result (list Post) :=
  posts <- collect (parse_list_item_row "dogdrip" "dogdrip.net" "https://www.dogdrip.net/")
             (select [Cls "list_item"] doc) ;;
  Ok (dedupe_posts posts).

Definition parse_theqoo (base_url : str) (doc : tag) : result (list Post) :=
  posts <- collect (parse_list_item_row "theqoo" "theqoo.net" "https://theqoo.net/")
             (select [Cls "list_item"] doc) ;;
  Ok (dedupe_posts posts).

Definition parse_mlbpark_row (title_elem : tag) : result (option Post) :=
  let title := text title_elem in
  let href := href_of title_elem in
  if empty title || empty href || too_short 5 title then Ok None
  else
    url <- _abs href (u "https://mlbpark.donga.com/") ;;
    let parent_tr := find_parent (u "tr") title_elem in
    let within sel := match parent_tr with
                      | Some tr => select_one sel tr
                      | None => None
                      end in
    views <-
      _to_int_safe (option_map (fun t => remove_char 0x2C%N (text t))
                      (within [ElC "span" "viewV"])) ;;
    let author := option_map text (within [ElC "span" "nick"]) in
    comments <-
      _to_int_safe (option_map (fun t => strip_chars brackets (text t))
                      (within [ElC "span" "replycnt"])) ;;
    thumbnail <- match parent_tr with
                 | Some tr => _extract_thumbnail (Some tr) (u "https://mlbpark.donga.com/")
                 | None => Ok None
                 end ;;
    Ok (Some (mkPost (u "mlbpark") title url author None views None comments
                None thumbnail)).

Definition parse_mlbpark (base_url : str) (doc : tag) : result (list Post) :=
  posts <- collect parse_mlbpark_row (select [ElC "div" "tit"; ElC "a" "txt"] doc) ;;
  Ok (dedupe_posts posts).

(** [re.search(r"조회수\s*:?\s*([\d,]+)", txt)], group 1 *)
Fixpoint search_view_count (s : str) : option str :=
  let here :=
    if startswith s (u "조회수") then
      let r := dropwhile isspace (skipn (length (u "조회수")) s) in
      let r := if startswith r (u ":") then tl r else r in
      let r := dropwhile isspace r in
      match takewhile (fun c => isdecimal c || (c =? 0x2C)%N) r with
      | [] => None
      | g => Some g
      end
    else None in
  match here with
  | Some g => Some g
  | None => match s with
            | [] => None
            | _ :: r => search_view_count r
            end
  end.

(** [re.search(r"(\d+)\s*개의\s*댓글", txt)], group 1 *)
Fixpoint search_comment_count (s : str) : option str :=
  let here :=
    match takewhile isdecimal s with
    | [] => None
    | ds =>
        let r := dropwhile isspace (skipn (length ds) s) in
        if startswith r (u "개의")
           && startswith (dropwhile isspace (skipn (length (u "개의")) r)) (u "댓글")
        then Some ds else None
    end in
  match here with
  | Some g => Some g
  | None => match s with
            | [] => None
            | _ :: r => search_comment_count r
            end
  end.

Definition parse_82cook_row (title_elem : tag) : result (option Post) :=
  let title := text title_elem in
  let href := href_of title_elem in
  if empty title || empty href || too_short 5 title then Ok None
  else
    url <- _abs href (u "https://www.82cook.com/") ;;
    let parent := or_else (find_parent (u "tr") title_elem)
                          (find_parent (u "li") title_elem) in
    let txt := option_map (get_text_sep_strip (u " ")) parent in
    views <- match txt with
             | Some txt => _to_int_safe (search_view_count txt)
             | None => Ok None
             end ;;
    comments <- match txt with
                | Some txt => _to_int_safe (search_comment_count txt)
                | None => Ok None
                end ;;
    thumbnail <- match parent with
                 | Some el => _extract_thumbnail (Some el) (u "https://www.82cook.com/")
                 | None => Ok None
                 end ;;
    Ok (Some (mkPost (u "82cook") title url None None views None comments
                None thumbnail)).

Definition parse_82cook (base_url : str) (doc : tag) : result (list Post) :=
  posts <- collect parse_82cook_row (select [Cls "title"; El "a"] doc) ;;
  Ok (dedupe_posts posts).

Definition parse_damoang_row (title_link : tag) : result (option Post) :=
  let title := text title_link in
  let href := href_of title_link in
  if empty title || empty href || too_short 5 title then Ok None
  else
    url <- _abs href (u "https://damoang.net/") ;;
    match find_parent_class (u "div") (u "d-inline-flex") title_link with
    | None => Ok None
    | Some parent_container =>
        if match select_one [ElC "div" "rcmd-box"] parent_container with
           | Some rcmd_box => contains (get_text rcmd_box) (u "홍보")
           | None => false
           end
        then Ok None
        else match select_one [ElA "img" (AttrEq (u "alt") (u "공지"))] parent_container with
        | Some _ => Ok None
        | None =>
            comments <-
              count_in (select_one [ElC2 "span" "count-plus" "orangered"] parent_container) ;;
            match comments with
            | None => Ok None
            | Some n =>
                if (n <? 5)%Z then Ok None
                else
                  thumbnail <- _extract_thumbnail (Some parent_container)
                                 (u "https://damoang.net/") ;;
                  Ok (Some (mkPost (u "damoang") title url None None None None
                              comments None thumbnail))
            end
        end
    end.

Definition parse_damoang (base_url : str) (doc : tag) : result (list Post) :=
  posts <- collect parse_damoang_row
             (select [ElC2 "a" "da-link-block" "da-article-link"] doc) ;;
  Ok (dedupe_posts posts).

Definition parse_ddanzi_row (tr : tag) : result (option Post) :=
  if mem (u "notice") (classes (self tr)) then Ok None
  else if (length (select [El "td"] tr) <? 5)%nat then Ok None
  else match select_one [ElC "td" "title"] tr with
  | None => Ok None
  | Some title_td =>
      match or_else (select_one [ElA "a" (href_has "/free/")] title_td)
                    (select_one [ElA "a" (href_has "mid=free")] title_td) with
      | None => Ok None
      | Some title_link =>
          let title := text title_link in
          let href := href_of title_link in
          if empty title || too_short 5 title then Ok None
          else
            url <- _abs href (u "https://www.ddanzi.com/") ;;
            let vote_td := select_one [ElC "td" "voteNum"] tr in
            let hit_td := or_else (select_one [ElC "td" "readNum"] tr)
                                  (select_one [ElC "td" "hit"] tr) in
            let author_td := select_one [ElC "td" "author"] tr in
            likes <- count_in vote_td ;;
            views <- count_in hit_td ;;
            let author := option_map text author_td in
            thumbnail <- _extract_thumbnail (Some tr) (u "https://www.ddanzi.com/") ;;
            Ok (Some (mkPost (u "ddanzi") title url author None views likes None
                        None thumbnail))
      end
  end.

Definition parse_ddanzi (base_url : str) (doc : tag) : result (list Post) :=
  match select_one [ElC "table" "fz_change"] doc with
  | None => Ok []
  | Some table =>
      posts <- collect parse_ddanzi_row (select [El "tr"] table) ;;
      Ok (dedupe_posts posts)
  end.

Definition parse_bobaedream_row (tr : tag) : result (option Post) :=
  match select_one [ElC "a" "bsubject"] tr with
  | None => Ok None
  | Some title_link =>
      let title := text title_link in
      let href := href_of title_link in
      if empty title || empty href || too_short 5 title then Ok None
      else
        url <- _abs href (u "https://www.bobaedream.co.kr/") ;;
        let recomm_cell := select_one [ElC "td" "recomm"] tr in
        likes <- count_in recomm_cell ;;
        if match recomm_cell with Some _ => below 3 likes | None => false end
        then Ok None
        else
          comments <-
            count_in (select_one [ElC "span" "Comment"; ElC "strong" "totreply"] tr) ;;
          views <- count_in (select_one [ElC "td" "count"] tr) ;;
          let author := option_map text (select_one [ElC "span" "author"] tr) in
          let timestamp := option_map text (select_one [ElC "td" "date"] tr) in
          thumbnail <- _extract_thumbnail (Some tr) (u "https://www.bobaedream.co.kr/") ;;
          Ok (Some (mkPost (u "bobaedream") title url author timestamp views
                      likes comments None thumbnail))
  end.

Definition parse_bobaedream (base_url : str) (doc : tag) : result (list Post) :=
  posts <- collect parse_bobaedream_row
             (select [ElA "tr" (AttrEq (u "itemtype") (u "http://schema.org/Article"))] doc) ;;
  Ok (dedupe_posts posts).

Section Ppomppu.

(** Percent-decoding and percent-encoding of [urllib.parse]:
    [unquote(s, "utf-8", "replace")] and [quote_plus(s)]. *)
Variable unquote : str -> str.
Variable quote_plus : str -> str.

Definition plus_to_space (s : str) : str :=
  map (fun c => if (c =? 0x2B)%N then 0x20%N else c) s.

(** [parse_qsl(qs)] with its defaults: fields without [=] and fields with
    an empty value are dropped. *)
Definition parse_qsl (qs : str) : list (str * str) :=
  flat_map (fun name_value =>
              if Url.has_char 0x3D%N name_value then
                let '(n, v) := partition 0x3D%N name_value in
                if Url.nonempty v
                then [(unquote (plus_to_space n), unquote (plus_to_space v))]
                else []
              else [])
           (split 0x26%N qs).

(** The dictionary of [parse_qs], in insertion order. *)
Fixpoint add_field (k v : str) (d : list (str * list str))
  : list (str * list str) :=
  match d with
  | [] => [(k, [v])]
  | (k', vs) :: r =>
      if str_eqb k' k then (k', vs ++ [v]) :: r
      else (k', vs) :: add_field k v r
  end.

Definition parse_qs (qs : str) : list (str * list str) :=
  fold_left (fun d kv => add_field (fst kv) (snd kv) d) (parse_qsl qs) [].

(** [urlencode(params, doseq=True)] *)
Definition urlencode (params : list (str * list str)) : str :=
  join (u "&")
       (flat_map (fun kv => map (fun v => quote_plus (fst kv) ++ u "=" ++ quote_plus v)
                                (snd kv)) params).

(** The url without the parameters other than [id] and [no]. *)
Definition canonical_url (url : str) : result str :=
  parsed <- urlparse url [] ;;
  let params :=
    filter (fun kv => mem (fst kv) [u "id"; u "no"]) (parse_qs (p_query parsed)) in
  Ok (urlunparse (p_scheme parsed) (p_netloc parsed) (p_path parsed)
        (p_params parsed) (urlencode params) (p_fragment parsed)).

Definition parse_ppomppu_row (base_url : str) (link : tag) : result (option Post) :=
  let title := text link in
  let href := href_of link in
  if empty title || empty href || too_short 5 title then Ok None
  else if negb (contains href (u "view.php?id=freeboard")) then Ok None
  else
    url <- _abs href base_url ;;
    url <- canonical_url url ;;
    let parent_tr := find_parent (u "tr") link in
    let within sel := match parent_tr with
                      | Some tr => select_one sel tr
                      | None => None
                      end in
    views <- count_in (within [ElC "td" "baseList-views"]) ;;
    let author := option_map text (within [ElC "td" "baseList-name"; El "span"]) in
    let timestamp := option_map text (within [ElC "time" "baseList-time"]) in
    thumbnail <- match parent_tr with
                 | Some tr => _extract_thumbnail (Some tr) base_url
                 | None => Ok None
                 end ;;
    Ok (Some (mkPost (u "ppomppu") title url author timestamp views None None
                None thumbnail)).

Definition parse_ppomppu (base_url : str) (doc : tag) : result (list Post) :=
  posts <- collect (parse_ppomppu_row base_url) (select [ElC "a" "baseList-title"] doc) ;;
  Ok (dedupe_posts posts).

End Ppomppu.

(** [re.search(r'\[(\d+)\]\s*$', s)], group 1 *)
Fixpoint search_trailing_count (s : str) : option str :=
  match s with
  | [] => None
  | c :: r =>
      let ds := takewhile isdecimal r in
      let after := skipn (length ds) r in
      if (c =? 0x5B)%N && Url.nonempty ds && startswith after (u "]")
         && forallb isspace (tl after)
      then Some ds
      else search_trailing_count r
  end.

Definition parse_slrclub_row (tr : tag) : result (option Post) :=
  match select_one [ElC "td" "list_notice"] tr with
  | Some _ => Ok None
  | None =>
      match select_one [ElC "td" "list_num"] tr with
      | None => Ok None
      | Some num_td =>
          match select_one [ElC "td" "sbj"] tr with
          | None => Ok None
          | Some sbj_td =>
              match select_one [ElA "a" (href_has "id=free")] sbj_td with
              | None => Ok None
              | Some title_link =>
                  let title := text title_link in
                  let href := href_of title_link in
                  if empty title || empty href || too_short 3 title then Ok None
                  else
                    url <- _abs href (u "https://www.slrclub.com/") ;;
                    comments <- match search_trailing_count (text sbj_td) with
                                | Some ds => n <- int_of_digits ds ;; Ok (Some n)
                                | None => Ok None
                                end ;;
                    let author := option_map text (select_one [ElC "td" "list_name"] tr) in
                    let timestamp := option_map text (select_one [ElC "td" "list_date"] tr) in
                    likes <- count_in (select_one [ElC "td" "list_vote"] tr) ;;
                    views <- count_in (select_one [ElC "td" "list_click"] tr) ;;
                    thumbnail <- _extract_thumbnail (Some tr) (u "https://www.slrclub.com/") ;;
                    Ok (Some (mkPost (u "slrclub") title url author timestamp views
                                likes comments None thumbnail))
              end
          end
      end
  end.

Definition parse_slrclub (base_url : str) (doc : tag) : result (list Post) :=
  match select_one [El "table"] doc with
  | None => Ok []
  | Some table =>
      posts <- collect parse_slrclub_row (select [El "tr"] table) ;;
      Ok (dedupe_posts posts)
  end.

(** *** Thumbnail of a detail page *)

Definition _CONTENT_SELECTORS : list (str * list selector) :=
  [(u "humoruniv", [[Id "cnts"]; [Id "wrap_img"]]);
   (u "ruliweb", [[ElC "div" "view_content"]; [ElC "div" "board_main_view"]]);
   (u "etoland", [[ElId "div" "view_content"]; [ElC "td" "mw_basic_view_content"]]);
   (u "inven", [[ElId "div" "powerbbsContent"]; [ElC "div" "contentBody"]]);
   (u "clien", [[ElC "div" "post_article"]; [ElC "div" "post_view"]]);
   (u "mlbpark", [[ElId "div" "contentDetail"]; [ElC "div" "ar_txt"]]);
   (u "ddanzi", [[ElC "div" "xe_content"]; [ElC "div" "read_content"]]);
   (u "bobaedream", [[ElC "div" "bodyCont"]; [ElC "div" "content02"]]);
   (u "ppomppu", [[ElC "td" "board-contents"]]);
   (u "fmkorea", [[ElC "div" "xe_content"]; [El "article"]]);
   (u "dcinside", [[ElC "div" "write_div"]; [ElC "div" "writing_view_box"]]);
   (u "damoang", [[ElC "div" "fr-view"]; [ElC "div" "view_content"]]);
   (u "dogdrip", [[ElC "div" "xe_content"]]);
   (u "theqoo", [[ElC "div" "xe_content"]]);
   (u "82cook", [[ElC "div" "view_content"]; [ElC "div" "post_content"]]);
   (u "slrclub", [[ElId "div" "userct"]])].

Fixpoint selectors_of (table : list (str * list selector)) (site_name : str)
  : option (list selector) :=
  match table with
  | [] => None
  | (k, v) :: r => if str_eqb k site_name then Some v else selectors_of r site_name
  end.

Definition _OG_DEFAULT_PATTERNS : list str :=
  [u "headtitle"; u "default"; u "og_default"; u "og-default";
   u "common/"; u "share_img"; u "share_icon"; u "logo"; u "favicon";
   u "no_image"; u "noimage"; u "no-image"].

Definition _is_valid_og_image (url : str) : bool :=
  if empty url then false
  else
    let url_lower := lower url in
    if contains_any url_lower _OG_DEFAULT_PATTERNS then false
    else if contains url_lower (u "resize.php") && endswith (rstrip url_lower) (u "src=")
    then false
    else true.

(** The image patterns of the detail page. *)
Definition _CONTENT_EXCLUDE_PATTERNS : list str :=
  [u "loading"; u "placeholder"; u "blank"; u "spacer"; u "pixel";
   u "noimg"; u "no_img"; u "no_image"; u "no-image";
   u "icon"; u "logo"; u "emoticon"; u "emot";
   u "/newimg/"; u "/renew/images/"; u "/btn_"; u "btn_";
   u "/board/level/"; u "/level/"; u "/img/rank/";
   u "gallery_no"; u "thumb_no"].

(** The first selector of the list that finds an element. *)
Fixpoint first_selected (sels : list selector) (doc : tag) : option tag :=
  match sels with
  | [] => None
  | sel :: rest =>
      match select_one sel doc with
      | Some el => Some el
      | None => first_selected rest doc
      end
  end.

(** [og:image], if it starts with [http] and is not a default image. *)
Definition og_image (doc : tag) : option str :=
  match select_one [ElA "meta" (AttrEq (u "property") (u "og:image"))] doc with
  | Some og_img =>
      let content := get_or (self og_img) (u "content") [] in
      if Url.nonempty content && startswith content (u "http")
         && _is_valid_og_image content
      then Some content else None
  | None => None
  end.

(** [if s.startswith("//"): "https:" + s  elif not s.startswith("http"):
    urljoin(base_url, s)] *)
Definition absolute (base_url s : str) : result str :=
  if startswith s (u "//") then Ok (u "https:" ++ s)
  else if negb (startswith s (u "http")) then urljoin base_url s
  else Ok s.

(** Loop 1, over the images of the container: the first image that passes
    the filters, made absolute. *)
Fixpoint first_image (base_url : str) (imgs : list tag) : result (option str) :=
  match imgs with
  | [] => Ok None
  | img :: rest =>
      let src := candidate_src [u "http"; u "/"; u "//"] _LAZY_ATTRS (self img) in
      if empty src || startswith src (u "data:")
      then first_image base_url rest
      else if contains_any (lower src) _CONTENT_EXCLUDE_PATTERNS
      then first_image base_url rest
      else
        narrow <- declared_below 50 (get_or (self img) (u "width") []) ;;
        if narrow then first_image base_url rest
        else
          low <- declared_below 50 (get_or (self img) (u "height") []) ;;
          if low then first_image base_url rest
          else r <- absolute base_url src ;; Ok (Some r)
  end.

(** Loop 2, over the videos: the first non-empty [poster]. *)
Fixpoint first_poster (base_url : str) (videos : list tag) : result (option str) :=
  match videos with
  | [] => Ok None
  | video :: rest =>
      let poster := get_or (self video) (u "poster") [] in
      if Url.nonempty poster
      then r <- absolute base_url poster ;; Ok (Some r)
      else first_poster base_url rest
  end.

(** The class [[a-zA-Z0-9_-]] *)
Definition video_id_char (c : codepoint) : bool :=
  Url.ascii_alpha c || ascii_digit c || (c =? 0x5F)%N || (c =? 0x2D)%N.

Definition youtube_thumbnail (id : str) : str :=
  u "https://img.youtube.com/vi/" ++ id ++ u "/hqdefault.jpg".

(** Loop 3, over the iframes: the first YouTube embed. *)
Fixpoint first_embed (iframes : list tag) : option str :=
  match iframes with
  | [] => None
  | iframe :: rest =>
      let iframe_src := get_or (self iframe) (u "src") [] in
      match search_lit_run video_id_char (u "youtube.com/embed/") iframe_src with
      | Some id => Some (youtube_thumbnail id)
      | None =>
          match search_lit_run video_id_char (u "youtu.be/") iframe_src with
          | Some id => Some (youtube_thumbnail id)
          | None => first_embed rest
          end
      end
  end.

(** [_extract_first_media_from_content(soup, site, base_url)] *)
Definition _extract_first_media_from_content (doc : tag) (site_name : str)
           (base_url : str) : result (option str) :=
  let content_el :=
    match selectors_of _CONTENT_SELECTORS site_name with
    | Some sels => first_selected sels doc
    | None => None
    end in
  match content_el with
  | None => Ok (og_image doc)
  | Some content_el =>
      img <- first_image base_url (find_all_limit (u "img") 10 content_el) ;;
      match img with
      | Some src => Ok (Some src)
      | None =>
          poster <- first_poster base_url (find_all_limit (u "video") 5 content_el) ;;
          match poster with
          | Some p => Ok (Some p)
          | None =>
              match first_embed (find_all_limit (u "iframe") 5 content_el) with
              | Some t => Ok (Some t)
              | None => Ok (og_image doc)
              end
          end
      end
  end.

(** *** The orchestrator *)

Section Orchestrator.

(** The environment of a run: the HTML parser, the transport, the six
    drivers that crawl several pages of one site over the network, the
    clock, and the percent-coding of [urllib.parse]. *)
Variable BeautifulSoup : str -> tag.
Variable fetch_html : str -> result (option str).
Variables crawl_damoang_multi_pages crawl_bobaedream_multi_pages crawl_fmkorea
          crawl_humoruniv_multi_pages crawl_ddanzi_multi_pages
          crawl_ppomppu_multi_pages : result (list Post).
Variable now : str.
Variables unquote quote_plus : str -> str.

Definition parser_t : Type := str -> str -> result (list Post).

Definition on_html (parse : str -> tag -> result (list Post)) : parser_t :=
  fun base_url html => parse base_url (BeautifulSoup html).

Definition SITES : list (str * str * parser_t) :=
  [(u "fmkorea", u "https://www.fmkorea.com/index.php?mid=humor&category=486622",
    on_html parse_fmkorea);
   (u "humoruniv", u "https://web.humoruniv.com/board/humor/list.html?table=pds&st=day",
    on_html parse_humoruniv);
   (u "ruliweb", u "https://bbs.ruliweb.com/best/humor", on_html parse_ruliweb);
   (u "etoland",
    u "https://www.etoland.co.kr/bbs/board.php?bo_table=etohumor07&hit=y&sca=%C0%AF%B8%D3",
    on_html parse_etoland);
   (u "inven", u "https://www.inven.co.kr/board/webzine/2097?category=유머",
    on_html parse_inven);
   (u "clien", u "https://www.clien.net/service/board/park?&od=T31&category=0",
    on_html parse_clien);
   (u "mlbpark",
    u "https://mlbpark.donga.com/mp/b.php?p=1&b=bullpen&select=&query=&subselect=&subquery=&user=&site=&reply=&source=&pos=",
    on_html parse_mlbpark);
   (u "ddanzi", u "https://www.ddanzi.com/free", on_html parse_ddanzi);
   (u "bobaedream", u "https://www.bobaedream.co.kr/list?code=strange",
    on_html parse_bobaedream);
   (u "ppomppu",
    u "https://www.ppomppu.co.kr/zboard/zboard.php?id=freeboard&hotlist_flag=999",
    on_html (parse_ppomppu unquote quote_plus));
   (u "slrclub", u "https://www.slrclub.com/bbs/zboard.php?id=free",
    on_html parse_slrclub)].

(** [Post.to_dict]: the record with its collection time filled in. *)
Definition to_dict (p : Post) : Post :=
  mkPost (site p) (title p) (url p) (author p) (timestamp p) (views p)
         (likes p) (comments p)
         (Some (match collected_at p with
                | Some t => if Url.nonempty t then t else now
                | None => now
                end))
         (thumbnail p).

(** The [try] block of [_crawl_site]: [Ok None] is its early
    [return []], [Ok (Some posts)] its normal end, [Raise e] an exception
    of the crawl or of the parser. *)
Definition crawl_attempt (site_name url : str) (parser : parser_t)
  : result (option (list Post)) :=
  if str_eqb site_name (u "damoang")
  then posts <- crawl_damoang_multi_pages ;; Ok (Some posts)
  else if str_eqb site_name (u "bobaedream")
  then posts <- crawl_bobaedream_multi_pages ;; Ok (Some posts)
  else if str_eqb site_name (u "fmkorea")
  then posts <- crawl_fmkorea ;; Ok (Some posts)
  else if str_eqb site_name (u "humoruniv")
  then posts <- crawl_humoruniv_multi_pages ;; Ok (Some posts)
  else if str_eqb site_name (u "ddanzi")
  then posts <- crawl_ddanzi_multi_pages ;; Ok (Some posts)
  else if str_eqb site_name (u "ppomppu")
  then posts <- crawl_ppomppu_multi_pages ;; Ok (Some posts)
  else
    html <- fetch_html url ;;
    match html with
    | None => Ok None
    | Some [] => Ok None
    | Some html => posts <- parser url html ;; Ok (Some posts)
    end.

Definition _crawl_site (site_name url : str) (parser : parser_t)
  : result (list Post) :=
  match crawl_attempt site_name url parser with
  | Raise _ => Ok []
  | Ok None => Ok []
  | Ok (Some posts) =>
      let collected := firstn 30 posts in
      Ok (map to_dict collected)
  end.

(** [asyncio.gather] with [return_exceptions=True] hands back the outcome
    of every task, in the order of the tasks. *)
Definition gather {A} (tasks : list (result A)) : list (result A) := tasks.

Definition crawl_all : result (list Post) :=
  let tasks :=
    map (fun s => _crawl_site (fst (fst s)) (snd (fst s)) (snd s)) SITES in
  let site_results := gather tasks in
  Ok (fold_left (fun results res =>
                   match res with
                   | Raise _ => results
                   | Ok l => results ++ l
                   end) site_results []).

End Orchestrator.

(** *** The transport

    What a request comes to: a response with its status code, its body and
    the encoding it declares; the connect timeout of httpx; or any other
    exception of the transport. *)

Inductive outcome : Type :=
| Response (status_code : Z) (content : list N) (encoding : option str)
| ConnectTimeout
| Failed.

(** What a call does on the way to its result: requests, and sleeps of a
    number of seconds. *)
Inductive event : Type :=
| Requested
| Slept (seconds : nat).

(** [str(n)] for a page number *)
Fixpoint decimal_from (fuel n : nat) (acc : str) : str :=
  match fuel with
  | O => acc
  | S fuel' =>
      let acc := (0x30 + N.of_nat (n mod 10))%N :: acc in
      if (n <? 10)%nat then acc else decimal_from fuel' (n / 10) acc
  end.

Definition str_of_nat (n : nat) : str := decimal_from (S n) n [].

Section Transport.

Variable decode_strict : str -> list N -> result str.
Variable decode_lossy : str -> errors -> list N -> str.
Variable BeautifulSoup : str -> tag.
Variables unquote quote_plus : str -> str.

Section Fetch.

(** [client.get(url, ...)] in the given attempt. *)
Variable get : nat -> outcome.
Variable url : str.

(** The loop of [fetch_html] over the attempts that are left.  An exception
    of [_decode_html] is caught like one of the request. *)
Fixpoint fetch_attempts (attempts : list nat) : option str * list event :=
  match attempts with
  | [] => (None, [])
  | attempt :: rest =>
      let again :=
        let '(r, trace) := fetch_attempts rest in
        (r, Requested :: Slept (1 + attempt) :: trace) in
      match get attempt with
      | Response status_code content encoding =>
          if (status_code =? 200)%Z && negb (length content =? 0)%nat
          then match _decode_html decode_strict decode_lossy url content encoding with
               | Ok html => (Some html, [Requested])
               | Raise _ => again
               end
          else again
      | ConnectTimeout => (None, [Requested])
      | Failed => again
      end
  end.

(** [fetch_html(client, url)]: what it returns, and what it does. *)
Definition fetch_html : option str * list event := fetch_attempts (seq 0 3).

End Fetch.

(** The number of requests and the seconds of sleep of a trace. *)
Definition requests (trace : list event) : nat :=
  length (filter (fun e => match e with Requested => true | _ => false end) trace).

Definition seconds_slept (trace : list event) : nat :=
  fold_right (fun e n => match e with Slept s => s + n | _ => n end) 0 trace.

(** [_fmkorea_fetch_sync(url)], the request being made by [curl_cffi]. *)
Definition _fmkorea_fetch_sync (session_get : str -> outcome) (url : str)
  : option str :=
  match session_get url with
  | Response status_code content encoding =>
      if negb (status_code =? 200)%Z then None
      else match _decode_html decode_strict decode_lossy url content encoding with
           | Ok html => Some html
           | Raise _ => None
           end
  | _ => None
  end.

(** [f"{base}&page={page}" if page > 1 else base] *)
Definition page_url (base param : str) (page : nat) : str :=
  if (1 <? page)%nat then base ++ param ++ str_of_nat page else base.

(** [crawl_fmkorea()]: the parser is called outside any [try]. *)
Fixpoint crawl_fmkorea_pages (session_get : str -> outcome) (pages : list nat)
  : result (list Post) :=
  match pages with
  | [] => Ok []
  | page :: rest =>
      let url := page_url (u "https://www.fmkorea.com/index.php?mid=humor&category=486622")
                          (u "&page=") page in
      posts <- match _fmkorea_fetch_sync session_get url with
               | Some ((_ :: _) as html) => parse_fmkorea url (BeautifulSoup html)
               | _ => Ok []
               end ;;
      others <- crawl_fmkorea_pages session_get rest ;;
      Ok (posts ++ others)
  end.

Definition crawl_fmkorea (session_get : str -> outcome) : result (list Post) :=
  all_posts <- crawl_fmkorea_pages session_get (seq 1 2) ;;
  Ok (dedupe_posts all_posts).

(** The drivers that go through httpx.  [page_get url] is what
    [client.get(url, headers=HEADERS)] comes to, and [raises_for_status]
    tells the status codes on which [response.raise_for_status()] raises. *)
Variable page_get : str -> outcome.
Variable raises_for_status : Z -> bool.

(** The [try] block of a page. *)
Definition page_attempt (parse : str -> tag -> result (list Post)) (url : str)
  : result (list Post) :=
  match page_get url with
  | Response status_code content encoding =>
      if raises_for_status status_code then Raise TransportError
      else
        html <- _decode_html decode_strict decode_lossy url content encoding ;;
        if Url.nonempty html then parse url (BeautifulSoup html) else Ok []
  | _ => Raise TransportError
  end.

(** What a page adds to [all_posts]: nothing when the block raises. *)
Definition page_posts (parse : str -> tag -> result (list Post)) (url : str)
  : list Post :=
  match page_attempt parse url with
  | Ok posts => posts
  | Raise _ => []
  end.

Definition crawl_pages (parse : str -> tag -> result (list Post))
           (urls : list str) : list Post :=
  dedupe_posts (flat_map (page_posts parse) urls).

Definition crawl_humoruniv_multi_pages : list Post :=
  crawl_pages parse_humoruniv
    (map (page_url (u "https://web.humoruniv.com/board/humor/list.html?table=pds&st=day")
                   (u "&pg=")) (seq 1 2)).

Definition crawl_ddanzi_multi_pages : list Post :=
  crawl_pages parse_ddanzi
    (map (fun page => if (1 <? page)%nat
                      then u "https://www.ddanzi.com/index.php?mid=free&page="
                           ++ str_of_nat page
                      else u "https://www.ddanzi.com/free") (seq 1 2)).

Definition crawl_bobaedream_multi_pages : list Post :=
  crawl_pages parse_bobaedream
    (map (page_url (u "https://www.bobaedream.co.kr/list?code=strange") (u "&page="))
         (seq 1 5)).

Definition crawl_ppomppu_multi_pages : list Post :=
  crawl_pages (parse_ppomppu unquote quote_plus)
    (map (page_url (u "https://www.ppomppu.co.kr/zboard/zboard.php?id=freeboard&hotlist_flag=999")
                   (u "&page=")) (seq 1 2)).

End Transport.

(** *** A run of [crawl_all] over the transport

    [crawl_all] with [fetch_html] and the drivers above in the place of
    those of its environment.  [get url] is what the requests of the shared
    client for [url] come to, attempt by attempt.  The driver of damoang,
    a site that [SITES] does not list, stays a parameter. *)

Section Run.

Variable decode_strict : str -> list N -> result str.
Variable decode_lossy : str -> errors -> list N -> str.
Variable BeautifulSoup : str -> tag.
Variables unquote quote_plus : str -> str.
Variable get : str -> nat -> outcome.
Variable session_get : str -> outcome.
Variable page_get : str -> outcome.
Variable raises_for_status : Z -> bool.
Variable crawl_damoang_multi_pages : result (list Post).
Variable now : str.

Definition crawl_all_run : result (list Post) :=
  crawl_all BeautifulSoup
    (fun url => Ok (fst (fetch_html decode_strict decode_lossy (get url) url)))
    crawl_damoang_multi_pages
    (Ok (crawl_bobaedream_multi_pages decode_strict decode_lossy BeautifulSoup
           page_get raises_for_status))
    (crawl_fmkorea decode_strict decode_lossy BeautifulSoup session_get)
    (Ok (crawl_humoruniv_multi_pages decode_strict decode_lossy BeautifulSoup
           page_get raises_for_status))
    (Ok (crawl_ddanzi_multi_pages decode_strict decode_lossy BeautifulSoup
           page_get raises_for_status))
    (Ok (crawl_ppomppu_multi_pages decode_strict decode_lossy BeautifulSoup
           unquote quote_plus page_get raises_for_status))
    now unquote quote_plus.

End Run.

(** *** The thumbnail of a detail page *)

Section PageThumbnail.

Variable decode_strict : str -> list N -> result str.
Variable decode_lossy : str -> errors -> list N -> str.
Variable BeautifulSoup : str -> tag.
Variable get : str -> nat -> outcome.
Variable session_get : str -> outcome.

(** [extract_thumbnail_from_page(client, url, site)]; an exception of the
    body is caught and gives [None]. *)
Definition extract_thumbnail_from_page (url site : str) : option str :=
  let html :=
    if str_eqb site (u "fmkorea")
    then _fmkorea_fetch_sync decode_strict decode_lossy session_get url
    else fst (fetch_html decode_strict decode_lossy (get url) url) in
  match html with
  | Some ((_ :: _) as html) =>
      match _extract_first_media_from_content (BeautifulSoup html) site url with
      | Ok thumb => thumb
      | Raise _ => None
      end
  | _ => None
  end.

End PageThumbnail.

End Crawler.
Import Crawler.

(* ================================================================= *)
(** ** [core/extractor.py] *)

Module Extractor.

Record ExtractedContent : Type := mkContent {
  html_content : str;
  text_content : str;
  images : list str;
  source_url : str }.

Definition SITE_CONTENT_SELECTORS : list (str * list selector) :=
  [(u "humoruniv", [[Id "cnts"]; [Id "wrap_img"]]);
   (u "ruliweb", [[ElC "div" "view_content"]; [ElC "div" "board_main_view"]]);
   (u "etoland", [[ElId "div" "view_content"]; [ElC "td" "mw_basic_view_content"]]);
   (u "inven", [[ElId "div" "powerbbsContent"]; [ElC "div" "contentBody"]]);
   (u "clien", [[ElC "div" "post_article"]; [ElC "div" "post_view"]]);
   (u "mlbpark", [[ElId "div" "contentDetail"]; [ElC "div" "ar_txt"]]);
   (u "ddanzi", [[ElC "div" "xe_content"]; [ElC "div" "read_content"]]);
   (u "bobaedream", [[ElC "div" "bodyCont"]; [ElC "div" "content02"]]);
   (u "ppomppu", [[ElC "td" "board-contents"]]);
   (u "fmkorea", [[ElC "div" "xe_content"]; [El "article"]]);
   (u "dcinside", [[ElC "div" "write_div"]; [ElC "div" "writing_view_box"]]);
   (u "damoang", [[ElC "div" "fr-view"]; [ElC "div" "view_content"]]);
   (u "dogdrip", [[ElC "div" "xe_content"]]);
   (u "theqoo", [[ElC "div" "xe_content"]]);
   (u "82cook", [[ElC "div" "view_content"]; [ElC "div" "post_content"]])].

Definition ALLOWED_TAGS : list str :=
  [u "p"; u "br"; u "img"; u "strong"; u "em"; u "b"; u "i";
   u "h1"; u "h2"; u "h3"; u "h4"; u "h5"; u "h6";
   u "ul"; u "ol"; u "li"; u "blockquote"; u "a"; u "div"; u "span";
   u "table"; u "tr"; u "td"; u "th"; u "thead"; u "tbody";
   u "figure"; u "figcaption"; u "video"; u "source"].

Definition ALLOWED_ATTRS : list (str * list str) :=
  [(u "img", [u "src"; u "alt"; u "loading"; u "referrerpolicy"]);
   (u "a", [u "href"]);
   (u "video", [u "src"; u "poster"; u "controls"; u "autoplay"; u "loop";
                u "muted"; u "playsinline"]);
   (u "source", [u "src"; u "type"]);
   (u "*", [u "style"])].

Definition ALLOWED_CSS_PROPS : list str :=
  [u "text-align"; u "font-size"; u "font-weight"; u "font-style";
   u "color"; u "background-color";
   u "margin"; u "margin-top"; u "margin-bottom"; u "margin-left"; u "margin-right";
   u "padding"; u "padding-top"; u "padding-bottom"; u "padding-left"; u "padding-right";
   u "width"; u "max-width"; u "height";
   u "display"; u "text-decoration"; u "line-height"; u "letter-spacing";
   u "border"; u "border-bottom"; u "border-top"].

Definition LAZY_ATTRS : list str :=
  [u "data-src"; u "data-original"; u "data-lazy-src"; u "data-lazy";
   u "data-actualsrc"].

Definition MAX_CONTENT_SIZE : nat := N.to_nat 500000.
Definition MAX_IMAGES : nat := 50.

Definition _PLACEHOLDER_PATTERNS : list str :=
  [u "loading"; u "placeholder"; u "blank"; u "spacer"; u "pixel"].

(** [_has_content(element, min_text)] *)
Definition _has_content (element : tag) (min_text : nat) : bool :=
  let text_len := length (get_text_strip element) in
  if (min_text <? text_len)%nat then true
  else
    let media_count :=
      (length (find_all (u "img") element) + length (find_all (u "video") element))%nat in
    (0 <? media_count)%nat.

Definition _is_placeholder_src (src : str) : bool :=
  if empty src then true
  else contains_any (lower src) _PLACEHOLDER_PATTERNS || startswith src (u "data:").

(** *** Rewriting a tree

    The code walks over [find_all(...)] and changes tags in place.  Here a
    pass over the tree gives every element what it becomes: a list of
    nodes, empty for [decompose], the children for [unwrap]. *)

Section Passes.

Variable pure_step : str -> list (str * str) -> list node -> list node.

Fixpoint transform (n : node) : list node :=
  match n with
  | Elem nm attrs kids => pure_step nm attrs (flat_map transform kids)
  | other => [other]
  end.

Definition transform_forest (l : list node) : list node := flat_map transform l.

Variable step : str -> list (str * str) -> list node -> result (list node).

Fixpoint rewrite (n : node) : result (list node) :=
  match n with
  | Elem nm attrs kids =>
      kids' <- (fix forest (l : list node) : result (list node) :=
                  match l with
                  | [] => Ok []
                  | k :: r => a <- rewrite k ;; b <- forest r ;; Ok (a ++ b)
                  end) kids ;;
      step nm attrs kids'
  | other => Ok [other]
  end.

Fixpoint rewrite_forest (l : list node) : result (list node) :=
  match l with
  | [] => Ok []
  | k :: r => a <- rewrite k ;; b <- rewrite_forest r ;; Ok (a ++ b)
  end.

End Passes.

(** [tag[k] = v] and [del tag[k]] on the attributes of a tag *)
Definition has_attr (k : str) (attrs : list (str * str)) : bool :=
  existsb (fun kv => str_eqb (fst kv) k) attrs.

Definition set_attr (k v : str) (attrs : list (str * str)) : list (str * str) :=
  if has_attr k attrs
  then map (fun kv => if str_eqb (fst kv) k then (k, v) else kv) attrs
  else attrs ++ [(k, v)].

Definition del_attr (k : str) (attrs : list (str * str)) : list (str * str) :=
  filter (fun kv => negb (str_eqb (fst kv) k)) attrs.

Definition del_attrs (ks : list str) (attrs : list (str * str)) : list (str * str) :=
  filter (fun kv => negb (mem (fst kv) ks)) attrs.

(** *** [_resolve_media] *)

Definition resolve_img (base_url : str) (nm : str) (attrs : list (str * str))
           (kids : list node) : result (list node) :=
  if negb (str_eqb nm (u "img")) then Ok [Elem nm attrs kids]
  else
    let img := Elem nm attrs kids in
    let real_src := lazy_src [u "http"; u "/"; u "//"] LAZY_ATTRS img in
    let src := get_or img (u "src") [] in
    let chosen :=
      match real_src with
      | Some r => if _is_placeholder_src src || empty src then Some r
                  else if empty src then None else Some src
      | None => if empty src then None else Some src
      end in
    match chosen with
    | None => Ok []
    | Some src =>
        if startswith src (u "data:") then Ok []
        else
          src <- absolute base_url src ;;
          let attrs := set_attr (u "src") src attrs in
          let attrs := set_attr (u "loading") (u "lazy") attrs in
          let attrs := set_attr (u "referrerpolicy") (u "no-referrer") attrs in
          let attrs :=
            del_attrs (LAZY_ATTRS ++ [u "width"; u "height"; u "onclick"; u "onerror"])
                      attrs in
          Ok [Elem nm attrs kids]
    end.

Definition resolve_video (base_url : str) (nm : str) (attrs : list (str * str))
           (kids : list node) : result (list node) :=
  if negb (str_eqb nm (u "video")) then Ok [Elem nm attrs kids]
  else
    let video := Elem nm attrs kids in
    let src := get_or video (u "src") [] in
    let src := if empty src
               then match lazy_src [u "http"; u "/"; u "//"] LAZY_ATTRS video with
                    | Some v => v
                    | None => src
                    end
               else src in
    attrs <- (if Url.nonempty src
              then src <- absolute base_url src ;; Ok (set_attr (u "src") src attrs)
              else Ok attrs) ;;
    let attrs := set_attr (u "controls") [] attrs in
    let attrs := set_attr (u "playsinline") [] attrs in
    let attrs := set_attr (u "loading") (u "lazy") attrs in
    let attrs := set_attr (u "referrerpolicy") (u "no-referrer") attrs in
    let attrs := del_attrs (LAZY_ATTRS ++ [u "onclick"; u "onerror"]) attrs in
    Ok [Elem nm attrs kids].

Definition resolve_source (base_url : str) (nm : str) (attrs : list (str * str))
           (kids : list node) : result (list node) :=
  if negb (str_eqb nm (u "source")) then Ok [Elem nm attrs kids]
  else
    let src := get_or (Elem nm attrs kids) (u "src") [] in
    if Url.nonempty src && negb (startswith src (u "http"))
    then
      src <- (if startswith src (u "//") then Ok (u "https:" ++ src)
              else urljoin base_url src) ;;
      Ok [Elem nm (set_attr (u "src") src attrs) kids]
    else Ok [Elem nm attrs kids].

Definition children (n : node) : list node :=
  match n with
  | Elem _ _ kids => kids
  | _ => []
  end.

Definition with_children (n : node) (kids : list node) : node :=
  match n with
  | Elem nm attrs _ => Elem nm attrs kids
  | other => other
  end.

(** [_resolve_media(soup_element, base_url)]: the element after the three
    loops over its images, its videos and its sources. *)
Definition _resolve_media (soup_element : node) (base_url : str) : result node :=
  k1 <- rewrite_forest (resolve_img base_url) (children soup_element) ;;
  k2 <- rewrite_forest (resolve_video base_url) k1 ;;
  k3 <- rewrite_forest (resolve_source base_url) k2 ;;
  Ok (with_children soup_element k3).

(** *** [_sanitize_css] *)

Definition CSS_DANGER : list str :=
  [u "url("; u "expression("; u "javascript:"; u "import"].

(** The list [safe_parts], as pairs of property and value. *)
Definition safe_parts (style : str) : list (str * str) :=
  flat_map (fun declaration =>
              let declaration := strip declaration in
              if empty declaration || negb (Url.has_char 0x3A%N declaration) then []
              else
                let '(prop, value) := partition 0x3A%N declaration in
                let prop := lower (strip prop) in
                let value := strip value in
                if contains_any (lower value) CSS_DANGER then []
                else if mem prop ALLOWED_CSS_PROPS then [(prop, value)]
                else [])
           (split 0x3B%N style).

Definition _sanitize_css (style : str) : str :=
  join (u "; ") (map (fun pv => fst pv ++ u ": " ++ snd pv) (safe_parts style)).

(** *** [_sanitize_html] *)

Definition REMOVED_TAGS : list str :=
  [u "script"; u "style"; u "iframe"; u "noscript"; u "object"; u "embed";
   u "form"; u "input"].

Definition decompose_step (nm : str) (attrs : list (str * str)) (kids : list node)
  : list node :=
  if mem nm REMOVED_TAGS then [] else [Elem nm attrs kids].

Definition unwrap_step (nm : str) (attrs : list (str * str)) (kids : list node)
  : list node :=
  if mem nm ALLOWED_TAGS then [Elem nm attrs kids] else kids.

(** [ALLOWED_ATTRS.get(name, set()) | ALLOWED_ATTRS.get("*", set())] *)
Fixpoint attrs_of (table : list (str * list str)) (nm : str) : list str :=
  match table with
  | [] => []
  | (k, v) :: r => if str_eqb k nm then v else attrs_of r nm
  end.

Definition tag_allowed (nm : str) : list str :=
  attrs_of ALLOWED_ATTRS nm ++ attrs_of ALLOWED_ATTRS (u "*").

Definition clean_attrs (nm : str) (attrs : list (str * str)) : list (str * str) :=
  let attrs := filter (fun kv => mem (fst kv) (tag_allowed nm)) attrs in
  match lookup (u "style") attrs with
  | Some style =>
      if Url.nonempty style
      then
        let style := _sanitize_css style in
        if empty style then del_attr (u "style") attrs
        else set_attr (u "style") style attrs
      else attrs
  | None => attrs
  end.

Definition attrs_step (nm : str) (attrs : list (str * str)) (kids : list node)
  : list node :=
  [Elem nm (clean_attrs nm attrs) kids].

Definition anchor_step (base_url : str) (nm : str) (attrs : list (str * str))
           (kids : list node) : result (list node) :=
  if str_eqb nm (u "a") then
    match lookup (u "href") attrs with
    | Some href =>
        if empty href || startswith (lower href) (u "javascript:")
        then Ok kids
        else if Url.nonempty base_url
                && negb (startswith_any href [u "http"; u "mailto:"; u "#"])
        then h <- urljoin base_url href ;;
             Ok [Elem nm (set_attr (u "href") h attrs) kids]
        else Ok [Elem nm attrs kids]
    | None => Ok [Elem nm attrs kids]
    end
  else Ok [Elem nm attrs kids].

(** The tree work of [_sanitize_html], on the children of the parsed
    document: the four loops in their order. *)
Definition sanitize_forest (base_url : str) (doc : list node) : result (list node) :=
  let doc := transform_forest decompose_step doc in
  let doc := transform_forest unwrap_step doc in
  let doc := transform_forest attrs_step doc in
  rewrite_forest (anchor_step base_url) doc.

(** The three [re.sub] on the serialised result. *)

Fixpoint text_after (pat : str) (s : str) : option str :=
  if startswith s pat then Some (skipn (length pat) s)
  else match s with
       | [] => None
       | _ :: r => text_after pat r
       end.

(** [re.sub(r'<!--.*?-->', '', s, flags=re.DOTALL)] *)
Fixpoint remove_comments (fuel : nat) (s : str) : str :=
  match fuel, s with
  | S fuel', c :: r =>
      match (if startswith s (u "<!--") then text_after (u "-->") (skipn 4 s)
             else None) with
      | Some rest => remove_comments fuel' rest
      | None => c :: remove_comments fuel' r
      end
  | _, _ => s
  end.

Definition empty_pair (nm : string) (s : str) : option str :=
  if startswith s (u "<" ++ u nm ++ u ">") then
    let r := dropwhile isspace (skipn (length (u "<" ++ u nm ++ u ">")) s) in
    if startswith r (u "</" ++ u nm ++ u ">")
    then Some (skipn (length (u "</" ++ u nm ++ u ">")) r)
    else None
  else None.

(** [re.sub(r'<(p|div|span)>\s*</\1>', '', s)] *)
Fixpoint remove_empty_pairs (fuel : nat) (s : str) : str :=
  match fuel, s with
  | S fuel', c :: r =>
      match or_else (empty_pair "p" s) (or_else (empty_pair "div" s) (empty_pair "span" s)) with
      | Some rest => remove_empty_pairs fuel' rest
      | None => c :: remove_empty_pairs fuel' r
      end
  | _, _ => s
  end.

(** One [<br\s*/?>] at the head of the text: the text after it. *)
Definition br_here (s : str) : option str :=
  if startswith s (u "<br") then
    let r := dropwhile isspace (skipn 3 s) in
    let r := if startswith r (u "/") then tl r else r in
    if startswith r (u ">") then Some (tl r) else None
  else None.

Fixpoint br_run (fuel : nat) (s : str) : nat * str :=
  match fuel with
  | O => (O, s)
  | S fuel' =>
      match br_here s with
      | Some r => let '(n, rest) := br_run fuel' r in (S n, rest)
      | None => (O, s)
      end
  end.

(** [re.sub(r'(<br\s*/?>){3,}', '<br><br>', s)] *)
Fixpoint collapse_breaks (fuel : nat) (s : str) : str :=
  match fuel, s with
  | S fuel', c :: r =>
      let '(n, rest) := br_run fuel' s in
      if (3 <=? n)%nat then u "<br><br>" ++ collapse_breaks fuel' rest
      else c :: collapse_breaks fuel' r
  | _, _ => s
  end.

Definition tidy (s : str) : str :=
  let s := remove_comments (S (length s)) s in
  let s := remove_empty_pairs (S (length s)) s in
  let s := collapse_breaks (S (length s)) s in
  strip s.

Section Extract.

(** The environment: the HTML parser, the serialisation of a node
    ([str(tag)]), the transport, and trafilatura when it is installed (its
    extraction to HTML and its extraction to text). *)
Variable BeautifulSoup : str -> tag.
Variable render : node -> str.
Variable fetch_html : str -> result (option str).
Variable trafilatura : option ((str -> option str) * (str -> option str)).

Definition render_all (l : list node) : str := concat (map render l).

Definition _sanitize_html (html base_url : str) : result str :=
  let doc := children (self (BeautifulSoup html)) in
  doc <- sanitize_forest base_url doc ;;
  let body := hd_error (find_all (u "body") (soup doc)) in
  let result := match body with
                | Some b => render_all (children (self b))
                | None => render_all doc
                end in
  Ok (tidy result).

(** [_extract_image_urls(html)] *)
Definition _extract_image_urls (html : str) : list str :=
  flat_map (fun img =>
              match get (self img) (u "src") with
              | Some src =>
                  if Url.nonempty src && startswith src (u "http") then [src] else []
              | None => []
              end)
           (find_all (u "img") (BeautifulSoup html)).

(** The first selector of the list whose element has content. *)
Fixpoint first_with_content (min_text : nat) (sels : list selector) (doc : tag)
  : option tag :=
  match sels with
  | [] => None
  | sel :: rest =>
      match select_one sel doc with
      | Some el => if _has_content el min_text then Some el
                   else first_with_content min_text rest doc
      | None => first_with_content min_text rest doc
      end
  end.

Definition extract_content (url : str) (site_name : option str)
  : result (option ExtractedContent) :=
  html <- fetch_html url ;;
  match html with
  | None => Ok None
  | Some [] => Ok None
  | Some html =>
      let doc := BeautifulSoup html in
      let content_element :=
        match site_name with
        | Some s =>
            if Url.nonempty s
            then match selectors_of SITE_CONTENT_SELECTORS s with
                 | Some sels => first_with_content 10 sels doc
                 | None => None
                 end
            else None
        | None => None
        end in
      let content_element :=
        match content_element with
        | Some el => Some el
        | None => first_with_content 50 (flat_map snd SITE_CONTENT_SELECTORS) doc
        end in
      match content_element with
      | None =>
          match trafilatura with
          | Some (extract_html, extract_txt) =>
              match extract_html html with
              | Some ((_ :: _) as extracted_html) =>
                  let text := match extract_txt html with
                              | Some t => t
                              | None => []
                              end in
                  sanitized <- _sanitize_html extracted_html url ;;
                  let images := _extract_image_urls sanitized in
                  Ok (Some (mkContent (firstn MAX_CONTENT_SIZE sanitized)
                              (firstn MAX_CONTENT_SIZE text)
                              (firstn MAX_IMAGES images) url))
              | _ => Ok None
              end
          | None => Ok None
          end
      | Some content_element =>
          resolved <- _resolve_media (self content_element) url ;;
          let raw_html := render resolved in
          sanitized <- _sanitize_html raw_html url ;;
          let images := _extract_image_urls sanitized in
          let text :=
            get_text_sep_strip [0x0A%N] (mkTag resolved (ancestors content_element)) in
          Ok (Some (mkContent (firstn MAX_CONTENT_SIZE sanitized)
                      (firstn MAX_CONTENT_SIZE text)
                      (firstn MAX_IMAGES images) url))
      end
  end.

End Extract.

End Extractor.
Import Extractor.

(* ================================================================= *)
(** ** [backend/main.py]: the crawl cache and the endpoints of the posts

    The posts of the cache are the dicts that [Post.to_dict] writes, with
    the fields of a [Post].  [_fill_thumbnails_for] changes these dicts in
    place, through the lists [no_thumb] and [by_site] that share them with
    the list of the posts: a dict is known here by its position in that
    list, and the lists that share it hold the position.  The counters of
    [_fill_thumbnails_for] only feed its log lines and are left out, as the
    log lines are. *)

Module Backend.

(** [post["thumbnail"] = thumb] *)
Definition with_thumbnail (p : Post) (thumb : str) : Post :=
  mkPost (site p) (title p) (url p) (author p) (timestamp p) (views p)
         (likes p) (comments p) (collected_at p) (Some thumb).

(** The dict at a position replaced by its new state. *)
Fixpoint update (r : nat) (p : Post) (store : list Post) : list Post :=
  match store, r with
  | [], _ => []
  | _ :: rest, O => p :: rest
  | q :: rest, S r' => q :: update r' p rest
  end.

(** The truth value of an optional string. *)
Definition truthy (o : option str) : bool :=
  match o with
  | Some (_ :: _) => true
  | _ => false
  end.

(** [[p for p in posts if not p.get("thumbnail")]], as positions counted
    from [start] *)
Fixpoint no_thumb_from (start : nat) (posts : list Post) : list nat :=
  match posts with
  | [] => []
  | p :: rest =>
      if truthy (thumbnail p) then no_thumb_from (S start) rest
      else start :: no_thumb_from (S start) rest
  end.

(** [by_site.setdefault(site, []).append(p)]; a dict keeps its keys in the
    order of their insertion. *)
Fixpoint setdefault_append (site : str) (r : nat) (by_site : list (str * list nat))
  : list (str * list nat) :=
  match by_site with
  | [] => [(site, [r])]
  | (k, v) :: rest =>
      if str_eqb k site then (k, v ++ [r]) :: rest
      else (k, v) :: setdefault_append site r rest
  end.

Section Thumbnails.

(** [extract_thumbnail_from_page(client, url, site)], which raises
    nothing. *)
Variable extract_thumbnail_from_page : str -> str -> option str.

(** The loop that fills [by_site]. *)
Definition group_by_site (store : list Post) (no_thumb : list nat)
  : list (str * list nat) :=
  fold_left (fun by_site r =>
               match nth_error store r with
               | Some p =>
                   if Url.nonempty (site p) then setdefault_append (site p) r by_site
                   else by_site
               | None => by_site
               end) no_thumb [].

(** The body of the loop of [_process_site]. *)
Definition process_post (site : str) (store : list Post) (r : nat) : list Post :=
  match nth_error store r with
  | Some post =>
      if empty (url post) then store
      else match extract_thumbnail_from_page (url post) site with
           | Some ((_ :: _) as thumb) => update r (with_thumbnail post thumb) store
           | _ => store
           end
  | None => store
  end.

Definition _process_site (site : str) (site_posts : list nat) (store : list Post)
  : list Post :=
  fold_left (process_post site) site_posts store.

(** [_fill_thumbnails_for(data)]: the posts of [data] when it returns.  The
    tasks of the sites, which share no post, are run one after the other in
    the order of [by_site]. *)
Definition _fill_thumbnails_for (posts : list Post) : list Post :=
  let no_thumb := no_thumb_from 0 posts in
  match no_thumb with
  | [] => posts
  | _ =>
      let by_site := group_by_site posts no_thumb in
      fold_left (fun store task => _process_site (fst task) (snd task) store)
                by_site posts
  end.

End Thumbnails.

(** The cache: [CACHED_DATA], a dict that is empty until a crawl has filled
    it. *)
Record Data : Type := mkData {
  data_total_posts : nat;
  data_collected_at : str;
  data_sites : list str;
  data_posts : list Post }.

Section Cache.

Variable decode_strict : str -> list N -> result str.
Variable decode_lossy : str -> errors -> list N -> str.
Variable BeautifulSoup : str -> tag.
Variables unquote quote_plus : str -> str.
Variable get : str -> nat -> outcome.
Variable session_get : str -> outcome.
Variable page_get : str -> outcome.
Variable raises_for_status : Z -> bool.
Variable crawl_damoang_multi_pages : result (list Post).

(** [datetime.now().isoformat()] in [Post.to_dict] and in
    [_crawl_and_fill_thumbnails] *)
Variables now now' : str.

(** [list(set(...))]: the order in which a set lists its elements is not
    specified. *)
Variable list_of_set : list str -> list str.

(** [_crawl_and_fill_thumbnails()]; the file that [save_to_json] writes
    on the way is left out. *)
Definition _crawl_and_fill_thumbnails : result Data :=
  results <- crawl_all_run decode_strict decode_lossy BeautifulSoup unquote
               quote_plus get session_get page_get raises_for_status
               crawl_damoang_multi_pages now ;;
  Ok (mkData (length results) now' (list_of_set (map site results))
        (_fill_thumbnails_for
           (extract_thumbnail_from_page decode_strict decode_lossy BeautifulSoup
              get session_get)
           results)).

End Cache.

(** What an endpoint answers: a reply, or an [HTTPException]. *)
Inductive http (A : Type) : Type :=
| Reply (a : A)
| HTTPException (status_code : Z).
Arguments Reply {A} a.
Arguments HTTPException {A} status_code.

(** The replies of the endpoints of the posts: [metadata] has no ["sites"]
    when the cache is empty or the posts of one site are asked for, and a
    ["site"] only in the latter case. *)
Record Posts : Type := mkPosts {
  posts : list Post;
  total_posts : nat;
  metadata_collected_at : str;
  metadata_sites : option (list str);
  metadata_site : option str }.

(** The order of Python on strings: that of their code points, a proper
    prefix coming first. *)
Fixpoint str_compare (a b : str) : comparison :=
  match a, b with
  | [], [] => Eq
  | [], _ :: _ => Lt
  | _ :: _, [] => Gt
  | x :: a', y :: b' =>
      match (x ?= y)%N with
      | Eq => str_compare a' b'
      | c => c
      end
  end.

Definition str_ltb (a b : str) : bool :=
  match str_compare a b with
  | Lt => true
  | _ => false
  end.

(** [list.sort(key=..., reverse=True)]: the greatest key first, posts with
    equal keys in the order they had.  [lt_key p q] tells that the key of
    [p] is less than that of [q]. *)
Section Sort.

Variable lt_key : Post -> Post -> bool.

Fixpoint insert_desc (p : Post) (sorted : list Post) : list Post :=
  match sorted with
  | [] => [p]
  | q :: rest =>
      if lt_key p q then q :: insert_desc p rest else p :: q :: rest
  end.

Definition sort_desc (l : list Post) : list Post := fold_right insert_desc [] l.

End Sort.

(** [x or 0] *)
Definition or_zero (x : option Z) : Z :=
  match x with
  | Some z => z
  | None => 0%Z
  end.

Definition by_number (field : Post -> option Z) (p q : Post) : bool :=
  (or_zero (field p) <? or_zero (field q))%Z.

Definition by_collected_at (p q : Post) : bool :=
  match collected_at p, collected_at q with
  | Some a, Some b => str_ltb a b
  | _, _ => false
  end.

(** [l[:limit]] *)
Definition slice_to {A : Type} (limit : Z) (l : list A) : list A :=
  if (0 <=? limit)%Z then firstn (Z.to_nat limit) l
  else firstn (length l - Z.to_nat (- limit)) l.

Section Endpoints.

Variable CACHED_DATA : option Data.
Variable CACHE_TIMESTAMP : str.
Variable list_of_set : list str -> list str.

(** The sorting step of [get_posts].  The key of the default order is
    [p.get("collected_at", "")]: where it is [None] for a post, comparing it
    with another key raises [TypeError], which two posts or more bring
    about. *)
Definition sort_posts (sort : option str) (posts : list Post)
  : result (list Post) :=
  let latest :=
    if (2 <=? length posts)%nat
       && existsb (fun p => match collected_at p with None => true | _ => false end)
            posts
    then Raise OtherError
    else Ok (sort_desc by_collected_at posts) in
  match sort with
  | Some sort =>
      if str_eqb sort (u "views") then Ok (sort_desc (by_number views) posts)
      else if str_eqb sort (u "likes") then Ok (sort_desc (by_number likes) posts)
      else if str_eqb sort (u "comments")
      then Ok (sort_desc (by_number comments) posts)
      else latest
  | None => latest
  end.

(** [get_posts(sort, site, limit)] *)
Definition get_posts (sort site : option str) (limit : option Z) : http Posts :=
  match CACHED_DATA with
  | None => Reply (mkPosts [] 0 CACHE_TIMESTAMP None None)
  | Some data =>
      let posts := data_posts data in
      let posts :=
        match site with
        | Some ((_ :: _) as site) =>
            filter (fun p => str_eqb (Crawler.site p) site) posts
        | _ => posts
        end in
      match sort_posts sort posts with
      | Raise _ => HTTPException 500
      | Ok posts =>
          let posts :=
            match limit with
            | Some limit => if (limit =? 0)%Z then posts else slice_to limit posts
            | None => posts
            end in
          Reply (mkPosts posts (length posts) CACHE_TIMESTAMP
                   (Some (list_of_set (map Crawler.site (data_posts data)))) None)
      end
  end.

(** [get_posts_by_site(site)] *)
Definition get_posts_by_site (site : str) : http Posts :=
  match CACHED_DATA with
  | None => Reply (mkPosts [] 0 CACHE_TIMESTAMP None None)
  | Some data =>
      let filtered_posts :=
        filter (fun p => str_eqb (Crawler.site p) site) (data_posts data) in
      Reply (mkPosts filtered_posts (length filtered_posts) CACHE_TIMESTAMP None
               (Some site))
  end.

End Endpoints.

End Backend.
Import Backend.

(* ================================================================= *)
(** ** Notions used to state the properties *)

Module Notions.

(** [l1] is [l2] with some elements left out, the order kept. *)
Inductive subseq {A : Type} : list A -> list A -> Prop :=
| subseq_nil : subseq [] []
| subseq_skip (x : A) (l1 l2 : list A) : subseq l1 l2 -> subseq l1 (x :: l2)
| subseq_keep (x : A) (l1 l2 : list A) : subseq l1 l2 -> subseq (x :: l1) (x :: l2).

(** The number that a run of decimal digits writes: every digit counts
    with the power of ten of its place. *)
Definition digit_of (c : codepoint) : Z :=
  match decimal_value c with
  | Some v => Z.of_N v
  | None => 0%Z
  end.

Fixpoint numeral (ds : str) : Z :=
  match ds with
  | [] => 0%Z
  | c :: r => (digit_of c * 10 ^ Z.of_nat (length r) + numeral r)%Z
  end.

(** The first maximal run of decimal digits of a text. *)
Definition first_digit_run (s run : str) : Prop :=
  exists pre post,
    s = pre ++ run ++ post
    /\ Forall (fun c => isdecimal c = false) pre
    /\ run <> []
    /\ Forall (fun c => isdecimal c = true) run
    /\ match post with [] => True | c :: _ => isdecimal c = false end.

(** The dedupe key of a post. *)
Definition post_key (p : Post) : str := dedupe_key (url p).

(** [p] stands in [X] before every other post with its key. *)
Definition first_with_key (p : Post) (X : list Post) : Prop :=
  exists before after,
    X = before ++ p :: after
    /\ Forall (fun q => post_key q <> post_key p) before.

(** The url shapes with a numeric post id, as a table: the label of the
    source the shape stands for, the texts that must occur in the url, and
    the text the id follows. *)
Record id_rule : Type := mkRule {
  r_label : str;
  r_markers : list str;
  r_before_id : str }.

Definition ID_RULES : list id_rule :=
  [mkRule (u "humoruniv") [u "number="] (u "number=");
   mkRule (u "fmkorea") [u "document_srl="] (u "document_srl=");
   mkRule (u "ruliweb") [u "read/"] (u "read/");
   mkRule (u "etoland") [u "wr_id="] (u "wr_id=");
   mkRule (u "inven") [u "board/webzine/2097/"] (u "2097/");
   mkRule (u "bobaedream") [u "No="] (u "No=");
   mkRule (u "ppomppu") [u "view.php"; u "no="] (u "no=")].

Definition applies (url : str) (r : id_rule) : bool :=
  forallb (contains url) (r_markers r).

(** The label and the numeric id a url exposes: those of the first rule
    whose markers occur in the url, if digits follow its text somewhere. *)
Definition exposed_id (url : str) : option (str * str) :=
  match find (applies url) ID_RULES with
  | Some r =>
      match search_lit_digits (r_before_id r) url with
      | Some id => Some (r_label r, id)
      | None => None
      end
  | None => None
  end.

(** The url as [urlsplit] reads it: leading controls and spaces, and tabs
    and newlines anywhere, are dropped. *)
Definition url_chars (s : str) : str :=
  filter (fun c => negb (unsafe_byte c)) (dropwhile c0_or_space s).

(** The url names a scheme of its own ([javascript:], [mailto:], [ftp:], ...). *)
Definition names_scheme (s : str) : bool :=
  Url.nonempty (fst (split_scheme [] (url_chars s))).

(** The scheme a url names, if it names one. *)
Definition scheme_of (s : str) : option str :=
  if names_scheme s then Some (fst (split_scheme [] (url_chars s))) else None.

(** A well-formed scheme: a letter, then scheme characters. *)
Definition is_scheme (sch : str) : bool :=
  match sch with
  | c :: _ => ascii_alpha c && forallb scheme_char sch
  | [] => false
  end.

(** An http or https address to resolve links against. *)
Definition http_base (base : str) : Prop :=
  startswith base (u "http") = true
  /\ exists b, urlparse base [] = Ok b
               /\ (p_scheme b = u "http" \/ p_scheme b = u "https").

(** A candidate passes the filters of a resolver: it is not empty, does not
    start with [data:], and its lower-case form contains none of the
    patterns. *)
Definition passes (patterns : list str) (src : str) : Prop :=
  src <> []
  /\ startswith src (u "data:") = false
  /\ contains_any (lower src) patterns = false.

(** The image declares no width and no height below the limit. *)
Definition not_declared_below (limit : Z) (img : node) : Prop :=
  declared_below limit (get_or img (u "width") []) = Ok false
  /\ declared_below limit (get_or img (u "height") []) = Ok false.

(** [r] begins with [http], or is [src] unchanged, [src] naming a scheme of
    its own. *)
Definition http_or_own_scheme (src r : str) : Prop :=
  startswith r (u "http") = true \/ (r = src /\ names_scheme src = true).

(** The adapters. *)
Inductive adapter : Type :=
| fmkorea | humoruniv | ruliweb | etoland | inven | dcinside | clien
| dogdrip | theqoo | mlbpark | cook82 | damoang | ddanzi | bobaedream
| ppomppu | slrclub.

Definition parse_of (unquote quote_plus : str -> str) (a : adapter)
  : str -> tag -> result (list Post) :=
  match a with
  | fmkorea => parse_fmkorea
  | humoruniv => parse_humoruniv
  | ruliweb => parse_ruliweb
  | etoland => parse_etoland
  | inven => parse_inven
  | dcinside => parse_dcinside
  | clien => parse_clien
  | dogdrip => parse_dogdrip
  | theqoo => parse_theqoo
  | mlbpark => parse_mlbpark
  | cook82 => parse_82cook
  | damoang => parse_damoang
  | ddanzi => parse_ddanzi
  | bobaedream => parse_bobaedream
  | ppomppu => parse_ppomppu unquote quote_plus
  | slrclub => parse_slrclub
  end.

(** The least length of a title, by adapter. *)
Definition min_title (a : adapter) : nat :=
  match a with
  | fmkorea | humoruniv | slrclub => 3
  | _ => 5
  end.

(** An address that is not empty and begins with [http] or names a scheme
    of its own. *)
Definition url_ok (url : str) : Prop :=
  url <> [] /\ (startswith url (u "http") = true \/ names_scheme url = true).

(** The site name an adapter writes into its records. *)
Definition site_of (a : adapter) : str :=
  match a with
  | fmkorea => u "fmkorea"
  | humoruniv => u "humoruniv"
  | ruliweb => u "ruliweb"
  | etoland => u "etoland"
  | inven => u "inven"
  | dcinside => u "dcinside"
  | clien => u "clien"
  | dogdrip => u "dogdrip"
  | theqoo => u "theqoo"
  | mlbpark => u "mlbpark"
  | cook82 => u "82cook"
  | damoang => u "damoang"
  | ddanzi => u "ddanzi"
  | bobaedream => u "bobaedream"
  | ppomppu => u "ppomppu"
  | slrclub => u "slrclub"
  end.

(** The count is known and not below the limit. *)
Definition at_least (limit : Z) (v : option Z) : Prop :=
  exists n, v = Some n /\ (limit <= n)%Z.

(** The popularity filters of the adapters that have one: inven keeps posts
    with 3000 views or more that are not written by the site's staff,
    damoang posts with five comments or more, bobaedream posts with three
    recommendations or more (or from a row without that cell). *)
Definition site_filter (a : adapter) (p : Post) : Prop :=
  match a with
  | inven =>
      at_least 3000 (views p)
      /\ (forall name, author p = Some name -> contains name (u "인벤운영팀") = false)
  | damoang => at_least 5 (comments p) /\ views p = None /\ likes p = None
  | bobaedream => likes p = None \/ at_least 3 (likes p)
  | _ => True
  end.

(** The adapters of the sites that [SITES] lists. *)
Definition crawled : list adapter :=
  [fmkorea; humoruniv; ruliweb; etoland; inven; clien; mlbpark; ddanzi;
   bobaedream; ppomppu; slrclub].

(** A record as the adapter [a] builds it: labelled with the site of [a],
    with an address that is in order, a title of the minimum length (but
    for inven), and having passed the filter of the site. *)
Definition record_of (a : adapter) (p : Post) : Prop :=
  site p = site_of a
  /\ url_ok (url p)
  /\ (a <> inven -> min_title a <= length (title p))
  /\ site_filter a p.

(** What a source adds to the result of [crawl_all]. *)
Definition contribution (now : str) (attempt : result (option (list Post)))
  : list Post :=
  match attempt with
  | Ok (Some posts) => map (to_dict now) (firstn 30 posts)
  | _ => []
  end.

(** What one declaration of a style adds to [safe_parts]: the body of the
    loop of [_sanitize_css]. *)
Definition declaration_parts (declaration : str) : list (str * str) :=
  let declaration := strip declaration in
  if empty declaration || negb (Url.has_char 0x3A%N declaration) then []
  else
    let '(prop, value) := partition 0x3A%N declaration in
    let prop := lower (strip prop) in
    let value := strip value in
    if contains_any (lower value) CSS_DANGER then []
    else if mem prop ALLOWED_CSS_PROPS then [(prop, value)]
    else [].

(** The properties of the allow-list are written in lower case, without
    white space, colon or semicolon. *)
Definition plain_property (p : str) : bool :=
  Url.nonempty p && str_eqb (lower (strip p)) p && str_eqb (lstrip p) p
  && negb (Url.has_char 0x3A%N p) && negb (Url.has_char 0x3B%N p).

(** A declaration as [_sanitize_css] writes it. *)
Definition written (pv : str * str) : str := fst pv ++ u ": " ++ snd pv.

(** A text without white space at its ends. *)
Definition trimmed (v : str) : Prop := lstrip v = v /\ rstrip v = v.

(** A declaration that [_sanitize_css] lets through: an allowed property,
    and a value without white space at its ends, without semicolon, and
    without any of the four tokens in its lower-case form. *)
Definition safe_declaration (pv : str * str) : Prop :=
  In (fst pv) ALLOWED_CSS_PROPS
  /\ contains_any (lower (snd pv)) CSS_DANGER = false
  /\ trimmed (snd pv)
  /\ Url.has_char 0x3B%N (snd pv) = false.

(** The name and the attributes of an element. *)
Definition elem_name (n : node) : str :=
  match n with
  | Elem nm _ _ => nm
  | _ => []
  end.

Definition elem_attrs (n : node) : list (str * str) :=
  match n with
  | Elem _ attrs _ => attrs
  | _ => []
  end.

(** Every element of a tree, its root included, satisfies [P]. *)
Fixpoint every_elem (P : str -> list (str * str) -> bool) (n : node) : bool :=
  match n with
  | Elem nm attrs kids => P nm attrs && forallb (every_elem P) kids
  | _ => true
  end.

(** An element within the allow-lists of the sanitiser: its name is an
    allowed tag, the names of its attributes are allowed for this tag, and
    its style, if it has one, is a text that [_sanitize_css] leaves as it
    is. *)
Definition within_allow_lists (nm : str) (attrs : list (str * str)) : bool :=
  mem nm ALLOWED_TAGS
  && forallb (fun kv => mem (fst kv) (tag_allowed nm)) attrs
  && match lookup (u "style") attrs with
     | Some v => str_eqb (_sanitize_css v) v
     | None => true
     end.

(** A link the sanitiser leaves on an anchor: it is not empty, its
    lower-case form does not begin with [javascript:], and, when there is a
    base url, it begins with [http], [mailto:] or [#], or names a scheme of
    its own. *)
Definition link_checked (base_url h : str) : bool :=
  Url.nonempty h
  && negb (startswith (lower h) (u "javascript:"))
  && (empty base_url
      || startswith_any h [u "http"; u "mailto:"; u "#"]
      || names_scheme h).

Definition anchor_checked (base_url nm : str) (attrs : list (str * str)) : bool :=
  if str_eqb nm (u "a")
  then match lookup (u "href") attrs with
       | Some h => link_checked base_url h
       | None => true
       end
  else true.

(** An address that needs no base url: it begins with [http] or names a
    scheme of its own. *)
Definition absolute_address (s : str) : bool :=
  startswith s (u "http") || names_scheme s.

(** An image as [_resolve_media] leaves it: it has a [src], lazy loading and
    no referrer, and none of the attributes the function deletes; [strict]
    asks in addition that the [src] is not empty, no [data:] url, and an
    absolute address. *)
Definition image_resolved (strict : bool) (nm : str) (attrs : list (str * str))
  : bool :=
  if str_eqb nm (u "img")
  then match lookup (u "src") attrs with
       | Some s => negb strict
                   || (Url.nonempty s && negb (startswith s (u "data:"))
                       && absolute_address s)
       | None => false
       end
       && match lookup (u "loading") attrs with
          | Some v => str_eqb v (u "lazy")
          | None => false
          end
       && match lookup (u "referrerpolicy") attrs with
          | Some v => str_eqb v (u "no-referrer")
          | None => false
          end
       && forallb (fun kv =>
                     negb (mem (fst kv)
                             (LAZY_ATTRS ++ [u "width"; u "height"; u "onclick";
                                             u "onerror"])))
                  attrs
  else true.

(** A [video] or a [source] as [_resolve_media] leaves it, under [strict]:
    its [src], if it has one that is not empty, is an absolute address. *)
Definition source_resolved (strict : bool) (name nm : str)
           (attrs : list (str * str)) : bool :=
  if str_eqb nm name
  then match lookup (u "src") attrs with
       | Some s => negb strict || empty s || absolute_address s
       | None => true
       end
  else true.

(** A video after its loop: it has controls, plays inline, and none of the
    attributes the loop deletes is left. *)
Definition video_resolved (nm : str) (attrs : list (str * str)) : bool :=
  if str_eqb nm (u "video")
  then match lookup (u "controls") attrs with Some _ => true | None => false end
       && match lookup (u "playsinline") attrs with Some _ => true | None => false end
       && forallb (fun kv =>
                     negb (mem (fst kv) (LAZY_ATTRS ++ [u "onclick"; u "onerror"])))
                  attrs
  else true.

Definition media_resolved (strict : bool) (nm : str) (attrs : list (str * str))
  : bool :=
  image_resolved strict nm attrs
  && video_resolved nm attrs
  && source_resolved strict (u "video") nm attrs
  && source_resolved strict (u "source") nm attrs.

(** The tags of a forest: what [soup.find_all(True)] lists on the document
    with these children. *)
Definition tags_of (forest : list node) : list tag := tags_below (soup forest).

(** The posts that [get_posts] keeps for a [site]: all of them when none is
    asked for. *)
Definition of_site (site : option str) (p : Post) : bool :=
  match site with
  | Some ((_ :: _) as site) => str_eqb (Crawler.site p) site
  | _ => true
  end.

(** [sort_order sort p q]: under the order asked for, the key of [p] is less
    than that of [q]. *)
Definition sort_order (sort : option str) : Post -> Post -> bool :=
  match sort with
  | Some sort =>
      if str_eqb sort (u "views") then by_number views
      else if str_eqb sort (u "likes") then by_number likes
      else if str_eqb sort (u "comments") then by_number comments
      else by_collected_at
  | None => by_collected_at
  end.

(** Neither key is less than the other. *)
Definition same_key (sort : option str) (p q : Post) : bool :=
  negb (sort_order sort p q) && negb (sort_order sort q p).

(** The greatest key first: no post is followed by one with a greater
    key. *)
Definition descending (sort : option str) (l : list Post) : Prop :=
  forall before p after, l = before ++ p :: after ->
    forall q, In q after -> sort_order sort p q = false.

(** Posts with the same key stand in [l] as they stand in [l0]. *)
Definition stable (sort : option str) (l l0 : list Post) : Prop :=
  forall p, In p l0 -> filter (same_key sort p) l = filter (same_key sort p) l0.

(** [l] with the same posts as [l0], each as often. *)
Definition same_posts (l l0 : list Post) : Prop :=
  forall f : Post -> bool, length (filter f l) = length (filter f l0).

(** What the backfill of the thumbnails makes of one post: a post that
    has a thumbnail, or no site or no url, stays as it is; another one gets
    the thumbnail of its detail page when there is one. *)
Definition backfilled (extract_thumbnail_from_page : str -> str -> option str)
           (p : Post) : Post :=
  if truthy (thumbnail p) || empty (site p) || empty (url p) then p
  else match extract_thumbnail_from_page (url p) (site p) with
       | Some ((_ :: _) as thumb) => with_thumbnail p thumb
       | _ => p
       end.

(** The posts of a group of [by_site]. *)
Definition grouped (by_site : list (str * list nat)) (k : str) (r : nat) : Prop :=
  exists v, In (k, v) by_site /\ In r v.

(** A post to be looked up: it is at [r], lacks a thumbnail and names the
    site [k]. *)
Definition pending (posts : list Post) (k : str) (r : nat) : Prop :=
  exists p, nth_error posts r = Some p /\ truthy (thumbnail p) = false
            /\ Url.nonempty (site p) = true /\ site p = k.

(** The state of the posts once those of [done] have been looked up. *)
Definition filled_at (extract_thumbnail_from_page : str -> str -> option str)
           (posts : list Post) (done : nat -> bool) (store : list Post) : Prop :=
  forall i,
    nth_error store i
    = match nth_error posts i with
      | Some p =>
          Some (if done i then backfilled extract_thumbnail_from_page p else p)
      | None => None
      end.

End Notions.
Import Notions.

(* ================================================================= *)
(** ** Sample documents *)

Module Samples.

Definition el (nm : string) (attrs : list (string * string)) (kids : list node)
  : node :=
  Elem (u nm) (map (fun kv => (u (fst kv), u (snd kv))) attrs) kids.

Definition txt (s : string) : node := Text (u s).

Definition page (body : list node) : tag :=
  soup [el "html" [] [el "body" [] body]].

(** A listing of ddanzi with one row, its link in the [document_srl] form. *)
Definition ddanzi_listing : tag :=
  page [el "table" [("class", "fz_change")]
          [el "tr" []
             [el "td" [("class", "no")] [txt "1"];
              el "td" [("class", "title")]
                 [el "a" [("href", "/index.php?mid=free&document_srl=812345")]
                     [txt "hello world"]];
              el "td" [("class", "author")] [txt "kim"];
              el "td" [("class", "time")] [txt "12:00"];
              el "td" [("class", "voteNum")] [txt "3"];
              el "td" [("class", "readNum")] [txt "1,024"]]]]%string.

Definition ddanzi_record : Post :=
  mkPost (u "ddanzi") (u "hello world")
         (u "https://www.ddanzi.com/index.php?mid=free&document_srl=812345")
         (Some (u "kim")) None (Some 1024%Z) (Some 3%Z) None None None.

(** A listing of inven with one row, its title tagged [[유머]]. *)
Definition inven_listing : tag :=
  page [el "table" []
          [el "tr" []
             [el "td" [("class", "tit")]
                 [el "a" [("class", "subject-link");
                          ("href", "https://www.inven.co.kr/board/webzine/2097/2401")]
                     [txt "[유머] ab"]];
              el "td" [("class", "user")]
                 [el "span" [("class", "layerNickName")] [txt "lee"]];
              el "td" [("class", "view")] [txt "5,120"];
              el "td" [("class", "reco")] [txt "7"]]]]%string.

Definition inven_record : Post :=
  mkPost (u "inven") (u "ab")
         (u "https://www.inven.co.kr/board/webzine/2097/2401")
         (Some (u "lee")) None (Some 5120%Z) (Some 7%Z) None None None.

(** A listing of fmkorea with one row, its link a script. *)
Definition fmkorea_listing : tag :=
  page [el "table" [("class", "bd_lst")]
          [el "tbody" []
             [el "tr" []
                [el "td" [("class", "cate")] [txt "humor"];
                 el "td" [("class", "title")]
                    [el "a" [("class", "hx"); ("href", "javascript:void(0)")]
                        [txt "hello"]];
                 el "td" [("class", "author")] [txt "kim"];
                 el "td" [("class", "time")] [txt "12:00"];
                 el "td" [("class", "m_no")] [txt "1,024"];
                 el "td" [("class", "m_no")] [txt "3"]]]]]%string.

Definition fmkorea_record : Post :=
  mkPost (u "fmkorea") (u "hello") (u "javascript:void(0)")
         (Some (u "kim")) (Some (u "12:00")) (Some 1024%Z) (Some 3%Z) None None
         None.

(** Codecs for the samples: every known codec decodes ASCII bytes to
    themselves, and latin-1 any byte; an unknown codec name raises. *)
Definition sample_decode_strict (enc : str) (content : list N) : result str :=
  if mem enc [u "utf-8"; u "cp949"; u "euc-kr"; u "latin-1"]
  then if forallb (fun b => (b <? 0x80)%N) content || str_eqb enc (u "latin-1")
       then Ok content
       else Raise DecodeError
  else Raise DecodeError.

Definition sample_decode_lossy (enc : str) (e : errors) (content : list N) : str :=
  match e with
  | Replace => map (fun b => if (b <? 0x80)%N then b else 0xFFFD%N) content
  | Ignore => filter (fun b => (b <? 0x80)%N) content
  end.

(** A detail page of ruliweb whose body holds one video. *)
Definition video_page (poster : string) : tag :=
  page [el "div" [("class", "view_content")]
          [el "video" [("poster", poster)] []]]%string.

(** A row of a listing with one image. *)
Definition image_row (src : string) : tag :=
  mkTag (el "tr" [] [el "td" [] [el "img" [("src", src)] []]]%string) [].

(** A detail page whose container holds an icon, a small image, a photo
    and a video. *)
Definition gallery_page : tag :=
  page [el "div" [("class", "view_content")]
          [el "img" [("src", "/img/icon_new.gif")] [];
           el "img" [("src", "/files/dot.png"); ("width", "20")] [];
           el "p" [] [el "img" [("src", "//cdn.example.com/photo.jpg")] []];
           el "img" [("src", "/files/second.jpg")] [];
           el "video" [("poster", "/files/poster.jpg")] []]]%string.

(** A cache of four posts of two sites. *)
Definition cached_post (site url collected_at : string) (views : Z) : Post :=
  mkPost (u site) (u "a title of a post") (u url) None None (Some views) None None
         (Some (u collected_at)) None.

Definition sample_cache : Data :=
  mkData 4 (u "2025-02-01T10:00:05")
    [u "clien"; u "ruliweb"]
    [cached_post "clien" "https://www.clien.net/service/board/park/1"
       "2025-02-01T10:00:01" 120;
     cached_post "ruliweb" "https://bbs.ruliweb.com/best/board/300143/read/2"
       "2025-02-01T10:00:02" 5000;
     cached_post "clien" "https://www.clien.net/service/board/park/3"
       "2025-02-01T10:00:03" 120;
     cached_post "clien" "https://www.clien.net/service/board/park/4"
       "2025-02-01T10:00:04" 900].

Definition sample_list_of_set (l : list str) : list str := [u "clien"; u "ruliweb"].

(** A page with markup the sanitiser must not let through. *)
Definition hostile_page : list node :=
  [el "html" []
     [el "head" [] [el "script" [] [txt "alert(1)"]];
      el "body" [("onload", "alert(2)")]
        [el "div" [("class", "post"); ("onclick", "alert(3)");
                   ("style", "color: red; background: url(javascript:alert(4)); WIDTH : 10px")]
           [el "iframe" [("src", "https://evil.example/")] [];
            el "a" [("href", "JavaScript:alert(5)")] [txt "one"];
            el "a" [("href", "/board/7"); ("target", "_blank")] [txt "two"];
            el "font" [("color", "red")] [el "b" [] [txt "three"]]]]]]%string.

Definition hostile_page_sanitized : list node :=
  [el "div" [("style", "color: red; width: 10px")]
     [txt "one";
      el "a" [("href", "https://www.clien.net/board/7")] [txt "two"];
      el "b" [] [txt "three"]]]%string.

(** The anchor of the sanitised page, as a tag of it. *)
Definition hostile_page_anchor : tag :=
  mkTag (el "a" [("href", "https://www.clien.net/board/7")] [txt "two"])%string
        (hostile_page_sanitized
           ++ [Elem (u "[document]") [] hostile_page_sanitized]).

(** A parser and a serialiser for the samples: every text parses to the
    detail page below, and a node is written as its text. *)
Definition article_page : tag :=
  page [el "div" [("class", "post_article")]
          [el "p" [] [txt "a text of more than ten characters"];
           el "img" [("src", "/data/a.jpg"); ("width", "640")] []]]%string.

Definition sample_parser (html : str) : tag := article_page.

Definition sample_render (n : node) : str := get_text (mkTag n []).

Definition sample_fetch (url : str) : result (option str) := Ok (Some (u "<html>")).

(** A container with a lazily loaded image and a video with a relative
    source. *)
Definition media_container : node :=
  (el "div" [("class", "view_content")]
     [el "img" [("src", "/img/blank.gif"); ("data-src", "//cdn.example.com/a.jpg");
                ("width", "640"); ("onerror", "this.src=1")] [];
      el "video" [("data-src", "/v/clip.mp4")]
         [el "source" [("src", "clip.webm"); ("type", "video/webm")] []]])%string.

Definition media_container_resolved : node :=
  (el "div" [("class", "view_content")]
     [el "img" [("src", "https://cdn.example.com/a.jpg"); ("loading", "lazy");
                ("referrerpolicy", "no-referrer")] [];
      el "video" [("src", "https://bbs.ruliweb.com/v/clip.mp4"); ("controls", "");
                  ("playsinline", ""); ("loading", "lazy");
                  ("referrerpolicy", "no-referrer")]
         [el "source" [("src", "https://bbs.ruliweb.com/best/board/300143/read/clip.webm");
                       ("type", "video/webm")] []]])%string.

(** A transport whose first request fails and whose later ones answer. *)
Definition flaky_get (attempt : nat) : outcome :=
  match attempt with
  | O => Failed
  | _ => Response 200 [0x68; 0x69]%N None
  end.

(** A network on which the first page of ddanzi cannot be had, while every
    other page of the drivers is answered with two bytes, which the parser
    reads as the listing of ddanzi; the sites that are fetched in one
    request, and fmkorea, cannot be reached. *)
Definition ddanzi_first_page_down (url : str) : outcome :=
  if str_eqb url (u "https://www.ddanzi.com/free") then Failed
  else Response 200 [0x68; 0x69]%N None.

Definition unreachable (url : str) (attempt : nat) : outcome := Failed.

Definition no_session (url : str) : outcome := Failed.

Definition ddanzi_parser (html : str) : tag := ddanzi_listing.

Definition raises_from_400 (status_code : Z) : bool := (400 <=? status_code)%Z.

End Samples.
Import Samples.

(* ================================================================= *)
(** * Properties *)

(** ** Strings *)

Lemma str_eqb_eq (a b : str) : str_eqb a b = true <-> a = b.
Proof.
  revert b; induction a as [|c a IH]; intros [|d b]; simpl; split; intro H;
    try reflexivity; try discriminate.
  - apply andb_true_iff in H. destruct H as [H1 H2]. apply N.eqb_eq in H1.
    apply IH in H2. congruence.
  - injection H as E1 E2. subst. rewrite N.eqb_refl. simpl. apply IH. reflexivity.
Qed.

Lemma str_eqb_refl (a : str) : str_eqb a a = true.
Proof. apply str_eqb_eq. reflexivity. Qed.

Lemma mem_In (x : str) (l : list str) : mem x l = true <-> In x l.
Proof.
  unfold mem. rewrite existsb_exists. split.
  - intros [y [Hy E]]. apply str_eqb_eq in E. subst. exact Hy.
  - intro H. exists x. split; [exact H | apply str_eqb_refl].
Qed.

Lemma startswith_app (a b p : str) :
  startswith a p = true -> startswith (a ++ b) p = true.
Proof.
  revert a; induction p as [|c p IH]; intros [|d a]; simpl; intro H;
    try reflexivity; try discriminate.
  apply andb_true_iff in H as [H1 H2]. rewrite H1. simpl. apply IH, H2.
Qed.

Lemma startswith_refl_app (p b : str) : startswith (p ++ b) p = true.
Proof.
  induction p as [|c p IH]; simpl; [reflexivity|].
  rewrite N.eqb_refl. exact IH.
Qed.

Lemma startswith_trans (s p q : str) :
  startswith s p = true -> startswith p q = true -> startswith s q = true.
Proof.
  revert s p; induction q as [|c q IH]; intros [|d s] [|e p]; simpl;
    intros H1 H2; try reflexivity; try discriminate.
  apply andb_true_iff in H1 as [A1 A2]. apply andb_true_iff in H2 as [B1 B2].
  apply N.eqb_eq in A1, B1. subst. rewrite N.eqb_refl. simpl.
  eapply IH; eassumption.
Qed.

Lemma takewhile_dropwhile (f : codepoint -> bool) (s : str) :
  takewhile f s ++ dropwhile f s = s.
Proof.
  induction s as [|c s IH]; simpl; [reflexivity|].
  destruct (f c); simpl; [rewrite IH|]; reflexivity.
Qed.

Lemma takewhile_all (f : codepoint -> bool) (s : str) :
  Forall (fun c => f c = true) (takewhile f s).
Proof.
  induction s as [|c s IH]; simpl; [constructor|].
  destruct (f c) eqn:E; constructor; assumption.
Qed.

Lemma dropwhile_head (f : codepoint -> bool) (s : str) :
  match dropwhile f s with
  | [] => True
  | c :: _ => f c = false
  end.
Proof.
  induction s as [|c s IH]; simpl; [exact I|].
  destruct (f c) eqn:E; [exact IH | exact E].
Qed.

(** The characters that [str.isspace] accepts. *)
Lemma isspace_cases (c : codepoint) :
  isspace c = true ->
  In c [0x09; 0x0A; 0x0B; 0x0C; 0x0D; 0x1C; 0x1D; 0x1E; 0x1F; 0x20; 0x85; 0xA0;
        0x1680; 0x2000; 0x2001; 0x2002; 0x2003; 0x2004; 0x2005; 0x2006; 0x2007;
        0x2008; 0x2009; 0x200A; 0x2028; 0x2029; 0x202F; 0x205F; 0x3000]%N.
Proof.
  unfold isspace. intro H.
  repeat (apply orb_true_iff in H; destruct H as [H|H]);
    repeat (apply andb_true_iff in H; destruct H as [? H]);
    repeat match goal with
           | E : (_ <=? _)%N = true |- _ => apply N.leb_le in E
           | E : (_ =? _)%N = true |- _ => apply N.eqb_eq in E
           end;
    cbn [In]; lia.
Qed.

Lemma isspace_not_decimal (c : codepoint) : isspace c = true -> isdecimal c = false.
Proof.
  intro H. apply isspace_cases in H.
  repeat (destruct H as [<- | H]; [vm_compute; reflexivity|]).
  destruct H.
Qed.

(** [str.lower] on ASCII: the letters [A] to [Z] are mapped, character by
    character. *)
Lemma lower_from_cons_ascii (c : codepoint) (s : str) (st : bool) :
  (c <? 0x80)%N = true ->
  lower_from st (c :: s)
  = lower_char c :: lower_from (if case_ignorable c then st else cased c) s.
Proof.
  intro H. cbn [lower_from]. unfold lower_full, lower_code. rewrite H.
  apply N.ltb_lt in H.
  replace (c =? 0x3A3)%N with false by (symmetry; apply N.eqb_neq; lia).
  replace (c =? 0x130)%N with false by (symmetry; apply N.eqb_neq; lia).
  reflexivity.
Qed.

Lemma lower_from_ascii (s : str) :
  forallb (fun c => (c <? 0x80)%N) s = true ->
  forall st, lower_from st s = map lower_char s.
Proof.
  induction s as [|c s IH]; cbn [forallb]; intros H st; [reflexivity|].
  apply andb_true_iff in H. destruct H as [Hc H].
  rewrite (@lower_from_cons_ascii c s st Hc), (IH H). reflexivity.
Qed.

Lemma lower_ascii (s : str) :
  forallb (fun c => (c <? 0x80)%N) s = true -> lower s = map lower_char s.
Proof. intro H. apply (@lower_from_ascii s H). Qed.

(** The lower-case form of a text that begins with ASCII characters begins
    with their lower-case forms. *)
Lemma lower_from_app_ascii (a : str) :
  forallb (fun c => (c <? 0x80)%N) a = true ->
  forall b st, exists st', lower_from st (a ++ b) = map lower_char a ++ lower_from st' b.
Proof.
  induction a as [|c a IH]; cbn [forallb app map]; intros H b st.
  - exists st. reflexivity.
  - apply andb_true_iff in H. destruct H as [Hc H].
    rewrite (@lower_from_cons_ascii c (a ++ b) st Hc).
    destruct (IH H b (if case_ignorable c then st else cased c)) as [st' E].
    exists st'. rewrite E. reflexivity.
Qed.

Lemma ascii_alpha_ascii (c : codepoint) :
  ascii_alpha c = true -> (c <? 0x80)%N = true.
Proof.
  unfold ascii_alpha, is_lower, is_upper. intro H. apply N.ltb_lt.
  apply orb_true_iff in H. destruct H as [H|H];
    apply andb_true_iff in H; destruct H as [H1 H2];
    apply N.leb_le in H1; apply N.leb_le in H2; lia.
Qed.

Lemma lstrip_decompose (s : str) :
  exists a, s = a ++ lstrip s /\ Forall (fun c => isspace c = true) a.
Proof.
  exists (takewhile isspace s). split.
  - unfold lstrip. symmetry. apply takewhile_dropwhile.
  - apply takewhile_all.
Qed.

Lemma rstrip_decompose (s : str) :
  exists b, s = rstrip s ++ b /\ Forall (fun c => isspace c = true) b.
Proof.
  induction s as [|c s IH]; cbn [rstrip].
  - exists []. split; [reflexivity | constructor].
  - destruct IH as [b [E Hb]]. destruct (rstrip s) as [|d r'] eqn:Er.
    + destruct (isspace c) eqn:Ec.
      * exists (c :: s). split; [reflexivity|].
        constructor; [exact Ec|]. rewrite E. exact Hb.
      * exists b. split; [rewrite E at 1; reflexivity | exact Hb].
    + exists b. split; [rewrite E at 1; reflexivity | exact Hb].
Qed.

Lemma strip_decompose (s : str) :
  exists a b, s = a ++ strip s ++ b
              /\ Forall (fun c => isspace c = true) a
              /\ Forall (fun c => isspace c = true) b.
Proof.
  destruct (lstrip_decompose s) as [a [Ea Ha]].
  destruct (rstrip_decompose (lstrip s)) as [b [Eb Hb]].
  exists a, b. unfold strip. rewrite <- Eb. auto.
Qed.

Lemma digits_value_from (ds : str) :
  forall acc,
    fold_left (fun a c => (10 * a + match decimal_value c with
                                    | Some v => Z.of_N v
                                    | None => 0
                                    end)%Z) ds acc
    = (acc * 10 ^ Z.of_nat (length ds) + numeral ds)%Z.
Proof.
  induction ds as [|c ds IH]; intro acc; cbn [fold_left numeral length].
  - cbn. lia.
  - rewrite IH. unfold digit_of.
    replace (Z.of_nat (S (length ds))) with (Z.succ (Z.of_nat (length ds))) by lia.
    rewrite Z.pow_succ_r by lia. lia.
Qed.

Lemma digits_value_numeral (ds : str) : digits_value ds = numeral ds.
Proof. unfold digits_value. rewrite digits_value_from. lia. Qed.

Lemma numeral_nonneg (ds : str) : (0 <= numeral ds)%Z.
Proof.
  induction ds as [|c ds IH]; cbn [numeral]; [lia|].
  assert (0 <= digit_of c)%Z
    by (unfold digit_of; destruct (decimal_value c); lia).
  assert (0 <= 10 ^ Z.of_nat (length ds))%Z by (apply Z.pow_nonneg; lia).
  nia.
Qed.

(** [int] on a run of decimal digits: the number it writes, unless the run
    is longer than 4300 digits. *)
Lemma int_of_digits_run (ds : str) :
  ds <> [] -> Forall (fun c => isdecimal c = true) ds ->
  int_of_digits ds
  = if (int_max_str_digits <? length ds)%nat then Raise ValueError
    else Ok (numeral ds).
Proof.
  intros Hne Hds. unfold int_of_digits.
  destruct (int_max_str_digits <? length ds)%nat; [reflexivity|].
  assert (E : forallb isdecimal ds = true) by (apply forallb_forall, Forall_forall, Hds).
  rewrite E. destruct ds as [|c r]; [contradiction|].
  cbn [length Nat.eqb negb andb]. rewrite digits_value_numeral. reflexivity.
Qed.

(** What [re.search(r"(\d+)", s)] finds: the first maximal run of digits. *)
Lemma search_digits_spec (s ds : str) :
  search_digits s = Some ds -> first_digit_run s ds.
Proof.
  unfold first_digit_run.
  induction s as [|c s IH]; simpl; [discriminate|].
  destruct (isdecimal c) eqn:Ec.
  - intro H. injection H as <-. exists [], (dropwhile isdecimal s). simpl.
    rewrite takewhile_dropwhile. repeat split.
    + constructor.
    + discriminate.
    + constructor; [exact Ec | apply takewhile_all].
    + apply dropwhile_head.
  - intro H. destruct (IH H) as (pre & post & E & Hpre & Hne & Hds & Hpost).
    exists (c :: pre), post. subst s. repeat split; auto.
Qed.

Lemma search_digits_none (s : str) :
  search_digits s = None -> Forall (fun c => isdecimal c = false) s.
Proof.
  induction s as [|c s IH]; simpl; [constructor|].
  destruct (isdecimal c) eqn:Ec; [discriminate|]. intro H. constructor; auto.
Qed.

(** The first run of digits of a text, found in the text without the white
    space at its ends. *)
Lemma first_digit_run_strip (s run : str) :
  first_digit_run (strip s) run -> first_digit_run s run.
Proof.
  intros (pre & post & E & Hpre & Hne & Hds & Hpost).
  destruct (strip_decompose s) as (a & b & Et & Ha & Hb).
  exists (a ++ pre), (post ++ b). repeat split; auto.
  - rewrite Et at 1. rewrite E. repeat rewrite <- app_assoc. reflexivity.
  - apply Forall_app. split; [|exact Hpre].
    eapply Forall_impl; [|exact Ha]. apply isspace_not_decimal.
  - destruct post as [|p post']; simpl; [|exact Hpost].
    destruct b as [|b0 b']; [exact I|].
    inversion Hb; subst. apply isspace_not_decimal. assumption.
Qed.

(** [_to_int_safe] on a text that is not empty, by the first run of digits
    of the text without its commas. *)
Lemma to_int_safe_cases (text : str) :
  text <> [] ->
  (_to_int_safe (Some text) = Ok None
   /\ Forall (fun c => isdecimal c = false) (strip (remove_char 0x2C%N text)))
  \/ exists run,
       first_digit_run (remove_char 0x2C%N text) run
       /\ _to_int_safe (Some text)
          = if (int_max_str_digits <? length run)%nat then Raise ValueError
            else Ok (Some (numeral run)).
Proof.
  intro Hne. unfold _to_int_safe. destruct text as [|c0 text0]; [contradiction|].
  set (text := c0 :: text0).
  destruct (search_digits (strip (remove_char 0x2C%N text))) as [ds|] eqn:Es.
  - right. exists ds. pose proof (search_digits_spec _ Es) as Hrun.
    split; [apply first_digit_run_strip, Hrun|].
    destruct Hrun as (pre & post & _ & _ & Hn & Hds & _).
    rewrite (@int_of_digits_run ds Hn Hds).
    destruct (int_max_str_digits <? length ds)%nat; reflexivity.
  - left. split; [reflexivity | apply search_digits_none, Es].
Qed.

(** ** Numeric metadata *)

(** C6. [_to_int_safe] gives 1234 on "1,234회" and 12 on "[12]", gives none on
    an empty text and on an absent one, and whenever it gives a value, that
    value is a non-negative integer, the number that the first maximal run
    of decimal digits of the text without its commas writes.  It gives no
    value but raises [ValueError] exactly when that run has more than 4300
    digits. *)
Theorem to_int_safe_first_digit_run :
  _to_int_safe (Some (u "1,234회")) = Ok (Some 1234%Z)
  /\ _to_int_safe (Some (u "[12]")) = Ok (Some 12%Z)
  /\ _to_int_safe (Some []) = Ok None
  /\ _to_int_safe None = Ok None
  /\ (forall text v,
        _to_int_safe (Some text) = Ok (Some v) ->
        (0 <= v)%Z
        /\ exists run,
             first_digit_run (remove_char 0x2C%N text) run
             /\ length run <= int_max_str_digits
             /\ v = numeral run)
  /\ (forall text e,
        _to_int_safe (Some text) = Raise e ->
        e = ValueError
        /\ exists run,
             first_digit_run (remove_char 0x2C%N text) run
             /\ int_max_str_digits < length run).
Proof.
  split; [vm_compute; reflexivity|]. split; [vm_compute; reflexivity|].
  split; [reflexivity|]. split; [reflexivity|]. split.
  - intros text v H.
    assert (Hne : text <> []) by (intros ->; discriminate).
    destruct (@to_int_safe_cases text Hne) as [[E _] | (run & Hrun & E)];
      rewrite E in H; [discriminate|].
    destruct (int_max_str_digits <? length run)%nat eqn:El; [discriminate|].
    injection H as <-. apply Nat.ltb_ge in El.
    split; [apply numeral_nonneg|]. exists run. auto.
  - intros text e H.
    assert (Hne : text <> []) by (intros ->; discriminate).
    destruct (@to_int_safe_cases text Hne) as [[E _] | (run & Hrun & E)];
      rewrite E in H; [discriminate|].
    destruct (int_max_str_digits <? length run)%nat eqn:El; [|discriminate].
    injection H as <-. apply Nat.ltb_lt in El.
    split; [reflexivity|]. exists run. auto.
Qed.

Lemma to_int_safe_first_digit_run_witness : (0 <= 1234)%Z.
Proof.
  destruct to_int_safe_first_digit_run as (_ & _ & _ & _ & H & _).
  destruct (H (u "1,234회") 1234%Z) as [Hv _]; [vm_compute; reflexivity | exact Hv].
Defined.

(** ** Deduplication *)

Lemma mem_cons (k k' : str) (seen : list str) :
  mem k (k' :: seen) = str_eqb k k' || mem k seen.
Proof. reflexivity. Qed.

Lemma dedupe_from_subseq (X : list Post) :
  forall seen, subseq (dedupe_from seen X) X.
Proof.
  induction X as [|x X IH]; intro seen; simpl; [constructor|].
  destruct (mem (dedupe_key (url x)) seen); constructor; apply IH.
Qed.

Lemma dedupe_from_In (X : list Post) :
  forall seen p, In p (dedupe_from seen X) -> In p X.
Proof.
  induction X as [|x X IH]; intros seen p; simpl; [tauto|].
  destruct (mem (dedupe_key (url x)) seen); simpl; intro H.
  - right. eapply IH, H.
  - destruct H as [H|H]; [left; exact H | right; eapply IH, H].
Qed.

Lemma dedupe_from_unseen (X : list Post) :
  forall seen p, In p (dedupe_from seen X) -> mem (post_key p) seen = false.
Proof.
  induction X as [|x X IH]; intros seen p; simpl; [tauto|].
  destruct (mem (dedupe_key (url x)) seen) eqn:E; simpl; intro H.
  - apply IH, H.
  - destruct H as [H|H]; [subst; exact E|].
    apply IH in H. rewrite mem_cons in H. apply orb_false_iff in H. tauto.
Qed.

Lemma dedupe_from_NoDup (X : list Post) :
  forall seen, NoDup (map post_key (dedupe_from seen X)).
Proof.
  induction X as [|x X IH]; intro seen; simpl; [constructor|].
  destruct (mem (dedupe_key (url x)) seen) eqn:E; simpl; [apply IH|].
  constructor; [|apply IH].
  intro Hin. apply in_map_iff in Hin. destruct Hin as [q [Eq Hq]].
  apply dedupe_from_unseen in Hq. rewrite mem_cons in Hq.
  apply orb_false_iff in Hq. destruct Hq as [Hq _].
  unfold post_key in Eq, Hq. rewrite Eq, str_eqb_refl in Hq. discriminate.
Qed.

Lemma dedupe_from_fixed (Y : list Post) :
  forall seen,
    NoDup (map post_key Y) ->
    (forall p, In p Y -> mem (post_key p) seen = false) ->
    dedupe_from seen Y = Y.
Proof.
  induction Y as [|y Y IH]; intros seen Hnd Hun; simpl; [reflexivity|].
  inversion Hnd as [|? ? Hy Hnd']; subst.
  rewrite (Hun y (or_introl eq_refl) : mem (dedupe_key (url y)) seen = false).
  f_equal. apply IH; [exact Hnd'|].
  intros p Hp. rewrite mem_cons. apply orb_false_iff. split.
  - destruct (str_eqb (post_key p) (dedupe_key (url y))) eqn:E; [|reflexivity].
    apply str_eqb_eq in E. exfalso. apply Hy. apply in_map_iff.
    exists p. split; [exact E | exact Hp].
  - apply Hun. right. exact Hp.
Qed.

Lemma dedupe_from_covers (X : list Post) :
  forall seen q, In q X ->
    mem (post_key q) seen = true
    \/ exists p, In p (dedupe_from seen X) /\ post_key p = post_key q.
Proof.
  induction X as [|x X IH]; intros seen q; simpl; [tauto|].
  intros [H|H].
  - subst x. unfold post_key at 1.
    destruct (mem (dedupe_key (url q)) seen) eqn:E; [left; reflexivity|].
    right. exists q. split; [left; reflexivity | reflexivity].
  - destruct (mem (dedupe_key (url x)) seen) eqn:E.
    + apply IH, H.
    + destruct (IH (dedupe_key (url x) :: seen) q H) as [Hm | [p [Hp Ek]]].
      * rewrite mem_cons in Hm. apply orb_true_iff in Hm. destruct Hm as [Hm|Hm].
        -- right. exists x. split; [left; reflexivity|].
           apply str_eqb_eq in Hm. symmetry. exact Hm.
        -- left. exact Hm.
      * right. exists p. split; [right; exact Hp | exact Ek].
Qed.

Lemma dedupe_from_first (X : list Post) :
  forall seen p, In p (dedupe_from seen X) -> first_with_key p X.
Proof.
  induction X as [|x X IH]; intros seen p; simpl; [tauto|].
  destruct (mem (dedupe_key (url x)) seen) eqn:E; simpl; intro H.
  - pose proof (dedupe_from_unseen _ _ _ H) as Hun.
    destruct (IH _ _ H) as (b & a & EX & Hb).
    exists (x :: b), a. split; [rewrite EX; reflexivity|].
    constructor; [|exact Hb]. unfold post_key at 1. intro Ek.
    rewrite Ek, Hun in E. discriminate.
  - destruct H as [H|H].
    + subst x. exists [], X. split; [reflexivity | constructor].
    + pose proof (dedupe_from_unseen _ _ _ H) as Hun.
      destruct (IH _ _ H) as (b & a & EX & Hb).
      exists (x :: b), a. split; [rewrite EX; reflexivity|].
      constructor; [|exact Hb]. unfold post_key at 1. intro Ek.
      rewrite mem_cons, <- Ek in Hun. unfold post_key in Hun.
      rewrite str_eqb_refl in Hun. discriminate.
Qed.

(** C3. [dedupe_posts] is idempotent; its result is the input with posts
    left out and the order kept; the kept posts have pairwise different
    keys, every key of the input is kept, and each kept post is the first
    post of the input with its key. *)
Theorem dedupe_posts_idempotent_stable (X : list Post) :
  dedupe_posts (dedupe_posts X) = dedupe_posts X
  /\ subseq (dedupe_posts X) X
  /\ NoDup (map post_key (dedupe_posts X))
  /\ (forall q, In q X ->
        exists p, In p (dedupe_posts X) /\ post_key p = post_key q)
  /\ (forall p, In p (dedupe_posts X) -> first_with_key p X).
Proof.
  unfold dedupe_posts. repeat split.
  - apply dedupe_from_fixed; [apply dedupe_from_NoDup | reflexivity].
  - apply dedupe_from_subseq.
  - apply dedupe_from_NoDup.
  - intros q Hq. destruct (dedupe_from_covers X [] q Hq) as [H|H];
      [discriminate | exact H].
  - intros p Hp. eapply dedupe_from_first, Hp.
Qed.

(** The key as the table of url shapes gives it. *)
Lemma dedupe_key_by_rule (url : str) :
  dedupe_key url =
  match exposed_id url with
  | Some (label, id) => label ++ u "_" ++ id
  | None => url
  end.
Proof.
  unfold dedupe_key, exposed_id, ID_RULES, keyed.
  cbn [find applies forallb r_markers r_label r_before_id].
  repeat rewrite andb_true_r.
  repeat (match goal with
          | |- context [contains url ?m] => destruct (contains url m) eqn:?
          end;
          cbn [find applies forallb andb r_markers r_label r_before_id]);
  try match goal with
      | |- context [search_lit_digits ?l url] =>
          destruct (search_lit_digits l url) eqn:?
      end; reflexivity.
Qed.

(** C5, as the code does it.  The key of a record is [label_id] for the
    label and the id its url exposes, where the label is the one of the url
    shape, whatever the source of the record; it is the url itself when the
    url exposes no id. *)
Theorem dedupe_key_from_url_shape (p : Post) :
  post_key p =
  match exposed_id (url p) with
  | Some (label, id) => label ++ u "_" ++ id
  | None => url p
  end.
Proof. apply dedupe_key_by_rule. Qed.

(** Splitting a conjunction of facts that are settled by evaluation. *)
Ltac conjuncts := repeat match goal with |- _ /\ _ => split end.

(** C5, as the claim states it, fails: the record that [parse_ddanzi] builds
    from [ddanzi_listing] is of source ddanzi, its url exposes the id 812345
    in the [document_srl] parameter, and its key is [fmkorea_812345], not
    [ddanzi_812345]. *)
Lemma ddanzi_key_is_labelled_fmkorea :
  parse_ddanzi (u "https://www.ddanzi.com/free") ddanzi_listing = Ok [ddanzi_record]
  /\ site ddanzi_record = u "ddanzi"
  /\ exposed_id (url ddanzi_record) = Some (u "fmkorea", u "812345")
  /\ post_key ddanzi_record = u "fmkorea_812345"
  /\ post_key ddanzi_record <> site ddanzi_record ++ u "_" ++ u "812345".
Proof.
  conjuncts; try (vm_compute; reflexivity). vm_compute. discriminate.
Qed.

(** ** The orchestrator *)

Section OrchestratorFacts.

Variable BeautifulSoup : str -> tag.
Variable fetch_html : str -> result (option str).
Variables crawl_damoang_multi_pages crawl_bobaedream_multi_pages crawl_fmkorea
          crawl_humoruniv_multi_pages crawl_ddanzi_multi_pages
          crawl_ppomppu_multi_pages : result (list Post).
Variable now : str.
Variables unquote quote_plus : str -> str.

Let attempt (s : str * str * parser_t) : result (option (list Post)) :=
  crawl_attempt fetch_html crawl_damoang_multi_pages
    crawl_bobaedream_multi_pages crawl_fmkorea crawl_humoruniv_multi_pages
    crawl_ddanzi_multi_pages crawl_ppomppu_multi_pages
    (fst (fst s)) (snd (fst s)) (snd s).

Let crawl_site (s : str * str * parser_t) : result (list Post) :=
  _crawl_site fetch_html crawl_damoang_multi_pages
    crawl_bobaedream_multi_pages crawl_fmkorea crawl_humoruniv_multi_pages
    crawl_ddanzi_multi_pages crawl_ppomppu_multi_pages now
    (fst (fst s)) (snd (fst s)) (snd s).

Let sites : list (str * str * parser_t) :=
  SITES BeautifulSoup unquote quote_plus.

Let all : result (list Post) :=
  crawl_all BeautifulSoup fetch_html crawl_damoang_multi_pages
    crawl_bobaedream_multi_pages crawl_fmkorea crawl_humoruniv_multi_pages
    crawl_ddanzi_multi_pages crawl_ppomppu_multi_pages now unquote quote_plus.

Lemma crawl_site_contribution (s : str * str * parser_t) :
  crawl_site s = Ok (contribution now (attempt s)).
Proof.
  unfold crawl_site, _crawl_site, attempt, contribution.
  destruct (crawl_attempt _ _ _ _ _ _ _ _ _ _) as [[posts|]|e]; reflexivity.
Qed.

Lemma collect_contributions (l : list (str * str * parser_t)) :
  forall acc,
    fold_left (fun results res =>
                 match res with
                 | Raise _ => results
                 | Ok r => results ++ r
                 end) (map crawl_site l) acc
    = acc ++ flat_map (fun s => contribution now (attempt s)) l.
Proof.
  induction l as [|s l IH]; intro acc; simpl.
  - rewrite app_nil_r. reflexivity.
  - rewrite crawl_site_contribution, IH, app_assoc. reflexivity.
Qed.

Lemma crawl_all_contributions :
  all = Ok (flat_map (fun s => contribution now (attempt s)) sites).
Proof.
  unfold all, crawl_all, gather. f_equal.
  exact (collect_contributions sites []).
Qed.

Lemma contribution_length (a : result (option (list Post))) :
  length (contribution now a) <= 30.
Proof.
  destruct a as [[posts|]|e]; unfold contribution; cbn [length]; try lia.
  rewrite length_map, length_firstn. lia.
Qed.

(** Over any transport and any drivers: [_crawl_site] never raises.  A
    source whose [try] block raises, or whose fetch gives nothing, adds no
    record.  [crawl_all] never raises, and its result consists of what each
    source adds, in the order of [SITES]: a failed source leaves the records
    of the others in. *)
Theorem source_failure_is_isolated :
  (forall s, exists records, crawl_site s = Ok records)
  /\ (forall s e, attempt s = Raise e -> crawl_site s = Ok [])
  /\ (forall s, attempt s = Ok None -> crawl_site s = Ok [])
  /\ (exists records,
        all = Ok records
        /\ records = flat_map (fun s => contribution now (attempt s)) sites
        /\ forall s p, In s sites -> In p (contribution now (attempt s)) ->
                       In p records).
Proof.
  repeat split.
  - intro s. eexists. apply crawl_site_contribution.
  - intros s e H. rewrite crawl_site_contribution, H. reflexivity.
  - intros s H. rewrite crawl_site_contribution, H. reflexivity.
  - eexists. split; [apply crawl_all_contributions|]. split; [reflexivity|].
    intros s p Hs Hp. apply in_flat_map. exists s. split; assumption.
Qed.

(** C10. In a run of [crawl_all] a source adds the first 30 of its posts,
    in their order, and so at most 30 records. *)
Theorem source_adds_at_most_30 :
  all = Ok (flat_map (fun s => contribution now (attempt s)) sites)
  /\ (forall s, length (contribution now (attempt s)) <= 30)
  /\ (forall s posts, attempt s = Ok (Some posts) ->
        crawl_site s = Ok (map (to_dict now) (firstn 30 posts))
        /\ contribution now (attempt s) = map (to_dict now) (firstn 30 posts)).
Proof.
  split; [apply crawl_all_contributions|]. split.
  - intro s. apply contribution_length.
  - intros s posts H. rewrite crawl_site_contribution, H. split; reflexivity.
Qed.

End OrchestratorFacts.

(** ** Decoding *)

Section DecodeFacts.

Variable decode_strict : str -> list N -> result str.
Variable decode_lossy : str -> errors -> list N -> str.

(** [_decode_html] (claim C7, in the form the code satisfies).  Whenever
    [urlparse] accepts the url,
    [_decode_html] returns a text, for every content and every declared
    encoding; and it raises only what [urlparse] raises on the url. *)
Theorem decode_html_total_on_parsed_url
        (url : str) (content : list N) (declared_encoding : option str) :
  (forall p, urlparse url [] = Ok p ->
     exists s, _decode_html decode_strict decode_lossy url content
                            declared_encoding = Ok s)
  /\ (forall e, urlparse url [] = Raise e ->
        _decode_html decode_strict decode_lossy url content declared_encoding
        = Raise e).
Proof.
  unfold _decode_html. split.
  - intros p Hp. rewrite Hp. cbn [bind].
    destruct (contains (p_netloc p) (u "humoruniv.com")
              || contains (p_netloc p) (u "mlbpark.donga.com")).
    + destruct (contains (p_netloc p) (u "mlbpark.donga.com")); [eexists; reflexivity|].
      destruct (first_decoding _ _ _); eexists; reflexivity.
    + destruct (first_untried_decoding _ _ _ _); eexists; reflexivity.
  - intros e He. rewrite He. reflexivity.
Qed.

End DecodeFacts.

Lemma decode_html_total_on_parsed_url_witness :
  exists s, _decode_html sample_decode_strict sample_decode_lossy
              (u "https://www.clien.net/service/board/park") [0x68; 0x69]%N
              (Some (u "no-such-codec")) = Ok s.
Proof.
  destruct (decode_html_total_on_parsed_url sample_decode_strict
              sample_decode_lossy (u "https://www.clien.net/service/board/park")
              [0x68; 0x69]%N (Some (u "no-such-codec"))) as [H _].
  eapply H. vm_compute. reflexivity.
Defined.

(** C7, as the claim states it, fails: on a url with an unmatched square
    bracket in its authority, [urlparse] raises [ValueError] and so does
    [_decode_html], whatever the bytes and the codecs. *)
Lemma decode_html_raises_on_bad_url :
  _decode_html sample_decode_strict sample_decode_lossy (u "http://[") [0x68; 0x69]%N
               None = Raise ValueError.
Proof. vm_compute. reflexivity. Qed.

(** ** Urls *)

Lemma nonempty_app_l (a b : str) : Url.nonempty a = true -> Url.nonempty (a ++ b) = true.
Proof. destruct a; simpl; [discriminate | reflexivity]. Qed.

Lemma startswith_nonempty (s p : str) :
  Url.nonempty p = true -> startswith s p = true -> Url.nonempty s = true.
Proof. destruct p, s; simpl; try discriminate; reflexivity. Qed.

Lemma urlunsplit_prefix (sch nl url qry frag p : str) :
  Url.nonempty sch = true -> startswith sch p = true ->
  startswith (urlunsplit sch nl url qry frag) p = true.
Proof.
  intros Hne Hp. unfold urlunsplit. cbv zeta. rewrite Hne. cbn [andb].
  match goal with
  | |- context [sch ++ u ":" ++ ?b] => generalize b; intro body
  end.
  assert (H : startswith (sch ++ u ":" ++ body) p = true)
    by (apply startswith_app, Hp).
  destruct (Url.nonempty qry), (Url.nonempty frag);
    first [ exact H
          | apply startswith_app;
            first [exact H | apply startswith_app; exact H] ].
Qed.

Lemma urlunparse_prefix (sch nl url params qry frag p : str) :
  Url.nonempty sch = true -> startswith sch p = true ->
  startswith (urlunparse sch nl url params qry frag) p = true.
Proof. intros. unfold urlunparse. apply urlunsplit_prefix; assumption. Qed.

(** [split_scheme] either finds no scheme and hands back its arguments, or
    finds one, the same whatever the default. *)
Lemma split_scheme_cases (d s : str) :
  split_scheme d s = (d, s)
  \/ exists sch rest,
       Url.nonempty sch = true
       /\ forall d', split_scheme d' s = (sch, rest).
Proof.
  unfold split_scheme. destruct (has_char 0x3A%N s); [|left; reflexivity].
  destruct (takewhile _ s) as [|c pre] eqn:E; [left; reflexivity|].
  destruct (ascii_alpha c && forallb scheme_char (c :: pre)) eqn:Hs;
    [|left; reflexivity].
  right. eexists; eexists. split; [|intro d'; reflexivity].
  apply andb_true_iff in Hs. destruct Hs as [Ha _].
  unfold lower. rewrite (@lower_from_cons_ascii c pre false (@ascii_alpha_ascii c Ha)).
  reflexivity.
Qed.

Lemma urlsplit_scheme (url d : str) (r : SplitResult) :
  urlsplit url d = Ok r ->
  scheme r = fst (split_scheme
                    (filter (fun c => negb (unsafe_byte c))
                       (rev (dropwhile c0_or_space (rev (dropwhile c0_or_space d)))))
                    (url_chars url)).
Proof.
  unfold urlsplit, url_chars.
  destruct (split_scheme _ _) as [sch rest]. cbn [fst].
  destruct (startswith rest (u "//")).
  - destruct (_splitnetloc rest) as [nl rest'].
    destruct (_ || _); cbn [bind]; [discriminate|].
    destruct (if has_char 0x5B%N nl && has_char 0x5D%N nl
              then _check_bracketed_netloc nl else Ok tt) as [[]|];
      cbn [bind]; [|discriminate].
    destruct (partition 0x23%N rest') as [a frag].
    destruct (partition 0x3F%N a) as [pa qry].
    destruct (_checknetloc nl) as [[]|]; cbn [bind]; [|discriminate].
    intro H. injection H as <-. reflexivity.
  - cbn [bind].
    destruct (partition 0x23%N rest) as [a frag].
    destruct (partition 0x3F%N a) as [pa qry].
    destruct (_checknetloc []) as [[]|]; cbn [bind]; [|discriminate].
    intro H. injection H as <-. reflexivity.
Qed.

Lemma urlparse_scheme (url d : str) (r : ParseResult) :
  urlparse url d = Ok r ->
  p_scheme r = fst (split_scheme
                      (filter (fun c => negb (unsafe_byte c))
                         (rev (dropwhile c0_or_space (rev (dropwhile c0_or_space d)))))
                      (url_chars url)).
Proof.
  unfold urlparse. destruct (urlsplit url d) as [s|e] eqn:E; cbn [bind];
    [|discriminate].
  destruct (mem (scheme s) uses_params && has_char 0x3B%N (path s));
    [destruct (_splitparams (path s))|];
    intro H; injection H as <-; cbn [p_scheme]; apply urlsplit_scheme, E.
Qed.

(** A url whose scheme, read with the default [d], is not [d] names that
    scheme itself. *)
Lemma own_scheme (url d : str) (r : ParseResult) :
  filter (fun c => negb (unsafe_byte c))
    (rev (dropwhile c0_or_space (rev (dropwhile c0_or_space d)))) = d ->
  urlparse url d = Ok r -> p_scheme r <> d -> names_scheme url = true.
Proof.
  intros Hd Hr Hne. apply urlparse_scheme in Hr. rewrite Hd in Hr.
  unfold names_scheme.
  destruct (split_scheme_cases d (url_chars url)) as [E | (sch & rest & Hs & E)].
  - rewrite E in Hr. cbn [fst] in Hr. contradiction.
  - rewrite (E []). cbn [fst]. exact Hs.
Qed.

(** What [urljoin] gives against an http or https address: an address that
    starts with [http], or the url itself, unchanged, when it names a scheme
    of its own. *)
Lemma urljoin_http (base url r : str) :
  http_base base -> urljoin base url = Ok r ->
  startswith r (u "http") = true \/ (r = url /\ names_scheme url = true).
Proof.
  intros [Hb (b & Eb & Hs)] H. unfold urljoin in H.
  rewrite (startswith_nonempty base (u "http") eq_refl Hb) in H. cbn [negb] in H.
  destruct (Url.nonempty url) eqn:Hu; cbn [negb] in H.
  2:{ injection H as <-. left. exact Hb. }
  rewrite Eb in H. cbn [bind] in H.
  destruct (urlparse url (p_scheme b)) as [r0|e] eqn:Er; cbn [bind] in H;
    [|discriminate].
  assert (Hsch : Url.nonempty (p_scheme b) = true
                 /\ startswith (p_scheme b) (u "http") = true
                 /\ mem (p_scheme b) uses_relative = true
                 /\ filter (fun c => negb (unsafe_byte c))
                      (rev (dropwhile c0_or_space
                              (rev (dropwhile c0_or_space (p_scheme b)))))
                    = p_scheme b)
    by (destruct Hs as [-> | ->]; repeat split; reflexivity).
  destruct Hsch as (Hne & Hp & Hrel & Hnorm).
  destruct (str_eqb (p_scheme r0) (p_scheme b)) eqn:Es; cbn [negb orb] in H.
  - apply str_eqb_eq in Es. rewrite Es, Hrel in H. cbn [negb] in H.
    left.
    repeat match type of H with
           | (if ?c then _ else _) = _ => destruct c
           end;
      injection H as <-; apply urlunparse_prefix; assumption.
  - injection H as <-. right. split; [reflexivity|].
    eapply own_scheme; [exact Hnorm | exact Er |].
    intro E. rewrite E, str_eqb_refl in Es. discriminate.
Qed.

(** ** Thumbnails *)

Lemma nonempty_neq (s : str) : Url.nonempty s = true <-> s <> [].
Proof. destruct s; simpl; split; congruence. Qed.

Lemma absolute_http (base s r : str) :
  http_base base -> absolute base s = Ok r -> http_or_own_scheme s r.
Proof.
  intros Hb H. unfold absolute in H.
  destruct (startswith s (u "//")).
  - injection H as <-. left. reflexivity.
  - destruct (startswith s (u "http")) eqn:E; cbn [negb] in H.
    + injection H as <-. left. exact E.
    + eapply urljoin_http; eassumption.
Qed.

(** The step of a loop that goes on to the next candidate. *)
Ltac next_candidate IH H :=
  let x := fresh "x" in
  let Hin := fresh "Hin" in
  let Hx := fresh "Hx" in
  destruct (IH H) as [x [Hin Hx]];
  exists x; split; [right; exact Hin | exact Hx].

Lemma thumbnail_loop_candidate (base_url : str) (imgs : list tag) (r : str) :
  thumbnail_loop base_url imgs = Ok (Some r) ->
  exists img,
    In img imgs
    /\ let src := candidate_src [u "http"; u "/"] _LAZY_ATTRS (self img) in
       passes _THUMB_EXCLUDE_PATTERNS src
       /\ not_declared_below 30 (self img)
       /\ (if startswith src (u "http") then r = src
           else urljoin base_url src = Ok r).
Proof.
  induction imgs as [|img rest IH]; cbn [thumbnail_loop]; [discriminate|].
  set (src := candidate_src _ _ (self img)).
  intro H.
  destruct (Url.nonempty src) eqn:Hne; cbn [negb orb] in H; [|next_candidate IH H].
  destruct (startswith src (u "data:")) eqn:Hd; [next_candidate IH H|].
  destruct (contains_any (lower src) _THUMB_EXCLUDE_PATTERNS) eqn:Hp;
    [next_candidate IH H|].
  destruct (declared_below 30 (get_or (self img) (u "width") [])) as [[|]|] eqn:Hw;
    cbn [bind] in H; [next_candidate IH H | | discriminate].
  destruct (declared_below 30 (get_or (self img) (u "height") [])) as [[|]|] eqn:Hh;
    cbn [bind] in H; [next_candidate IH H | | discriminate].
  exists img. split; [left; reflexivity|]. fold src. cbv zeta. split.
  - split; [apply nonempty_neq, Hne | split; assumption].
  - split; [split; assumption|].
    destruct (startswith src (u "http")); cbn [negb] in H.
    + injection H as <-. reflexivity.
    + destruct (urljoin base_url src); cbn [bind] in H; [|discriminate].
      injection H as <-. reflexivity.
Qed.

Lemma first_image_candidate (base_url : str) (imgs : list tag) (r : str) :
  first_image base_url imgs = Ok (Some r) ->
  exists img,
    In img imgs
    /\ let src := candidate_src [u "http"; u "/"; u "//"] _LAZY_ATTRS (self img) in
       passes _CONTENT_EXCLUDE_PATTERNS src
       /\ not_declared_below 50 (self img)
       /\ absolute base_url src = Ok r.
Proof.
  induction imgs as [|img rest IH]; cbn [first_image]; [discriminate|].
  set (src := candidate_src _ _ (self img)).
  intro H.
  unfold empty in H.
  destruct (Url.nonempty src) eqn:Hne; cbn [negb orb] in H; [|next_candidate IH H].
  destruct (startswith src (u "data:")) eqn:Hd; [next_candidate IH H|].
  destruct (contains_any (lower src) _CONTENT_EXCLUDE_PATTERNS) eqn:Hp;
    [next_candidate IH H|].
  destruct (declared_below 50 (get_or (self img) (u "width") [])) as [[|]|] eqn:Hw;
    cbn [bind] in H; [next_candidate IH H | | discriminate].
  destruct (declared_below 50 (get_or (self img) (u "height") [])) as [[|]|] eqn:Hh;
    cbn [bind] in H; [next_candidate IH H | | discriminate].
  exists img. split; [left; reflexivity|]. fold src. cbv zeta. split.
  - split; [apply nonempty_neq, Hne | split; assumption].
  - split; [split; assumption|].
    destruct (absolute base_url src); cbn [bind] in H; [|discriminate].
    injection H as <-. reflexivity.
Qed.

Lemma first_poster_candidate (base_url : str) (videos : list tag) (r : str) :
  first_poster base_url videos = Ok (Some r) ->
  exists video,
    In video videos
    /\ let poster := get_or (self video) (u "poster") [] in
       poster <> [] /\ absolute base_url poster = Ok r.
Proof.
  induction videos as [|video rest IH]; cbn [first_poster]; [discriminate|].
  destruct (Url.nonempty (get_or (self video) (u "poster") [])) eqn:Hne.
  - intro H. exists video. split; [left; reflexivity|]. cbv zeta.
    split; [apply nonempty_neq, Hne|].
    destruct (absolute base_url _); cbn [bind] in H; [|discriminate].
    injection H as <-. reflexivity.
  - intro H. destruct (IH H) as [v [Hin Hp]].
    exists v. split; [right; exact Hin | exact Hp].
Qed.

Lemma search_lit_run_nonempty (cls : codepoint -> bool) (l s run : str) :
  search_lit_run cls l s = Some run -> run <> [].
Proof.
  induction s as [|c s IH]; cbn [search_lit_run].
  - destruct (startswith [] l); [|discriminate].
    destruct (takewhile cls (skipn (length l) [])); [discriminate|].
    intro H. injection H as <-. discriminate.
  - destruct (startswith (c :: s) l).
    + destruct (takewhile cls (skipn (length l) (c :: s))); [exact IH|].
      intro H. injection H as <-. discriminate.
    + exact IH.
Qed.

Lemma first_embed_thumbnail (iframes : list tag) (r : str) :
  first_embed iframes = Some r ->
  exists iframe id,
    In iframe iframes
    /\ (let iframe_src := get_or (self iframe) (u "src") [] in
        search_lit_run video_id_char (u "youtube.com/embed/") iframe_src = Some id
        \/ search_lit_run video_id_char (u "youtu.be/") iframe_src = Some id)
    /\ id <> [] /\ r = youtube_thumbnail id.
Proof.
  induction iframes as [|iframe rest IH]; cbn [first_embed]; [discriminate|].
  destruct (search_lit_run video_id_char (u "youtube.com/embed/") _) as [id|] eqn:E1.
  - intro H. injection H as <-. exists iframe, id.
    split; [left; reflexivity|]. split; [left; exact E1|].
    split; [eapply search_lit_run_nonempty, E1 | reflexivity].
  - destruct (search_lit_run video_id_char (u "youtu.be/") _) as [id|] eqn:E2.
    + intro H. injection H as <-. exists iframe, id.
      split; [left; reflexivity|]. split; [right; exact E2|].
      split; [eapply search_lit_run_nonempty, E2 | reflexivity].
    + intro H. destruct (IH H) as (f & id & Hin & Hs & Hid).
      exists f, id. split; [right; exact Hin | split; [exact Hs | exact Hid]].
Qed.

Lemma og_image_valid (doc : tag) (r : str) :
  og_image doc = Some r ->
  exists og_img,
    select_one [ElA "meta" (AttrEq (u "property") (u "og:image"))] doc = Some og_img
    /\ r = get_or (self og_img) (u "content") []
    /\ startswith r (u "http") = true /\ _is_valid_og_image r = true.
Proof.
  unfold og_image. destruct (select_one _ doc) as [og|]; [|discriminate].
  destruct (Url.nonempty _ && startswith _ (u "http") && _is_valid_og_image _) eqn:E;
    [|discriminate].
  intro H. injection H as <-.
  apply andb_true_iff in E. destruct E as [E E3].
  apply andb_true_iff in E. destruct E as [_ E2].
  exists og. split; [reflexivity|]. split; [reflexivity|]. split; assumption.
Qed.

(** The thumbnails (claim C8, in the form the code satisfies).  A url
    returned by the listing-row resolver comes from one of the first five
    images of the row: the candidate of that image is not empty, does not
    start with [data:] and contains none of the listing patterns in its
    lower-case form, the image declares no width and no height below 30,
    and the url is the candidate itself when it starts with [http] and its
    resolution against the base url otherwise.  A url returned by the
    detail-page resolver comes from the container that the selectors of the
    site find, or from the og:image of the page: it is the resolution of the
    candidate of one of the first ten images of the container, which passes
    the same filters with the detail-page patterns and the limit 50; or the
    resolution of the poster of one of its first five videos (no filter
    applies to a poster); or the YouTube thumbnail for the video id found
    in the address of one of its first five embedded frames; or the content
    of the og:image tag of the page, which starts with [http] and is not a
    default image.  Against an http(s) base url a resolution starts with
    [http], unless the value names a scheme of its own and is returned
    unchanged. *)
Theorem thumbnail_filters_apply_to_image_candidates :
  (forall e base_url r,
      _extract_thumbnail (Some e) base_url = Ok (Some r) ->
      exists img,
        In img (find_all_limit (u "img") 5 e)
        /\ let src := candidate_src [u "http"; u "/"] _LAZY_ATTRS (self img) in
           passes _THUMB_EXCLUDE_PATTERNS src
           /\ not_declared_below 30 (self img)
           /\ (if startswith src (u "http") then r = src
               else urljoin base_url src = Ok r)
           /\ (http_base base_url -> http_or_own_scheme src r))
  /\ (forall doc site_name base_url r,
        _extract_first_media_from_content doc site_name base_url = Ok (Some r) ->
        (exists sels content_el,
            selectors_of _CONTENT_SELECTORS site_name = Some sels
            /\ first_selected sels doc = Some content_el
            /\ ((exists img,
                    In img (find_all_limit (u "img") 10 content_el)
                    /\ let src := candidate_src [u "http"; u "/"; u "//"]
                                     _LAZY_ATTRS (self img) in
                       passes _CONTENT_EXCLUDE_PATTERNS src
                       /\ not_declared_below 50 (self img)
                       /\ absolute base_url src = Ok r
                       /\ (http_base base_url -> http_or_own_scheme src r))
                \/ (exists video,
                       In video (find_all_limit (u "video") 5 content_el)
                       /\ let poster := get_or (self video) (u "poster") [] in
                          poster <> []
                          /\ absolute base_url poster = Ok r
                          /\ (http_base base_url -> http_or_own_scheme poster r))
                \/ (exists iframe id,
                       In iframe (find_all_limit (u "iframe") 5 content_el)
                       /\ (let iframe_src := get_or (self iframe) (u "src") [] in
                           search_lit_run video_id_char (u "youtube.com/embed/")
                             iframe_src = Some id
                           \/ search_lit_run video_id_char (u "youtu.be/")
                                iframe_src = Some id)
                       /\ id <> [] /\ r = youtube_thumbnail id)))
        \/ (exists og_img,
              select_one [ElA "meta" (AttrEq (u "property") (u "og:image"))] doc
              = Some og_img
              /\ r = get_or (self og_img) (u "content") []
              /\ startswith r (u "http") = true /\ _is_valid_og_image r = true)).
Proof.
  split.
  - intros e base_url r H. cbn [_extract_thumbnail] in H.
    destruct (@thumbnail_loop_candidate _ _ _ H) as [img [Hin [Hp [Hs Hr]]]].
    exists img. split; [exact Hin|]. cbv zeta. split; [exact Hp|].
    split; [exact Hs|]. split; [exact Hr|]. intro Hb.
    destruct (startswith _ (u "http")) eqn:E.
    + left. subst r. exact E.
    + eapply urljoin_http; eassumption.
  - intros doc site_name base_url r H.
    unfold _extract_first_media_from_content in H.
    destruct (selectors_of _CONTENT_SELECTORS site_name) as [sels|] eqn:Es.
    2:{ injection H as H. right. apply (@og_image_valid _ _ H). }
    destruct (first_selected sels doc) as [content_el|] eqn:Ec.
    2:{ injection H as H. right. apply (@og_image_valid _ _ H). }
    destruct (first_image base_url _) as [[src|]|] eqn:E1; cbn [bind] in H;
      [| |discriminate].
    { injection H as <-. left. exists sels, content_el.
      split; [reflexivity|]. split; [exact Ec|]. left.
      destruct (@first_image_candidate _ _ _ E1) as [img [Hin [Hp [Hs Hr]]]].
      exists img. split; [exact Hin|]. cbv zeta. split; [exact Hp|].
      split; [exact Hs|]. split; [exact Hr|].
      intro Hb. eapply absolute_http; eassumption. }
    destruct (first_poster base_url _) as [[p|]|] eqn:E2; cbn [bind] in H;
      [| |discriminate].
    { injection H as <-. left. exists sels, content_el.
      split; [reflexivity|]. split; [exact Ec|]. right. left.
      destruct (@first_poster_candidate _ _ _ E2) as [v [Hin [Hp Hr]]].
      exists v. split; [exact Hin|]. cbv zeta. split; [exact Hp|].
      split; [exact Hr|].
      intro Hb. eapply absolute_http; eassumption. }
    destruct (first_embed _) as [t|] eqn:E3.
    { injection H as <-. left. exists sels, content_el.
      split; [reflexivity|]. split; [exact Ec|]. right. right.
      apply (@first_embed_thumbnail _ _ E3). }
    injection H as H. right. apply (@og_image_valid _ _ H).
Qed.

Lemma thumbnail_filters_apply_to_image_candidates_witness :
  exists img,
    In img (find_all_limit (u "img") 5 (image_row "/data/file/a.jpg"))
    /\ passes _THUMB_EXCLUDE_PATTERNS
         (candidate_src [u "http"; u "/"] _LAZY_ATTRS (self img)).
Proof.
  destruct thumbnail_filters_apply_to_image_candidates as [H _].
  destruct (H (image_row "/data/file/a.jpg") (u "https://www.clien.net/")
              (u "https://www.clien.net/data/file/a.jpg"))
    as [img [Hin [Hp _]]]; [vm_compute; reflexivity|].
  exists img. split; [exact Hin | exact Hp].
Defined.

(** C8, as the claim states it, fails.  The detail-page resolver returns a
    video poster as it is: one whose url contains the pattern [icon], and one
    that is a [data:] url.  The listing-row resolver returns a url with the
    pattern [/img/rank/] when the candidate reaches it through a [..]
    segment. *)
Lemma poster_is_returned_unfiltered :
  _extract_first_media_from_content
    (video_page "https://cdn.example.com/icon.png") (u "ruliweb")
    (u "https://bbs.ruliweb.com/best/board/300143/read/1") =
  Ok (Some (u "https://cdn.example.com/icon.png"))
  /\ contains_any (lower (u "https://cdn.example.com/icon.png"))
       _THUMB_EXCLUDE_PATTERNS = true
  /\ contains_any (lower (u "https://cdn.example.com/icon.png"))
       _CONTENT_EXCLUDE_PATTERNS = true
  /\ _extract_first_media_from_content
       (video_page "data:image/png;base64,iVBORw0KGgo=") (u "ruliweb")
       (u "https://bbs.ruliweb.com/best/board/300143/read/1") =
     Ok (Some (u "data:image/png;base64,iVBORw0KGgo="))
  /\ _extract_thumbnail (Some (image_row "/img/x/../rank/1.png"))
       (u "https://www.inven.co.kr/") =
     Ok (Some (u "https://www.inven.co.kr/img/rank/1.png"))
  /\ contains_any (lower (u "https://www.inven.co.kr/img/rank/1.png"))
       _THUMB_EXCLUDE_PATTERNS = true.
Proof. conjuncts; vm_compute; reflexivity. Qed.

(** ** The adapters *)

Ltac http_base_tac :=
  split; [reflexivity
         | eexists; split; [vm_compute; reflexivity
                           | first [left; reflexivity | right; reflexivity]]].

Lemma url_ok_of_join (src r : str) :
  (Url.nonempty r = true \/ src <> []) -> http_or_own_scheme src r -> url_ok r.
Proof.
  intros Hne [H | [-> H]].
  - split; [|left; exact H].
    apply nonempty_neq. eapply startswith_nonempty; [|exact H]. reflexivity.
  - split; [|right; exact H]. intro E. subst. discriminate H.
Qed.

Lemma abs_url_ok (href base url : str) :
  http_base base -> _abs href base = Ok url -> url_ok url.
Proof.
  intros Hb H. unfold _abs in H.
  destruct (startswith href (u "http")) eqn:E.
  - injection H as <-. split; [|left; exact E].
    apply nonempty_neq. eapply startswith_nonempty; [|exact E]. reflexivity.
  - destruct (contains base (u "humoruniv.com") && startswith href (u "read.html")).
    + eapply url_ok_of_join with (src := href).
      * destruct href; [|right; discriminate]. left.
        vm_compute in H. injection H as <-. reflexivity.
      * eapply urljoin_http; [|exact H]. http_base_tac.
    + assert (J := @urljoin_http base href url Hb H).
      destruct J as [J | [-> J]].
      * split; [|left; exact J].
        apply nonempty_neq. eapply startswith_nonempty; [|exact J]. reflexivity.
      * split; [|right; exact J]. intro E'. subst. discriminate J.
Qed.

Lemma collect_In {A} (body : A -> result (option Post)) (rows : list A)
      (posts : list Post) (p : Post) :
  collect body rows = Ok posts -> In p posts ->
  exists row, In row rows /\ body row = Ok (Some p).
Proof.
  revert posts; induction rows as [|r rows IH]; intros posts; cbn [collect].
  - intro H. injection H as <-. intros [].
  - destruct (body r) as [o|e] eqn:Eb; cbn [bind]; [|discriminate].
    destruct (collect body rows) as [ps|e]; cbn [bind]; [|discriminate].
    intro H. injection H as <-. intro Hin.
    destruct o as [q|].
    + destruct Hin as [-> | Hin].
      * exists r. split; [left; reflexivity | exact Eb].
      * destruct (IH ps eq_refl Hin) as [row [Hr Hb]].
        exists row. split; [right; exact Hr | exact Hb].
    + destruct (IH ps eq_refl Hin) as [row [Hr Hb]].
      exists row. split; [right; exact Hr | exact Hb].
Qed.

Lemma dedupe_posts_In (X : list Post) (p : Post) :
  In p (dedupe_posts X) -> In p X.
Proof. apply dedupe_from_In. Qed.

Lemma too_short_false (n : nat) (s : str) : too_short n s = false -> n <= length s.
Proof. unfold too_short. intro H. apply Nat.ltb_ge in H. exact H. Qed.

(** Going through the body of a loop: every test is decided in turn. *)
Ltac through H :=
  repeat match type of H with
         | (if ?c then _ else _) = _ => destruct c eqn:?; try discriminate H
         | (match ?x with _ => _ end) = _ => destruct x eqn:?; try discriminate H
         | bind ?m _ = _ => destruct m eqn:?; cbn [bind] in H; try discriminate H
         end.

Ltac title_checked :=
  repeat match goal with
         | E : _ || _ = false |- _ =>
             apply orb_false_iff in E; destruct E
         end;
  match goal with
  | E : too_short _ ?t = false |- _ <= length ?t => exact (too_short_false _ _ E)
  end.

Lemma fmkorea_row_ok (tr : tag) (p : Post) :
  parse_fmkorea_row tr = Ok (Some p) -> 3 <= length (title p) /\ url_ok (url p).
Proof.
  intro H. unfold parse_fmkorea_row in H. cbv zeta in H. through H.
  injection H as <-. cbn [title url]. split; [title_checked|].
  eapply abs_url_ok; [|eassumption]. http_base_tac.
Qed.

Ltac row_ok parse_row base_tac :=
  let H := fresh "H" in
  intro H; unfold parse_row in H; cbv zeta in H; through H;
  injection H as <-; cbn [title url]; split; [title_checked|];
  eapply abs_url_ok; [|eassumption]; base_tac.

Lemma humoruniv_row_ok (tr : tag) (p : Post) :
  parse_humoruniv_row tr = Ok (Some p) -> 3 <= length (title p) /\ url_ok (url p).
Proof. row_ok parse_humoruniv_row http_base_tac. Qed.

Lemma ruliweb_row_ok (tr : tag) (p : Post) :
  parse_ruliweb_row tr = Ok (Some p) -> 5 <= length (title p) /\ url_ok (url p).
Proof. row_ok parse_ruliweb_row http_base_tac. Qed.

Lemma etoland_row_ok (li : tag) (p : Post) :
  parse_etoland_row li = Ok (Some p) -> 5 <= length (title p) /\ url_ok (url p).
Proof. row_ok parse_etoland_row http_base_tac. Qed.

(** The title that [parse_inven] stores has lost its [[유머]] prefix after
    the test of its length: only the address is known to be in order. *)
Lemma inven_row_ok (title_link : tag) (p : Post) :
  parse_inven_row title_link = Ok (Some p) -> url_ok (url p).
Proof.
  intro H. unfold parse_inven_row in H. cbv zeta in H. through H;
    injection H as <-; cbn [url]; (eapply abs_url_ok; [|eassumption]);
    http_base_tac.
Qed.

Lemma dcinside_row_ok (article : tag) (p : Post) :
  parse_dcinside_row article = Ok (Some p) -> 5 <= length (title p) /\ url_ok (url p).
Proof. row_ok parse_dcinside_row http_base_tac. Qed.

Lemma clien_row_ok (item : tag) (p : Post) :
  parse_clien_row item = Ok (Some p) -> 5 <= length (title p) /\ url_ok (url p).
Proof. row_ok parse_clien_row http_base_tac. Qed.

Lemma dogdrip_row_ok (item : tag) (p : Post) :
  parse_list_item_row "dogdrip" "dogdrip.net" "https://www.dogdrip.net/" item
  = Ok (Some p) -> 5 <= length (title p) /\ url_ok (url p).
Proof. row_ok parse_list_item_row http_base_tac. Qed.

Lemma theqoo_row_ok (item : tag) (p : Post) :
  parse_list_item_row "theqoo" "theqoo.net" "https://theqoo.net/" item
  = Ok (Some p) -> 5 <= length (title p) /\ url_ok (url p).
Proof. row_ok parse_list_item_row http_base_tac. Qed.

Lemma mlbpark_row_ok (title_elem : tag) (p : Post) :
  parse_mlbpark_row title_elem = Ok (Some p) ->
  5 <= length (title p) /\ url_ok (url p).
Proof. row_ok parse_mlbpark_row http_base_tac. Qed.

Lemma cook82_row_ok (title_elem : tag) (p : Post) :
  parse_82cook_row title_elem = Ok (Some p) ->
  5 <= length (title p) /\ url_ok (url p).
Proof. row_ok parse_82cook_row http_base_tac. Qed.

Lemma damoang_row_ok (title_link : tag) (p : Post) :
  parse_damoang_row title_link = Ok (Some p) ->
  5 <= length (title p) /\ url_ok (url p).
Proof. row_ok parse_damoang_row http_base_tac. Qed.

Lemma ddanzi_row_ok (tr : tag) (p : Post) :
  parse_ddanzi_row tr = Ok (Some p) -> 5 <= length (title p) /\ url_ok (url p).
Proof. row_ok parse_ddanzi_row http_base_tac. Qed.

Lemma bobaedream_row_ok (tr : tag) (p : Post) :
  parse_bobaedream_row tr = Ok (Some p) -> 5 <= length (title p) /\ url_ok (url p).
Proof. row_ok parse_bobaedream_row http_base_tac. Qed.

Lemma slrclub_row_ok (tr : tag) (p : Post) :
  parse_slrclub_row tr = Ok (Some p) -> 3 <= length (title p) /\ url_ok (url p).
Proof. row_ok parse_slrclub_row http_base_tac. Qed.


(** *** The canonical url of ppomppu *)

Lemma takewhile_app_all (f : codepoint -> bool) (l1 l2 : str) :
  forallb f l1 = true -> takewhile f (l1 ++ l2) = l1 ++ takewhile f l2.
Proof.
  induction l1 as [|c l1 IH]; cbn [forallb takewhile app]; [reflexivity|].
  intro H. apply andb_true_iff in H. destruct H as [Hc H].
  rewrite Hc, IH by exact H. reflexivity.
Qed.

Lemma takewhile_app_stop (f : codepoint -> bool) (l1 l2 : str) :
  forallb f l1 = false -> takewhile f (l1 ++ l2) = takewhile f l1.
Proof.
  induction l1 as [|c l1 IH]; cbn [forallb takewhile app]; [discriminate|].
  destruct (f c); cbn [andb]; [|reflexivity]. intro H. rewrite IH by exact H.
  reflexivity.
Qed.

Lemma takewhile_shorter (f : codepoint -> bool) (l : str) :
  forallb f l = false -> length (takewhile f l) < length l.
Proof.
  induction l as [|c l IH]; cbn [forallb takewhile length]; [discriminate|].
  destruct (f c); cbn [andb length]; [|lia]. intro H. apply IH in H. lia.
Qed.

Lemma scheme_char_plain (c : codepoint) :
  scheme_char c = true ->
  (c =? 0x3A)%N = false /\ c0_or_space c = false /\ unsafe_byte c = false
  /\ scheme_char (lower_char c) = true.
Proof.
  unfold scheme_char, ascii_alpha, is_lower, is_upper, ascii_digit, c0_or_space,
    unsafe_byte, lower_char, is_upper.
  intro H.
  assert (R : (0x61 <= c <= 0x7A \/ 0x41 <= c <= 0x5A \/ 0x30 <= c <= 0x39
               \/ c = 0x2B \/ c = 0x2D \/ c = 0x2E)%N).
  { repeat (apply orb_true_iff in H; destruct H as [H|H]);
      try (apply andb_true_iff in H; destruct H as [H1 H2];
           apply N.leb_le in H1; apply N.leb_le in H2);
      try apply N.eqb_eq in H; lia. }
  clear H.
  repeat split.
  - apply N.eqb_neq. lia.
  - apply N.leb_gt. lia.
  - repeat (apply orb_false_iff; split); apply N.eqb_neq; lia.
  - destruct ((0x41 <=? c) && (c <=? 0x5A))%N eqn:E.
    + apply andb_true_iff in E. destruct E as [E1 E2].
      apply N.leb_le in E1. apply N.leb_le in E2.
      replace ((0x61 <=? c + 0x20) && (c + 0x20 <=? 0x7A))%N with true;
        [reflexivity|].
      symmetry. apply andb_true_iff. split; apply N.leb_le; lia.
    + destruct R as [R|[R|[R|[R|[R|R]]]]];
        try (exfalso; apply andb_false_iff in E; destruct E as [E|E];
             apply N.leb_gt in E; lia).
      * replace ((0x61 <=? c) && (c <=? 0x7A))%N with true; [reflexivity|].
        symmetry. apply andb_true_iff. split; apply N.leb_le; lia.
      * replace ((0x30 <=? c) && (c <=? 0x39))%N with true;
          [repeat rewrite orb_true_r; reflexivity|].
        symmetry. apply andb_true_iff. split; apply N.leb_le; lia.
      * subst c. reflexivity.
      * subst c. reflexivity.
      * subst c. reflexivity.
Qed.

Lemma alpha_lower (c : codepoint) :
  ascii_alpha c = true -> ascii_alpha (lower_char c) = true.
Proof.
  unfold ascii_alpha, is_lower, lower_char, is_upper. intro H.
  destruct ((0x41 <=? c) && (c <=? 0x5A))%N eqn:E.
  - apply andb_true_iff in E. destruct E as [E1 E2].
    apply N.leb_le in E1. apply N.leb_le in E2.
    apply orb_true_iff. left. apply andb_true_iff.
    split; apply N.leb_le; lia.
  - rewrite orb_false_r in H. rewrite H. reflexivity.
Qed.

Lemma scheme_char_ascii (c : codepoint) :
  scheme_char c = true -> (c <? 0x80)%N = true.
Proof.
  unfold scheme_char, ascii_alpha, is_lower, is_upper, ascii_digit. intro H.
  apply N.ltb_lt.
  repeat (apply orb_true_iff in H; destruct H as [H|H]);
    try (apply andb_true_iff in H; destruct H as [H1 H2];
         apply N.leb_le in H1; apply N.leb_le in H2);
    try apply N.eqb_eq in H; lia.
Qed.

Lemma scheme_chars_ascii (l : str) :
  forallb scheme_char l = true -> forallb (fun c => (c <? 0x80)%N) l = true.
Proof.
  intro H. apply forallb_forall. intros c Hc.
  apply scheme_char_ascii. exact (proj1 (forallb_forall _ _) H c Hc).
Qed.

Lemma scheme_chars_lower (l : str) :
  forallb scheme_char l = true -> forallb scheme_char (lower l) = true.
Proof.
  intro H. rewrite (@lower_ascii l (@scheme_chars_ascii l H)).
  induction l as [|c l IH]; cbn [forallb map]; [reflexivity|].
  cbn [forallb] in H. apply andb_true_iff in H. destruct H as [Hc H].
  apply andb_true_iff. split; [apply scheme_char_plain, Hc | apply IH, H].
Qed.

Lemma split_scheme_found (d s : str) :
  split_scheme d s = (d, s)
  \/ exists sch rest, is_scheme sch = true /\ forall d', split_scheme d' s = (sch, rest).
Proof.
  unfold split_scheme. destruct (has_char 0x3A%N s); [|left; reflexivity].
  destruct (takewhile _ s) as [|c pre] eqn:E; [left; reflexivity|].
  destruct (ascii_alpha c && forallb scheme_char (c :: pre)) eqn:Hs;
    [|left; reflexivity].
  right. eexists; eexists. split; [|intro d'; reflexivity].
  apply andb_true_iff in Hs. destruct Hs as [Ha Hf].
  pose proof (@scheme_chars_lower (c :: pre) Hf) as Hl.
  rewrite (@lower_ascii (c :: pre) (@scheme_chars_ascii (c :: pre) Hf)) in Hl |- *.
  cbn [map is_scheme]. apply andb_true_iff. split.
  - apply alpha_lower, Ha.
  - exact Hl.
Qed.

Lemma scheme_chars_kept (sch : str) :
  forallb scheme_char sch = true ->
  filter (fun c => negb (unsafe_byte c)) sch = sch
  /\ forallb (fun c => negb (c =? 0x3A)%N) sch = true.
Proof.
  induction sch as [|c sch IH]; cbn [forallb filter]; [split; reflexivity|].
  intro H. apply andb_true_iff in H. destruct H as [Hc H].
  destruct (scheme_char_plain c Hc) as (H1 & _ & H3 & _).
  destruct (IH H) as [I1 I2]. rewrite H3, H1, I1, I2. split; reflexivity.
Qed.

Lemma has_char_app_r (c : codepoint) (a b : str) :
  has_char c b = true -> has_char c (a ++ b) = true.
Proof.
  unfold has_char. intro H. rewrite existsb_app, H. apply orb_true_r.
Qed.

(** An address written as a scheme, a colon and the rest names that scheme. *)
Lemma names_scheme_prefixed (sch rest : str) :
  is_scheme sch = true -> names_scheme (sch ++ u ":" ++ rest) = true.
Proof.
  unfold is_scheme. destruct sch as [|c sch']; [discriminate|].
  intro H. apply andb_true_iff in H. destruct H as [Ha Hf].
  set (sch := c :: sch') in *.
  destruct (scheme_chars_kept sch Hf) as [Hk Hn].
  assert (Hc : scheme_char c = true)
    by (cbn [forallb] in Hf; apply andb_true_iff in Hf; tauto).
  destruct (scheme_char_plain c Hc) as (_ & Hc0 & _ & _).
  unfold names_scheme, url_chars.
  assert (E : dropwhile c0_or_space (sch ++ u ":" ++ rest) = sch ++ u ":" ++ rest)
    by (unfold sch; cbn [app dropwhile]; rewrite Hc0; reflexivity).
  rewrite E, filter_app, Hk.
  change (filter (fun c0 => negb (unsafe_byte c0)) (u ":" ++ rest))
    with (u ":" ++ filter (fun c0 => negb (unsafe_byte c0)) rest).
  set (rest' := filter _ rest).
  unfold split_scheme.
  rewrite has_char_app_r by reflexivity.
  rewrite takewhile_app_all by exact Hn.
  change (takewhile _ (u ":" ++ rest')) with (@nil N). rewrite app_nil_r.
  unfold sch at 1. fold sch. rewrite Ha, Hf. cbn [andb fst].
  unfold sch, lower.
  rewrite (@lower_from_cons_ascii c sch' false (@ascii_alpha_ascii c Ha)).
  reflexivity.
Qed.

Lemma urlunsplit_with_scheme (sch nl url qry frag : str) :
  Url.nonempty sch = true ->
  exists rest, urlunsplit sch nl url qry frag = sch ++ u ":" ++ rest.
Proof.
  intro Hne. unfold urlunsplit. cbv zeta. rewrite Hne. cbn [andb].
  match goal with
  | |- context [sch ++ u ":" ++ ?b] => generalize b; intro body
  end.
  destruct (Url.nonempty qry), (Url.nonempty frag);
    repeat rewrite <- app_assoc; eexists; reflexivity.
Qed.

Lemma urlunparse_with_scheme (sch nl url params qry frag : str) :
  Url.nonempty sch = true ->
  exists rest, urlunparse sch nl url params qry frag = sch ++ u ":" ++ rest.
Proof. intro H. unfold urlunparse. apply urlunsplit_with_scheme, H. Qed.

Lemma is_scheme_nonempty (sch : str) : is_scheme sch = true -> Url.nonempty sch = true.
Proof. destruct sch; [discriminate | reflexivity]. Qed.

Lemma http_prefix (s : str) :
  startswith s (u "http") = true -> exists x, s = u "http" ++ x.
Proof.
  intro H. change (u "http") with [0x68; 0x74; 0x74; 0x70]%N in *.
  destruct s as [|c1 [|c2 [|c3 [|c4 x]]]]; cbn [startswith] in H;
    repeat (apply andb_true_iff in H; destruct H as [? H]);
    try discriminate H.
  repeat match goal with
         | E : (_ =? _)%N = true |- _ => apply N.eqb_eq in E; subst
         end.
  exists x. reflexivity.
Qed.

Lemma url_chars_http (x : str) :
  url_chars (u "http" ++ x) = u "http" ++ filter (fun c => negb (unsafe_byte c)) x.
Proof. reflexivity. Qed.

Lemma partition_http (c : codepoint) (x : str) :
  (c = 0x23 \/ c = 0x3F \/ c = 0x3B)%N ->
  partition c (u "http" ++ x) = (u "http" ++ fst (partition c x), snd (partition c x)).
Proof.
  intros [-> | [-> | ->]]; cbn; destruct (partition _ x); reflexivity.
Qed.

Lemma firstn_http (m : nat) (x : str) :
  firstn (4 + m) (u "http" ++ x) = u "http" ++ firstn m x.
Proof. reflexivity. Qed.

Lemma splitparams_http (x : str) :
  exists y ps, _splitparams (u "http" ++ x) = (u "http" ++ y, ps).
Proof.
  unfold _splitparams. cbv zeta.
  set (notslash := fun c : N => negb (c =? 0x2F)%N).
  rewrite rev_app_distr.
  destruct (forallb notslash (rev x)) eqn:Ex.
  - rewrite takewhile_app_all by exact Ex.
    change (takewhile notslash (rev (u "http"))) with (rev (u "http")).
    rewrite <- rev_app_distr, rev_involutive, Nat.sub_diag.
    cbn [firstn app].
    destruct (has_char 0x3B%N (u "http" ++ x)).
    + rewrite partition_http by auto. eexists; eexists; reflexivity.
    + eexists; eexists; reflexivity.
  - rewrite takewhile_app_stop by exact Ex.
    pose proof (takewhile_shorter notslash (rev x) Ex) as Hlen.
    rewrite length_rev in Hlen.
    set (tw := takewhile notslash (rev x)) in *.
    replace (length (u "http" ++ x) - length (rev tw))
      with (4 + (length x - length tw))
      by (rewrite length_app, length_rev; change (length (u "http")) with 4; lia).
    rewrite firstn_http.
    destruct (has_char 0x3B%N (rev tw)).
    + destruct (partition 0x3B%N (rev tw)) as [a b].
      rewrite <- app_assoc. eexists; eexists; reflexivity.
    + eexists; eexists; reflexivity.
Qed.

(** The parts of an address that starts with [http] and names no scheme:
    no authority, and a path that starts with [http]. *)
Lemma urlparse_http_path (x : str) (parsed : ParseResult) :
  split_scheme [] (url_chars (u "http" ++ x)) = ([], url_chars (u "http" ++ x)) ->
  urlparse (u "http" ++ x) [] = Ok parsed ->
  p_scheme parsed = [] /\ p_netloc parsed = []
  /\ exists y, p_path parsed = u "http" ++ y.
Proof.
  intros Hs H. unfold urlparse, urlsplit in H. cbv zeta in H.
  change (filter (fun c => negb (unsafe_byte c)) (dropwhile c0_or_space (u "http" ++ x)))
    with (url_chars (u "http" ++ x)) in H.
  change (filter (fun c => negb (unsafe_byte c))
            (rev (dropwhile c0_or_space (rev (dropwhile c0_or_space [])))))
    with (@nil N) in H.
  rewrite Hs in H. rewrite url_chars_http in H.
  change (startswith (u "http" ++ ?r) (u "//")) with false in H.
  cbn [bind] in H.
  rewrite partition_http in H by auto.
  rewrite partition_http in H by auto.
  cbn [bind scheme netloc path query fragment _checknetloc existsb] in H.
  change (mem [] uses_params) with true in H. cbn [andb] in H.
  match type of H with
  | context [_splitparams (u "http" ++ ?y)] =>
      destruct (splitparams_http y) as (y' & ps & Ey); rewrite Ey in H
  end.
  destruct (has_char 0x3B%N _) in H; injection H as <-;
    cbn [p_scheme p_netloc p_path]; repeat split; eexists; reflexivity.
Qed.

Lemma urlunparse_path_prefix (url params qry frag p : str) :
  startswith url p = true ->
  startswith (urlunparse [] [] url params qry frag) p = true.
Proof.
  intro H. unfold urlunparse, urlunsplit. cbv zeta. cbn [Url.nonempty orb andb].
  destruct (Url.nonempty params), (Url.nonempty qry), (Url.nonempty frag);
    repeat apply startswith_app; exact H.
Qed.

(** The canonical url of an address in order is an address in order. *)
Lemma canonical_url_ok (unquote quote_plus : str -> str) (address r : str) :
  url_ok address -> canonical_url unquote quote_plus address = Ok r -> url_ok r.
Proof.
  intros [Hne Hok] H. unfold canonical_url in H.
  destruct (urlparse address []) as [parsed|e] eqn:Ep; cbn [bind] in H;
    [|discriminate].
  injection H as <-.
  pose proof (urlparse_scheme _ _ Ep) as Hsch.
  change (filter (fun c => negb (unsafe_byte c))
            (rev (dropwhile c0_or_space (rev (dropwhile c0_or_space [])))))
    with (@nil N) in Hsch.
  destruct (split_scheme_found [] (url_chars address))
    as [Enone | (sch & rest & Hs & Efound)].
  - assert (Hn : names_scheme address = false)
      by (unfold names_scheme; rewrite Enone; reflexivity).
    destruct Hok as [Hh | Hh]; [|rewrite Hn in Hh; discriminate].
    destruct (http_prefix _ Hh) as [x ->].
    destruct (@urlparse_http_path x parsed Enone Ep) as (E1 & E2 & y & E3).
    rewrite E1, E2, E3.
    assert (P : startswith
                  (urlunparse [] [] (u "http" ++ y) (p_params parsed)
                     (urlencode quote_plus
                        (filter (fun kv => mem (fst kv) [u "id"; u "no"])
                           (parse_qs unquote (p_query parsed))))
                     (p_fragment parsed)) (u "http") = true)
      by (apply urlunparse_path_prefix; reflexivity).
    split; [|left; exact P].
    apply nonempty_neq. eapply startswith_nonempty; [|exact P]. reflexivity.
  - rewrite (Efound []) in Hsch. cbn [fst] in Hsch. rewrite Hsch.
    match goal with
    | |- url_ok (urlunparse sch ?nl ?pa ?pr ?q ?f) =>
        destruct (urlunparse_with_scheme sch nl pa pr q f (is_scheme_nonempty _ Hs))
          as [rest' E]; rewrite E
    end.
    split.
    + destruct sch; [discriminate Hs | discriminate].
    + right. apply names_scheme_prefixed, Hs.
Qed.

Lemma ppomppu_row_ok (unquote quote_plus : str -> str) (base_url : str)
      (link : tag) (p : Post) :
  http_base base_url ->
  parse_ppomppu_row unquote quote_plus base_url link = Ok (Some p) ->
  5 <= length (title p) /\ url_ok (url p).
Proof.
  intros Hb H. unfold parse_ppomppu_row in H. cbv zeta in H. through H;
    injection H as <-; cbn [title url]; (split; [title_checked|]);
    (eapply canonical_url_ok; [|eassumption]);
    (eapply abs_url_ok; [exact Hb | eassumption]).
Qed.

(** From a post of the result of an adapter to the row it was built from. *)
Ltac from_rows H Hin :=
  through H; injection H as <-;
  try (destruct Hin; fail);
  apply dedupe_posts_In in Hin;
  match goal with
  | E : collect _ _ = Ok _ |- _ =>
      let row := fresh "row" in
      let Hr := fresh "Hr" in
      destruct (@collect_In _ _ _ _ _ E Hin) as [row [_ Hr]];
      revert Hr
  end.

(** The adapters (claim C2, in the form the code satisfies).  For every
    record that an adapter's parse
    function builds, the url is not empty and begins with [http], unless the
    href of the row names a scheme of its own (as in [javascript:] or
    [mailto:]) and is stored as it is; and, for every adapter but inven, the
    stored title has at least the adapter's minimum length.  The base url of
    ppomppu is an argument of its parse function: it is taken to be an http
    or https address. *)
Theorem adapter_records_wellformed
        (unquote quote_plus : str -> str) (a : adapter) (base_url : str)
        (doc : tag) (posts : list Post) (p : Post) :
  (a = ppomppu -> http_base base_url) ->
  parse_of unquote quote_plus a base_url doc = Ok posts ->
  In p posts ->
  (a <> inven -> min_title a <= length (title p)) /\ url_ok (url p).
Proof.
  intros Hb H Hin.
  destruct a; cbn [parse_of min_title] in *.
  - unfold parse_fmkorea in H. from_rows H Hin. intro Hr.
    destruct (@fmkorea_row_ok _ _ Hr). split; auto.
  - unfold parse_humoruniv in H. from_rows H Hin. intro Hr.
    destruct (@humoruniv_row_ok _ _ Hr). split; auto.
  - unfold parse_ruliweb in H. from_rows H Hin. intro Hr.
    destruct (@ruliweb_row_ok _ _ Hr). split; auto.
  - unfold parse_etoland in H. from_rows H Hin. intro Hr.
    destruct (@etoland_row_ok _ _ Hr). split; auto.
  - unfold parse_inven in H. from_rows H Hin. intro Hr.
    split; [intro N; exfalso; apply N; reflexivity|].
    exact (@inven_row_ok _ _ Hr).
  - unfold parse_dcinside in H. from_rows H Hin. intro Hr.
    destruct (@dcinside_row_ok _ _ Hr). split; auto.
  - unfold parse_clien in H. from_rows H Hin. intro Hr.
    destruct (@clien_row_ok _ _ Hr). split; auto.
  - unfold parse_dogdrip in H. from_rows H Hin. intro Hr.
    destruct (@dogdrip_row_ok _ _ Hr). split; auto.
  - unfold parse_theqoo in H. from_rows H Hin. intro Hr.
    destruct (@theqoo_row_ok _ _ Hr). split; auto.
  - unfold parse_mlbpark in H. from_rows H Hin. intro Hr.
    destruct (@mlbpark_row_ok _ _ Hr). split; auto.
  - unfold parse_82cook in H. from_rows H Hin. intro Hr.
    destruct (@cook82_row_ok _ _ Hr). split; auto.
  - unfold parse_damoang in H. from_rows H Hin. intro Hr.
    destruct (@damoang_row_ok _ _ Hr). split; auto.
  - unfold parse_ddanzi in H. from_rows H Hin. intro Hr.
    destruct (@ddanzi_row_ok _ _ Hr). split; auto.
  - unfold parse_bobaedream in H. from_rows H Hin. intro Hr.
    destruct (@bobaedream_row_ok _ _ Hr). split; auto.
  - unfold parse_ppomppu in H. from_rows H Hin. intro Hr.
    destruct (@ppomppu_row_ok _ _ _ _ _ (Hb eq_refl) Hr). split; auto.
  - unfold parse_slrclub in H. from_rows H Hin. intro Hr.
    destruct (@slrclub_row_ok _ _ Hr). split; auto.
Qed.

Lemma adapter_records_wellformed_witness :
  (ddanzi <> inven -> min_title ddanzi <= length (title ddanzi_record))
  /\ url_ok (url ddanzi_record).
Proof.
  apply (@adapter_records_wellformed (fun s => s) (fun s => s) ddanzi
           (u "https://www.ddanzi.com/free") ddanzi_listing [ddanzi_record]
           ddanzi_record).
  - discriminate.
  - vm_compute. reflexivity.
  - left. reflexivity.
Defined.

(** C2, as the claim states it, fails.  [parse_inven] cuts the [[유머]] prefix
    off after it has tested the length of the title: the record of
    [inven_listing] has the title [ab].  And an href that names a scheme of
    its own is stored unchanged: the record of [fmkorea_listing] has the url
    [javascript:void(0)]. *)
Lemma inven_title_below_minimum :
  parse_inven (u "https://www.inven.co.kr/board/webzine/2097?category=유머")
              inven_listing = Ok [inven_record]
  /\ title inven_record = u "ab"
  /\ length (title inven_record) < min_title inven
  /\ parse_fmkorea (u "https://www.fmkorea.com/index.php?mid=humor&category=486622")
                   fmkorea_listing = Ok [fmkorea_record]
  /\ url fmkorea_record = u "javascript:void(0)"
  /\ startswith (url fmkorea_record) (u "http") = false.
Proof. conjuncts; vm_compute; try reflexivity; lia. Qed.

(* ================================================================= *)
(** * The content extractor *)

(** ** Trees *)

(** Induction on a tree, with the hypothesis on every child. *)
Lemma node_induction (P : node -> Prop) :
  (forall s, P (Text s)) -> (forall s, P (Comment s)) ->
  (forall nm attrs kids, Forall P kids -> P (Elem nm attrs kids)) ->
  forall n, P n.
Proof.
  intros HT HC HE. fix IH 1. intros [s|s|nm attrs kids].
  - apply HT.
  - apply HC.
  - apply HE. induction kids as [|k kids IHk]; constructor; [apply IH | exact IHk].
Qed.

Lemma every_elem_forest_app (P : str -> list (str * str) -> bool) (a b : list node) :
  forallb (every_elem P) (a ++ b) = true <->
  forallb (every_elem P) a = true /\ forallb (every_elem P) b = true.
Proof. rewrite forallb_app. apply andb_true_iff. Qed.

(** A tag found below a node is an element, and what holds of every element
    below the node holds of it and of all below it. *)
Lemma descendants_every (P : str -> list (str * str) -> bool) (n : node) :
  forall anc t, forallb (every_elem P) (children n) = true ->
                In t (descendants anc n) ->
                every_elem P (self t) = true
                /\ exists nm attrs kids, self t = Elem nm attrs kids.
Proof.
  induction n as [s|s|nm attrs kids IH] using node_induction;
    intros anc t Hk Hin; cbn [descendants] in Hin; try contradiction.
  cbn [children] in Hk.
  apply in_flat_map in Hin as [k [Hkin Ht]].
  rewrite Forall_forall in IH. rewrite forallb_forall in Hk.
  destruct k as [s|s|nm' attrs' kids']; try contradiction.
  destruct Ht as [<- | Ht].
  - cbn [self]. split; [apply Hk, Hkin | eauto].
  - eapply IH; [exact Hkin | | exact Ht].
    cbn [children]. specialize (Hk _ Hkin). cbn [every_elem] in Hk.
    apply andb_true_iff in Hk as [_ Hk]. exact Hk.
Qed.

Lemma tags_of_every (P : str -> list (str * str) -> bool) (forest : list node)
      (t : tag) :
  forallb (every_elem P) forest = true -> In t (tags_of forest) ->
  exists nm attrs kids, self t = Elem nm attrs kids /\ P nm attrs = true.
Proof.
  intros Hf Hin. unfold tags_of, tags_below, soup in Hin. cbn [self ancestors] in Hin.
  destruct (@descendants_every P (Elem (u "[document]") [] forest) [] t Hf Hin)
    as [He (nm & attrs & kids & E)].
  exists nm, attrs, kids. split; [exact E|].
  rewrite E in He. cbn [every_elem] in He.
  apply andb_true_iff in He as [He _]. exact He.
Qed.

(** ** Inline styles *)

Lemma has_char_app (c : codepoint) (a b : str) :
  Url.has_char c (a ++ b) = Url.has_char c a || Url.has_char c b.
Proof. unfold Url.has_char. apply existsb_app. Qed.

Lemma has_char_cons (c d : codepoint) (a : str) :
  Url.has_char c (d :: a) = (c =? d)%N || Url.has_char c a.
Proof. reflexivity. Qed.

(** The pieces of [split] hold no separator. *)
Lemma split_pieces (c : codepoint) (s : str) :
  Forall (fun w => Url.has_char c w = false) (split c s).
Proof.
  induction s as [|d s IH]; cbn [split].
  - constructor; [reflexivity | constructor].
  - destruct (d =? c)%N eqn:E.
    + constructor; [reflexivity | exact IH].
    + destruct (split c s) as [|w ws]; [repeat constructor|].
      * rewrite has_char_cons, N.eqb_sym, E. reflexivity.
      * inversion IH as [|? ? Hw Hws]; subst. constructor; [|exact Hws].
        rewrite has_char_cons, N.eqb_sym, E. exact Hw.
Qed.

Lemma split_none (c : codepoint) (a : str) :
  Url.has_char c a = false -> split c a = [a].
Proof.
  induction a as [|d a IH]; intro H; cbn [split]; [reflexivity|].
  rewrite has_char_cons in H. apply orb_false_iff in H as [H1 H2].
  rewrite N.eqb_sym, H1, (IH H2). reflexivity.
Qed.

Lemma split_app (c : codepoint) (a b : str) :
  Url.has_char c a = false -> split c (a ++ c :: b) = a :: split c b.
Proof.
  induction a as [|d a IH]; intro H; cbn [split app].
  - rewrite N.eqb_refl. reflexivity.
  - rewrite has_char_cons in H. apply orb_false_iff in H as [H1 H2].
    rewrite N.eqb_sym, H1, (IH H2). reflexivity.
Qed.

Lemma partition_app (c : codepoint) (a b : str) :
  Url.has_char c a = false -> partition c (a ++ c :: b) = (a, b).
Proof.
  induction a as [|d a IH]; intro H; cbn [partition app].
  - rewrite N.eqb_refl. reflexivity.
  - rewrite has_char_cons in H. apply orb_false_iff in H as [H1 H2].
    rewrite N.eqb_sym, H1, (IH H2). reflexivity.
Qed.

(** The second part of [partition] holds a character only if the text does. *)
Lemma partition_snd_chars (c d : codepoint) (s : str) :
  Url.has_char d s = false -> Url.has_char d (snd (partition c s)) = false.
Proof.
  induction s as [|e s IH]; intro H; cbn [partition]; [reflexivity|].
  rewrite has_char_cons in H. apply orb_false_iff in H as [H1 H2].
  destruct (e =? c)%N; [exact H2|].
  destruct (partition c s) as [a b]. cbn [snd] in *. exact (IH H2).
Qed.

Lemma strip_chars_kept (d : codepoint) (s : str) :
  Url.has_char d s = false -> Url.has_char d (strip s) = false.
Proof.
  intro H. destruct (strip_decompose s) as (a & b & E & _ & _).
  rewrite E in H. rewrite !has_char_app in H.
  apply orb_false_iff in H as [_ H]. apply orb_false_iff in H as [H _]. exact H.
Qed.

Lemma rstrip_idempotent (s : str) : rstrip (rstrip s) = rstrip s.
Proof.
  induction s as [|c s IH]; cbn [rstrip]; [reflexivity|].
  destruct (rstrip s) as [|d r] eqn:E.
  - destruct (isspace c) eqn:Ec; cbn [rstrip]; [reflexivity|].
    rewrite Ec. reflexivity.
  - cbn [rstrip] in IH |- *. rewrite IH. reflexivity.
Qed.

(** [rstrip] keeps the first character of a text that does not begin with
    white space. *)
Lemma rstrip_head (c : codepoint) (s : str) :
  isspace c = false -> exists r, rstrip (c :: s) = c :: r.
Proof.
  intro H. cbn [rstrip]. destruct (rstrip s); [rewrite H|]; eauto.
Qed.

Lemma strip_trimmed (s : str) : trimmed (strip s).
Proof.
  unfold trimmed, strip. split; [|apply rstrip_idempotent].
  unfold lstrip at 1. pose proof (dropwhile_head isspace s) as Hd.
  fold (lstrip s) in Hd. destruct (lstrip s) as [|c r]; [reflexivity|].
  destruct (@rstrip_head c r Hd) as [r' ->]. cbn [dropwhile]. rewrite Hd. reflexivity.
Qed.

Lemma trimmed_strip (v : str) : trimmed v -> strip v = v.
Proof. intros [H1 H2]. unfold strip. rewrite H1. exact H2. Qed.

Lemma rstrip_app (a b : str) : rstrip b <> [] -> rstrip (a ++ b) = a ++ rstrip b.
Proof.
  intro H. induction a as [|c a IH]; cbn [rstrip app]; [reflexivity|].
  rewrite IH. destruct (a ++ rstrip b) eqn:E; [|reflexivity].
  apply app_eq_nil in E as [_ E]. contradiction.
Qed.


Lemma allowed_properties_plain (p : str) :
  In p ALLOWED_CSS_PROPS ->
  exists c r, p = c :: r /\ isspace c = false
              /\ lower (strip p) = p
              /\ Url.has_char 0x3A%N p = false /\ Url.has_char 0x3B%N p = false.
Proof.
  intro H.
  assert (Hall : forallb plain_property ALLOWED_CSS_PROPS = true)
    by (vm_compute; reflexivity).
  rewrite forallb_forall in Hall. specialize (Hall _ H).
  unfold plain_property in Hall.
  repeat (apply andb_true_iff in Hall; destruct Hall as [Hall ?]).
  repeat match goal with
         | E : str_eqb _ _ = true |- _ => apply str_eqb_eq in E
         | E : negb _ = true |- _ => apply negb_true_iff in E
         end.
  destruct p as [|c r]; [discriminate|].
  exists c, r. repeat split; try assumption.
  match goal with E : lstrip (c :: r) = _ |- _ => rename E into El end.
  unfold lstrip in El. cbn [dropwhile] in El.
  destruct (isspace c) eqn:Ec; [|reflexivity].
  exfalso. pose proof (takewhile_dropwhile isspace r) as Ht.
  apply (f_equal (@length N)) in El. apply (f_equal (@length N)) in Ht.
  rewrite length_app in Ht. cbn [length] in El. lia.
Qed.

(** A declaration that begins with a space counts as the same one. *)
Lemma declaration_parts_space (x : str) :
  declaration_parts (0x20%N :: x) = declaration_parts x.
Proof. reflexivity. Qed.

(** What the loop lets through is a safe declaration. *)
Lemma declaration_parts_safe (d : str) :
  Url.has_char 0x3B%N d = false -> Forall safe_declaration (declaration_parts d).
Proof.
  intro Hd. unfold declaration_parts.
  destruct (empty (strip d) || negb (Url.has_char 0x3A%N (strip d)));
    [constructor|].
  pose proof (@partition_snd_chars 0x3A%N 0x3B%N (strip d)
                (@strip_chars_kept 0x3B%N d Hd)) as Hv.
  destruct (partition 0x3A%N (strip d)) as [prop value]. cbn [snd] in Hv.
  destruct (contains_any (lower (strip value)) CSS_DANGER) eqn:Edanger;
    [constructor|].
  destruct (mem (lower (strip prop)) ALLOWED_CSS_PROPS) eqn:Emem; [|constructor].
  constructor; [|constructor].
  unfold safe_declaration. cbn [fst snd].
  split; [apply mem_In; exact Emem|].
  split; [exact Edanger|].
  split; [apply strip_trimmed|].
  apply strip_chars_kept. exact Hv.
Qed.

Lemma safe_parts_safe (style : str) : Forall safe_declaration (safe_parts style).
Proof.
  change (safe_parts style) with (flat_map declaration_parts (split 0x3B%N style)).
  pose proof (split_pieces 0x3B%N style) as Hp.
  induction Hp as [|d ds Hd _ IH]; cbn [flat_map]; [constructor|].
  apply Forall_app. split; [apply declaration_parts_safe; exact Hd | exact IH].
Qed.

(** A safe declaration, written out and read again, is itself. *)
Lemma declaration_parts_written (pv : str * str) :
  safe_declaration pv -> declaration_parts (written pv) = [pv].
Proof.
  destruct pv as [p v]. unfold safe_declaration, written. cbn [fst snd].
  intros (Hp & Hdanger & [Hl Hr] & Hsemi).
  pose proof Hp as Hmem. apply mem_In in Hmem.
  destruct (allowed_properties_plain Hp) as (c & r & E & Hc & Hlow & Hcolon & _).
  assert (Es : exists w, strip (p ++ u ": " ++ v) = p ++ 0x3A%N :: w /\ strip w = v).
  { unfold strip. rewrite E. unfold lstrip at 1. cbn [dropwhile app]. rewrite Hc.
    change (c :: r ++ u ": " ++ v) with ((c :: r) ++ [0x3A%N] ++ (0x20%N :: v)).
    destruct v as [|d v'].
    - exists []. split; [|reflexivity].
      rewrite (@rstrip_app (c :: r) ([0x3A%N] ++ [0x20%N]))
        by (vm_compute; discriminate).
      reflexivity.
    - exists (0x20%N :: d :: v'). split.
      + replace ((c :: r) ++ [0x3A%N] ++ 0x20%N :: d :: v')
          with (((c :: r) ++ [0x3A%N; 0x20%N]) ++ d :: v')
          by (rewrite <- app_assoc; reflexivity).
        rewrite (@rstrip_app ((c :: r) ++ [0x3A%N; 0x20%N]) (d :: v'))
          by (rewrite Hr; discriminate).
        rewrite Hr, <- app_assoc. reflexivity.
      + change (strip (d :: v') = d :: v').
        apply (@trimmed_strip (d :: v')). split; assumption. }
  destruct Es as (w & Es & Ew).
  unfold declaration_parts. rewrite Es.
  assert (Hne : empty (p ++ 0x3A%N :: w) = false)
    by (rewrite E; reflexivity).
  rewrite Hne. rewrite has_char_app, has_char_cons, N.eqb_refl, orb_true_r.
  cbn [negb orb].
  rewrite (@partition_app 0x3A%N p w Hcolon).
  rewrite Hlow, Ew, Hdanger, Hmem. reflexivity.
Qed.

Lemma written_no_semicolon (pv : str * str) :
  safe_declaration pv -> Url.has_char 0x3B%N (written pv) = false.
Proof.
  destruct pv as [p v]. unfold safe_declaration, written. cbn [fst snd].
  intros (Hp & _ & _ & Hsemi).
  destruct (allowed_properties_plain Hp) as (c & r & _ & _ & _ & _ & Hs).
  rewrite !has_char_app, Hs, Hsemi. reflexivity.
Qed.

(** The pieces of a written style: the first declaration, and the others
    after a space. *)
Lemma split_written (pv : str * str) (parts : list (str * str)) :
  Forall safe_declaration (pv :: parts) ->
  split 0x3B%N (join (u "; ") (map written (pv :: parts)))
  = written pv :: map (fun q => 0x20%N :: written q) parts.
Proof.
  revert pv. induction parts as [|q parts IH]; intros pv H.
  - cbn [map join]. inversion H; subst.
    apply split_none. apply written_no_semicolon. assumption.
  - inversion H as [|? ? Hpv Hrest]; subst.
    change (join (u "; ") (map written (pv :: q :: parts)))
      with (written pv ++ 0x3B%N :: 0x20%N :: join (u "; ") (map written (q :: parts))).
    rewrite split_app by (apply written_no_semicolon; exact Hpv).
    f_equal. cbn [split]. change (0x20 =? 0x3B)%N with false. cbv iota.
    rewrite (IH q Hrest). reflexivity.
Qed.

Lemma safe_parts_written (parts : list (str * str)) :
  Forall safe_declaration parts ->
  safe_parts (join (u "; ") (map written parts)) = parts.
Proof.
  intro H. destruct parts as [|pv parts]; [reflexivity|].
  change (safe_parts ?s) with (flat_map declaration_parts (split 0x3B%N s)).
  rewrite (split_written H). cbn [flat_map].
  inversion H as [|? ? Hpv Hrest]; subst.
  rewrite (declaration_parts_written Hpv). cbn [app]. f_equal.
  clear H Hpv. induction Hrest as [|q parts Hq _ IH]; [reflexivity|].
  cbn [map flat_map]. rewrite declaration_parts_space.
  rewrite (declaration_parts_written Hq), IH. reflexivity.
Qed.

(** [_sanitize_css]: every declaration it writes has an allowed property
    and a value free of [url(], [expression(], [javascript:] and [import];
    reading its result again gives the same declarations, so that
    sanitising a style twice is sanitising it once. *)
Theorem sanitize_css_safe_and_idempotent (style : str) :
  _sanitize_css style = join (u "; ") (map written (safe_parts style))
  /\ Forall safe_declaration (safe_parts style)
  /\ safe_parts (_sanitize_css style) = safe_parts style
  /\ _sanitize_css (_sanitize_css style) = _sanitize_css style.
Proof.
  assert (E : _sanitize_css style = join (u "; ") (map written (safe_parts style)))
    by reflexivity.
  assert (R : safe_parts (_sanitize_css style) = safe_parts style)
    by (rewrite E; apply safe_parts_written, safe_parts_safe).
  split; [exact E|]. split; [apply safe_parts_safe|]. split; [exact R|].
  change (_sanitize_css (_sanitize_css style))
    with (join (u "; ") (map written (safe_parts (_sanitize_css style)))).
  rewrite R. reflexivity.
Qed.

(** ** Attributes *)

Lemma lookup_has_attr (k : str) (attrs : list (str * str)) (v : str) :
  lookup k attrs = Some v -> has_attr k attrs = true.
Proof.
  induction attrs as [|[k' v'] attrs IH]; cbn [lookup has_attr existsb fst];
    [discriminate|].
  destruct (str_eqb k' k); [reflexivity|]. exact IH.
Qed.

Lemma lookup_In (k : str) (attrs : list (str * str)) (v : str) :
  lookup k attrs = Some v -> In (k, v) attrs.
Proof.
  induction attrs as [|[k' v'] attrs IH]; cbn [lookup]; [discriminate|].
  destruct (str_eqb k' k) eqn:E.
  - intro H. injection H as <-. apply str_eqb_eq in E. subst. left. reflexivity.
  - intro H. right. exact (IH H).
Qed.

(** [tag[k] = v], then [tag.get(k)] *)
Lemma lookup_set_attr (k v : str) (attrs : list (str * str)) :
  lookup k (set_attr k v attrs) = Some v.
Proof.
  unfold set_attr. destruct (has_attr k attrs) eqn:H.
  - induction attrs as [|[k' v'] attrs IH]; [discriminate|].
    cbn [has_attr existsb fst] in H. cbn [map fst].
    destruct (str_eqb k' k) eqn:E; cbn [lookup].
    + rewrite str_eqb_refl. reflexivity.
    + rewrite E. apply IH. exact H.
  - induction attrs as [|[k' v'] attrs IH]; cbn [app lookup].
    + rewrite str_eqb_refl. reflexivity.
    + cbn [has_attr existsb fst] in H. apply orb_false_iff in H as [E H].
      rewrite E. apply IH. exact H.
Qed.

(** [tag[k] = v], then [tag.get(k')] for another name *)
Lemma lookup_set_attr_other (k k' v : str) (attrs : list (str * str)) :
  str_eqb k k' = false -> lookup k' (set_attr k v attrs) = lookup k' attrs.
Proof.
  intro Hk. unfold set_attr. destruct (has_attr k attrs).
  - induction attrs as [|[k0 v0] attrs IH]; [reflexivity|].
    cbn [map fst]. destruct (str_eqb k0 k) eqn:E; cbn [lookup].
    + apply str_eqb_eq in E. subst k0. rewrite Hk. exact IH.
    + rewrite IH. reflexivity.
  - induction attrs as [|[k0 v0] attrs IH]; cbn [app lookup].
    + rewrite Hk. reflexivity.
    + rewrite IH. reflexivity.
Qed.

(** The names of the attributes after [tag[k] = v]: those before, and [k]. *)
Lemma set_attr_names (k v : str) (attrs : list (str * str)) (k' v' : str) :
  In (k', v') (set_attr k v attrs) -> k' = k \/ In (k', v') attrs.
Proof.
  unfold set_attr. destruct (has_attr k attrs).
  - intro H. apply in_map_iff in H as [[k0 v0] [E Hin]]. cbn [fst] in E.
    destruct (str_eqb k0 k).
    + injection E as <- <-. left. reflexivity.
    + injection E as <- <-. right. exact Hin.
  - intro H. apply in_app_or in H as [H | [H | []]].
    + right. exact H.
    + injection H as <- <-. left. reflexivity.
Qed.

Lemma lookup_del_attr (k : str) (attrs : list (str * str)) :
  lookup k (del_attr k attrs) = None.
Proof.
  unfold del_attr. induction attrs as [|[k' v'] attrs IH]; [reflexivity|].
  cbn [filter fst]. destruct (str_eqb k' k) eqn:E; cbn [negb]; [exact IH|].
  cbn [lookup]. rewrite E. exact IH.
Qed.

Lemma lookup_del_attrs_other (ks : list str) (k : str) (attrs : list (str * str)) :
  mem k ks = false -> lookup k (del_attrs ks attrs) = lookup k attrs.
Proof.
  intro Hk. unfold del_attrs.
  induction attrs as [|[k' v'] attrs IH]; [reflexivity|].
  cbn [filter fst lookup]. destruct (str_eqb k' k) eqn:E.
  - apply str_eqb_eq in E. subst k'. rewrite Hk. cbn [negb lookup].
    rewrite str_eqb_refl. reflexivity.
  - destruct (mem k' ks); cbn [negb lookup]; [exact IH|]. rewrite E. exact IH.
Qed.

(** ** The passes over a tree *)

Lemma every_elem_trivial (n : node) : every_elem (fun _ _ => true) n = true.
Proof.
  induction n as [s|s|nm attrs kids IH] using node_induction; try reflexivity.
  cbn [every_elem andb]. apply forallb_forall. rewrite Forall_forall in IH. exact IH.
Qed.

Lemma every_elem_forest_trivial (l : list node) :
  forallb (every_elem (fun _ _ => true)) l = true.
Proof. apply forallb_forall. intros n _. apply every_elem_trivial. Qed.

Lemma every_elem_weaken (P Q : str -> list (str * str) -> bool) (n : node) :
  (forall nm attrs, P nm attrs = true -> Q nm attrs = true) ->
  every_elem P n = true -> every_elem Q n = true.
Proof.
  intro HPQ. induction n as [s|s|nm attrs kids IH] using node_induction;
    try reflexivity.
  cbn [every_elem]. intro H. apply andb_true_iff in H as [H1 H2].
  rewrite (HPQ _ _ H1). cbn [andb].
  apply forallb_forall. intros k Hk. rewrite Forall_forall in IH.
  rewrite forallb_forall in H2. apply IH; [exact Hk | apply H2, Hk].
Qed.

Section PassFacts.

Variables P Q : str -> list (str * str) -> bool.

(** A pass that never fails: if every step turns an element that satisfies
    [P], over children that satisfy [Q] throughout, into nodes that satisfy
    [Q] throughout, so does the pass on a forest that satisfies [P]. *)
Lemma transform_every (pure_step : str -> list (str * str) -> list node -> list node) :
  (forall nm attrs kids,
      P nm attrs = true -> forallb (every_elem Q) kids = true ->
      forallb (every_elem Q) (pure_step nm attrs kids) = true) ->
  forall l, forallb (every_elem P) l = true ->
            forallb (every_elem Q) (transform_forest pure_step l) = true.
Proof.
  intro Hstep.
  assert (Hn : forall n, every_elem P n = true ->
                         forallb (every_elem Q) (transform pure_step n) = true).
  { induction n as [s|s|nm attrs kids IH] using node_induction;
      try (intros _; reflexivity).
    cbn [every_elem transform]. intro H. apply andb_true_iff in H as [H1 H2].
    apply Hstep; [exact H1|].
    clear H1. induction kids as [|k kids IHk]; [reflexivity|].
    cbn [flat_map]. cbn [forallb] in H2. apply andb_true_iff in H2 as [Hk H2].
    inversion IH; subst. apply every_elem_forest_app. split; auto. }
  induction l as [|n l IHl]; [reflexivity|].
  cbn [forallb]. intro H. apply andb_true_iff in H as [H1 H2].
  unfold transform_forest. cbn [flat_map].
  apply every_elem_forest_app. split; [apply Hn, H1 | apply IHl, H2].
Qed.

Lemma rewrite_elem (step : str -> list (str * str) -> list node -> result (list node))
      (nm : str) (attrs : list (str * str)) (kids : list node) :
  rewrite step (Elem nm attrs kids)
  = (kids' <- rewrite_forest step kids ;; step nm attrs kids').
Proof.
  reflexivity.
Qed.

(** The same for a pass that may fail, when it does not. *)
Lemma rewrite_every (step : str -> list (str * str) -> list node -> result (list node)) :
  (forall nm attrs kids out,
      P nm attrs = true -> forallb (every_elem Q) kids = true ->
      step nm attrs kids = Ok out -> forallb (every_elem Q) out = true) ->
  forall l out, forallb (every_elem P) l = true ->
                rewrite_forest step l = Ok out ->
                forallb (every_elem Q) out = true.
Proof.
  intro Hstep.
  assert (Hn : forall n out, every_elem P n = true -> rewrite step n = Ok out ->
                             forallb (every_elem Q) out = true).
  { induction n as [s|s|nm attrs kids IH] using node_induction;
      try (intros out _ H; injection H as <-; reflexivity).
    intros out H Hr. cbn [every_elem] in H. apply andb_true_iff in H as [H1 H2].
    rewrite rewrite_elem in Hr.
    destruct (rewrite_forest step kids) as [kids'|e] eqn:Ek; [|discriminate].
    cbn [bind] in Hr. apply (Hstep nm attrs kids' out H1); [|exact Hr].
    clear Hr H1. revert kids' Ek.
    induction kids as [|k kids IHk]; intros kids' Ek.
    - injection Ek as <-. reflexivity.
    - cbn [rewrite_forest] in Ek. cbn [forallb] in H2.
      apply andb_true_iff in H2 as [Hk H2]. inversion IH; subst.
      destruct (rewrite step k) as [a|e] eqn:Ea; [|discriminate].
      destruct (rewrite_forest step kids) as [b|e] eqn:Eb; [|discriminate].
      cbn [bind] in Ek. injection Ek as <-.
      apply every_elem_forest_app. split; eauto. }
  induction l as [|n l IHl]; intros out H Hr.
  - injection Hr as <-. reflexivity.
  - cbn [forallb] in H. apply andb_true_iff in H as [H1 H2].
    cbn [rewrite_forest] in Hr.
    destruct (rewrite step n) as [a|e] eqn:Ea; [|discriminate].
    destruct (rewrite_forest step l) as [b|e] eqn:Eb; [|discriminate].
    cbn [bind] in Hr. injection Hr as <-.
    apply every_elem_forest_app. split; eauto.
Qed.

End PassFacts.

(** ** The sanitiser *)

Lemma forallb_filter {A} (f g : A -> bool) (l : list A) :
  forallb f l = true -> forallb f (filter g l) = true.
Proof.
  rewrite !forallb_forall. intros H x Hx. apply filter_In in Hx as [Hx _]. auto.
Qed.

Lemma forallb_filter_self {A} (g : A -> bool) (l : list A) :
  forallb g (filter g l) = true.
Proof. apply forallb_forall. intros x Hx. apply filter_In in Hx as [_ Hx]. exact Hx. Qed.

(** No attribute name of the allow-lists begins with [on]. *)
Lemma tag_allowed_no_handler (nm k : str) :
  In k (tag_allowed nm) -> startswith k (u "on") = false.
Proof.
  assert (H : forallb (fun k => negb (startswith k (u "on"))) (tag_allowed nm) = true).
  { unfold tag_allowed, ALLOWED_ATTRS. cbn [attrs_of].
    repeat match goal with
           | |- context [if str_eqb ?a nm then _ else _] => destruct (str_eqb a nm)
           end; vm_compute; reflexivity. }
  rewrite forallb_forall in H. intro Hk. apply negb_true_iff. apply H, Hk.
Qed.

(** The attributes pass leaves an allowed tag within the allow-lists. *)
Lemma clean_attrs_within (nm : str) (attrs : list (str * str)) :
  mem nm ALLOWED_TAGS = true -> within_allow_lists nm (clean_attrs nm attrs) = true.
Proof.
  intro Hnm. unfold within_allow_lists. rewrite Hnm. cbn [andb].
  unfold clean_attrs.
  set (A := filter (fun kv => mem (fst kv) (tag_allowed nm)) attrs).
  assert (HA : forallb (fun kv => mem (fst kv) (tag_allowed nm)) A = true)
    by apply forallb_filter_self.
  destruct (lookup (u "style") A) as [style|] eqn:Es.
  2:{ rewrite HA, Es. reflexivity. }
  destruct (Url.nonempty style) eqn:En.
  - destruct (empty (_sanitize_css style)).
    + unfold del_attr. rewrite (@forallb_filter _ _ _ A HA). fold (del_attr (u "style") A).
      rewrite lookup_del_attr. reflexivity.
    + rewrite lookup_set_attr.
      destruct (sanitize_css_safe_and_idempotent style) as (_ & _ & _ & Hi).
      rewrite Hi, str_eqb_refl, andb_true_r.
      apply forallb_forall. intros [k v] Hin. cbn [fst].
      apply set_attr_names in Hin as [-> | Hin].
      * rewrite forallb_forall in HA.
        apply (HA (u "style", style)). apply lookup_In. exact Es.
      * rewrite forallb_forall in HA. apply (HA (k, v)). exact Hin.
  - rewrite HA, Es. destruct style; [reflexivity | discriminate].
Qed.

(** The anchors pass keeps an element within the allow-lists there. *)
Lemma anchor_step_within (base_url nm : str) (attrs : list (str * str))
      (kids out : list node) :
  within_allow_lists nm attrs = true ->
  forallb (every_elem within_allow_lists) kids = true ->
  anchor_step base_url nm attrs kids = Ok out ->
  forallb (every_elem within_allow_lists) out = true.
Proof.
  intros Hw Hk H.
  assert (Hsame : forallb (every_elem within_allow_lists) [Elem nm attrs kids] = true)
    by (cbn [forallb every_elem]; rewrite Hw, Hk; reflexivity).
  unfold anchor_step in H.
  destruct (str_eqb nm (u "a")); [|injection H as <-; exact Hsame].
  destruct (lookup (u "href") attrs) as [href|] eqn:Eh;
    [|injection H as <-; exact Hsame].
  destruct (empty href || startswith (lower href) (u "javascript:"));
    [injection H as <-; exact Hk|].
  destruct (Url.nonempty base_url
            && negb (startswith_any href [u "http"; u "mailto:"; u "#"]));
    [|injection H as <-; exact Hsame].
  destruct (urljoin base_url href) as [h|e]; [|discriminate].
  cbn [bind] in H. injection H as <-.
  cbn [forallb every_elem]. rewrite Hk, !andb_true_r.
  unfold within_allow_lists in Hw |- *.
  apply andb_true_iff in Hw as [Hw Hstyle]. apply andb_true_iff in Hw as [Hnm Hattrs].
  rewrite Hnm. cbn [andb].
  rewrite (@lookup_set_attr_other (u "href") (u "style") h attrs eq_refl), Hstyle.
  rewrite andb_true_r.
  rewrite forallb_forall in Hattrs. apply forallb_forall. intros [k v] Hin.
  apply set_attr_names in Hin as [-> | Hin].
  - apply (Hattrs (u "href", href)). apply lookup_In. exact Eh.
  - apply (Hattrs (k, v)). exact Hin.
Qed.

(** After the four passes every element is within the allow-lists. *)
Lemma sanitize_forest_within (base_url : str) (doc out : list node) :
  sanitize_forest base_url doc = Ok out ->
  forallb (every_elem within_allow_lists) out = true.
Proof.
  unfold sanitize_forest. intro H.
  eapply (@rewrite_every within_allow_lists within_allow_lists);
    [| | exact H].
  - intros nm attrs kids o. apply anchor_step_within.
  - apply (@transform_every (fun nm _ => mem nm ALLOWED_TAGS) within_allow_lists).
    + intros nm attrs kids Hnm Hk. unfold attrs_step. cbn [forallb every_elem].
      rewrite (@clean_attrs_within nm attrs Hnm), Hk. reflexivity.
    + apply (@transform_every (fun _ _ => true) (fun nm _ => mem nm ALLOWED_TAGS)).
      * intros nm attrs kids _ Hk. unfold unwrap_step.
        destruct (mem nm ALLOWED_TAGS) eqn:E; [|exact Hk].
        cbn [forallb every_elem]. rewrite E, Hk. reflexivity.
      * apply every_elem_forest_trivial.
Qed.

(** [_sanitize_html], on the tree: whatever the document and the base url,
    every tag that is left has a name of [ALLOWED_TAGS] (none of the removed
    ones, [script] and [iframe] among them), every attribute that is left
    has a name allowed for this tag or for all tags (none begins with [on]),
    and a style that is left is a text that [_sanitize_css] leaves as it is:
    it is made of safe declarations only. *)
Theorem sanitized_tree_within_allow_lists
        (base_url : str) (doc out : list node) (t : tag) :
  sanitize_forest base_url doc = Ok out ->
  In t (tags_of out) ->
  In (elem_name (self t)) ALLOWED_TAGS
  /\ ~ In (elem_name (self t)) REMOVED_TAGS
  /\ (forall k v, In (k, v) (elem_attrs (self t)) ->
                  In k (tag_allowed (elem_name (self t)))
                  /\ startswith k (u "on") = false)
  /\ (forall v, get (self t) (u "style") = Some v ->
                v = join (u "; ") (map written (safe_parts v))
                /\ Forall safe_declaration (safe_parts v)).
Proof.
  intros H Hin.
  destruct (@tags_of_every within_allow_lists out t
              (@sanitize_forest_within base_url doc out H) Hin)
    as (nm & attrs & kids & E & Hw).
  rewrite E. cbn [elem_name elem_attrs get].
  unfold within_allow_lists in Hw.
  apply andb_true_iff in Hw as [Hw Hstyle]. apply andb_true_iff in Hw as [Hnm Hattrs].
  split; [apply mem_In; exact Hnm|].
  split.
  { intro Hr. apply mem_In in Hr.
    assert (Hd : forallb (fun r => negb (mem r ALLOWED_TAGS)) REMOVED_TAGS = true)
      by (vm_compute; reflexivity).
    rewrite forallb_forall in Hd. apply mem_In in Hr. specialize (Hd _ Hr).
    rewrite Hnm in Hd. discriminate. }
  split.
  - intros k v Hkv. rewrite forallb_forall in Hattrs.
    specialize (Hattrs (k, v) Hkv). cbn [fst] in Hattrs. apply mem_In in Hattrs.
    split; [exact Hattrs | exact (@tag_allowed_no_handler nm k Hattrs)].
  - intros v Hv. rewrite Hv in Hstyle. apply str_eqb_eq in Hstyle.
    split; [symmetry; exact Hstyle | apply safe_parts_safe].
Qed.

Lemma sanitized_tree_within_allow_lists_witness :
  sanitize_forest (u "https://www.clien.net/service/board/park") hostile_page
  = Ok hostile_page_sanitized
  /\ In (u "a") ALLOWED_TAGS.
Proof.
  split; [vm_compute; reflexivity|].
  apply (@sanitized_tree_within_allow_lists
           (u "https://www.clien.net/service/board/park") hostile_page
           hostile_page_sanitized hostile_page_anchor).
  - vm_compute. reflexivity.
  - vm_compute. right. left. reflexivity.
Defined.

(** A text that begins with [http] is no [javascript:] link. *)
Lemma http_not_javascript (h : str) :
  startswith h (u "http") = true ->
  Url.nonempty h = true /\ startswith (lower h) (u "javascript:") = false.
Proof.
  destruct h as [|c h]; [discriminate|]. intro H.
  change (u "http") with [0x68; 0x74; 0x74; 0x70]%N in H. cbn [startswith] in H.
  apply andb_true_iff in H as [H _]. apply N.eqb_eq in H. subst c.
  split; reflexivity.
Qed.

(** The anchors pass leaves checked links only, the base url being empty or
    an http or https address. *)
Lemma anchor_step_checked (base_url nm : str) (attrs : list (str * str))
      (kids out : list node) :
  base_url = [] \/ http_base base_url ->
  forallb (every_elem (anchor_checked base_url)) kids = true ->
  anchor_step base_url nm attrs kids = Ok out ->
  forallb (every_elem (anchor_checked base_url)) out = true.
Proof.
  intros Hb Hk H.
  assert (Hone : forall attrs', anchor_checked base_url nm attrs' = true ->
                 forallb (every_elem (anchor_checked base_url)) [Elem nm attrs' kids]
                 = true)
    by (intros attrs' Hc; cbn [forallb every_elem]; rewrite Hc, Hk; reflexivity).
  unfold anchor_step in H.
  destruct (str_eqb nm (u "a")) eqn:Ea.
  2:{ injection H as <-. apply Hone. unfold anchor_checked. rewrite Ea. reflexivity. }
  destruct (lookup (u "href") attrs) as [href|] eqn:Eh.
  2:{ injection H as <-. apply Hone. unfold anchor_checked.
      rewrite Ea, Eh. reflexivity. }
  destruct (empty href || startswith (lower href) (u "javascript:")) eqn:Ebad;
    [injection H as <-; exact Hk|].
  apply orb_false_iff in Ebad as [Hne Hjs].
  unfold empty in Hne. apply negb_false_iff in Hne.
  destruct (Url.nonempty base_url
            && negb (startswith_any href [u "http"; u "mailto:"; u "#"])) eqn:Ejoin.
  - apply andb_true_iff in Ejoin as [Hbase _].
    destruct Hb as [-> | Hb]; [discriminate|].
    destruct (urljoin base_url href) as [h|e] eqn:Ej; [|discriminate].
    cbn [bind] in H. injection H as <-. apply Hone.
    unfold anchor_checked. rewrite Ea, lookup_set_attr. unfold link_checked.
    destruct (@urljoin_http base_url href h Hb Ej) as [J | [-> J]].
    + destruct (@http_not_javascript h J) as [J1 J2].
      rewrite J1, J2. cbn [negb andb]. unfold startswith_any. cbn [existsb].
      rewrite J. rewrite orb_true_r. reflexivity.
    + rewrite Hne, Hjs, J. cbn [negb andb]. apply orb_true_r.
  - injection H as <-. apply Hone.
    unfold anchor_checked. rewrite Ea, Eh. unfold link_checked.
    rewrite Hne, Hjs. cbn [negb andb]. unfold empty.
    apply andb_false_iff in Ejoin as [E | E].
    + rewrite E. reflexivity.
    + apply negb_false_iff in E. rewrite E. apply orb_true_iff. left. apply orb_true_r.
Qed.

(** [_sanitize_html], the links: with no base url, or with an http or https
    address as base url, a link left on an anchor is not empty and its
    lower-case form does not begin with [javascript:]; with a base url it
    begins with [http], [mailto:] or [#], or it is the link of the document,
    left as it was because it names a scheme of its own. *)
Theorem sanitized_anchor_links
        (base_url : str) (doc out : list node) (t : tag) (h : str) :
  base_url = [] \/ http_base base_url ->
  sanitize_forest base_url doc = Ok out ->
  In t (tags_of out) ->
  name_is (u "a") (self t) = true ->
  get (self t) (u "href") = Some h ->
  h <> []
  /\ startswith (lower h) (u "javascript:") = false
  /\ (base_url <> [] ->
      startswith h (u "http") = true \/ startswith h (u "mailto:") = true
      \/ startswith h (u "#") = true \/ names_scheme h = true).
Proof.
  intros Hb H Hin Ha Hh. unfold sanitize_forest in H.
  assert (Hall : forallb (every_elem (anchor_checked base_url)) out = true).
  { eapply (@rewrite_every (fun _ _ => true) (anchor_checked base_url));
      [| apply every_elem_forest_trivial | exact H].
    intros nm attrs kids o _. apply anchor_step_checked. exact Hb. }
  destruct (@tags_of_every (anchor_checked base_url) out t Hall Hin)
    as (nm & attrs & kids & E & Hc).
  rewrite E in Ha, Hh. cbn [name_is get] in Ha, Hh.
  unfold anchor_checked in Hc. rewrite Ha, Hh in Hc. unfold link_checked in Hc.
  apply andb_true_iff in Hc as [Hc H3]. apply andb_true_iff in Hc as [H1 H2].
  split; [apply nonempty_neq; exact H1|].
  split; [apply negb_true_iff; exact H2|].
  intro Hne. apply orb_true_iff in H3 as [H3 | H3]; [|auto].
  apply orb_true_iff in H3 as [H3 | H3].
  - destruct base_url; [contradiction | discriminate].
  - unfold startswith_any in H3. cbn [existsb] in H3.
    repeat (apply orb_true_iff in H3; destruct H3 as [H3 | H3]); auto.
    discriminate.
Qed.

Lemma sanitized_anchor_links_witness :
  u "https://www.clien.net/board/7" <> []
  /\ startswith (lower (u "https://www.clien.net/board/7")) (u "javascript:") = false.
Proof.
  destruct (@sanitized_anchor_links
              (u "https://www.clien.net/service/board/park") hostile_page
              hostile_page_sanitized hostile_page_anchor
              (u "https://www.clien.net/board/7")) as (H1 & H2 & _).
  - right. http_base_tac.
  - vm_compute. reflexivity.
  - vm_compute. right. left. reflexivity.
  - reflexivity.
  - reflexivity.
  - split; [exact H1 | exact H2].
Defined.

(** A link that begins with a space is none the sanitiser checks: it is
    left on the anchor, and [urlsplit] reads [javascript] as its scheme. *)
Lemma link_after_space_is_left :
  sanitize_forest (u "https://www.clien.net/service/board/park")
    [Elem (u "a") [(u "href", u " javascript:alert(1)")] [Text (u "x")]]
  = Ok [Elem (u "a") [(u "href", u " javascript:alert(1)")] [Text (u "x")]]
  /\ sanitize_forest []
       [Elem (u "a") [(u "href", u " javascript:alert(1)")] [Text (u "x")]]
     = Ok [Elem (u "a") [(u "href", u " javascript:alert(1)")] [Text (u "x")]]
  /\ scheme_of (u " javascript:alert(1)") = Some (u "javascript").
Proof. conjuncts; vm_compute; reflexivity. Qed.

Lemma filter_none {A} (f : A -> bool) (l : list A) :
  (forall x, In x l -> f x = false) -> filter f l = [].
Proof.
  induction l as [|x l IH]; intro H; [reflexivity|].
  cbn [filter]. rewrite (H x (or_introl eq_refl)). apply IH.
  intros y Hy. apply H. right. exact Hy.
Qed.

(** [_sanitize_html], the serialisation: [html], [head] and [body] are no
    allowed tags, so that none is left after the passes; [soup.find("body")]
    finds nothing, and the result is the whole document that is left,
    written out and tidied. *)
Theorem sanitize_html_writes_whole_document
        (BeautifulSoup : str -> tag) (render : node -> str)
        (html base_url s : str) :
  _sanitize_html BeautifulSoup render html base_url = Ok s ->
  exists out,
    sanitize_forest base_url (children (self (BeautifulSoup html))) = Ok out
    /\ find_all (u "html") (soup out) = []
    /\ find_all (u "head") (soup out) = []
    /\ find_all (u "body") (soup out) = []
    /\ s = tidy (render_all render out).
Proof.
  unfold _sanitize_html. intro H.
  destruct (sanitize_forest base_url (children (self (BeautifulSoup html))))
    as [out|e] eqn:E; [|discriminate].
  cbn [bind] in H. exists out. split; [reflexivity|].
  assert (Hnone : forall nm, mem nm ALLOWED_TAGS = false ->
                             find_all nm (soup out) = []).
  { intros nm Hnm. unfold find_all. apply filter_none. intros t Hin.
    destruct (@tags_of_every within_allow_lists out t
                (@sanitize_forest_within base_url _ out E) Hin)
      as (nm' & attrs & kids & Et & Hw).
    rewrite Et. cbn [name_is]. destruct (str_eqb nm' nm) eqn:En; [|reflexivity].
    apply str_eqb_eq in En. subst nm'. unfold within_allow_lists in Hw.
    rewrite Hnm in Hw. discriminate. }
  split; [apply Hnone; reflexivity|].
  split; [apply Hnone; reflexivity|].
  split; [apply Hnone; reflexivity|].
  rewrite (Hnone (u "body") eq_refl) in H. cbn [hd_error] in H.
  injection H as <-. reflexivity.
Qed.

Lemma sanitize_html_writes_whole_document_witness :
  exists out,
    sanitize_forest (u "https://www.clien.net/service/board/park")
                    (children (self (sample_parser (u "<html>")))) = Ok out
    /\ find_all (u "body") (soup out) = [].
Proof.
  destruct (@sanitize_html_writes_whole_document sample_parser sample_render
              (u "<html>") (u "https://www.clien.net/service/board/park")
              (u "a text of more than ten characters"))
    as (out & H1 & _ & _ & H2 & _).
  - vm_compute. reflexivity.
  - exists out. split; [exact H1 | exact H2].
Defined.

(** ** [extract_content] *)

Lemma extract_image_urls_http (BeautifulSoup : str -> tag) (html : str) :
  Forall (fun i => startswith i (u "http") = true)
         (_extract_image_urls BeautifulSoup html).
Proof.
  unfold _extract_image_urls.
  induction (find_all (u "img") (BeautifulSoup html)) as [|img l IH];
    cbn [flat_map]; [constructor|].
  apply Forall_app. split; [|exact IH].
  destruct (get (self img) (u "src")) as [src|]; [|constructor].
  destruct (Url.nonempty src && startswith src (u "http")) eqn:E; [|constructor].
  apply andb_true_iff in E as [_ E]. constructor; [exact E | constructor].
Qed.

Lemma Forall_firstn {A} (P : A -> Prop) (n : nat) (l : list A) :
  Forall P l -> Forall P (firstn n l).
Proof.
  intro H. revert n. induction H as [|x l Hx _ IH]; intros [|n]; cbn [firstn];
    constructor; auto.
Qed.

(** [extract_content]: what it returns holds at most [MAX_CONTENT_SIZE]
    characters of sanitised HTML (the first ones of what [_sanitize_html]
    gives for the base url [url]), at most as many of text, at most
    [MAX_IMAGES] image urls, each of which begins with [http] and is taken
    from the whole sanitised HTML, and the url it was asked for. *)
Theorem extract_content_bounds
        (BeautifulSoup : str -> tag) (render : node -> str)
        (fetch_html : str -> result (option str))
        (trafilatura : option ((str -> option str) * (str -> option str)))
        (url : str) (site_name : option str) (c : ExtractedContent) :
  extract_content BeautifulSoup render fetch_html trafilatura url site_name
  = Ok (Some c) ->
  length (html_content c) <= MAX_CONTENT_SIZE
  /\ length (text_content c) <= MAX_CONTENT_SIZE
  /\ length (images c) <= MAX_IMAGES
  /\ Forall (fun i => startswith i (u "http") = true) (images c)
  /\ source_url c = url
  /\ exists raw sanitized,
       _sanitize_html BeautifulSoup render raw url = Ok sanitized
       /\ html_content c = firstn MAX_CONTENT_SIZE sanitized
       /\ images c = firstn MAX_IMAGES (_extract_image_urls BeautifulSoup sanitized).
Proof.
  intro H. unfold extract_content in H.
  set (m := MAX_CONTENT_SIZE) in *. set (k := MAX_IMAGES) in *. clearbody m k.
  assert (Hshape : exists raw sanitized text,
             _sanitize_html BeautifulSoup render raw url = Ok sanitized
             /\ c = mkContent (firstn m sanitized) (firstn m text)
                              (firstn k (_extract_image_urls BeautifulSoup sanitized))
                              url).
  { destruct (fetch_html url) as [[[|ch html]|]|e]; cbn [bind] in H;
      try discriminate.
    match type of H with
    | match ?ce with Some _ => _ | None => _ end = _ => destruct ce as [el|]
    end.
    - destruct (_resolve_media (self el) url) as [resolved|e]; cbn [bind] in H;
        [|discriminate].
      destruct (_sanitize_html BeautifulSoup render (render resolved) url)
        as [sanitized|e] eqn:Es; cbn [bind] in H; [|discriminate].
      injection H as <-. eauto.
    - destruct trafilatura as [[extract_html extract_txt]|]; [|discriminate].
      destruct (extract_html (ch :: html)) as [[|c0 extracted]|]; try discriminate.
      destruct (_sanitize_html BeautifulSoup render (c0 :: extracted) url)
        as [sanitized|e] eqn:Es; cbn [bind] in H; [|discriminate].
      injection H as <-. eauto. }
  destruct Hshape as (raw & sanitized & text & Hs & ->).
  cbn [html_content text_content images source_url].
  split; [apply firstn_le_length|]. split; [apply firstn_le_length|].
  split; [apply firstn_le_length|].
  split; [apply Forall_firstn, extract_image_urls_http|].
  split; [reflexivity|]. exists raw, sanitized. auto.
Qed.

Lemma extract_content_bounds_witness :
  exists c,
    extract_content sample_parser sample_render sample_fetch None
                    (u "https://www.clien.net/service/board/park/1")
                    (Some (u "clien")) = Ok (Some c)
    /\ length (html_content c) <= MAX_CONTENT_SIZE.
Proof.
  eexists. split; [lazy; reflexivity|].
  refine (proj1 (@extract_content_bounds sample_parser sample_render sample_fetch
                   None (u "https://www.clien.net/service/board/park/1")
                   (Some (u "clien")) _ _)).
  lazy. reflexivity.
Defined.

(** ** [_resolve_media] *)

Lemma lazy_src_nonempty (prefixes attrs : list str) (img : node) (v : str) :
  lazy_src prefixes attrs img = Some v -> Url.nonempty v = true.
Proof.
  induction attrs as [|a attrs IH]; cbn [lazy_src]; [discriminate|].
  destruct (get img a) as [val|]; [|exact IH].
  destruct (Url.nonempty val && startswith_any val prefixes) eqn:E; [|exact IH].
  intro H. injection H as <-. apply andb_true_iff in E as [E _]. exact E.
Qed.

Lemma http_not_data (s : str) :
  startswith s (u "http") = true ->
  Url.nonempty s = true /\ startswith s (u "data:") = false.
Proof.
  destruct s as [|c s]; [discriminate|]. intro H.
  change (u "http") with [0x68; 0x74; 0x74; 0x70]%N in H. cbn [startswith] in H.
  apply andb_true_iff in H as [H _]. apply N.eqb_eq in H. subst c.
  split; reflexivity.
Qed.

(** Against an http or https base url, what [absolute] gives for a value
    that is not empty and no [data:] url is so too, and is an absolute
    address. *)
Lemma absolute_is_absolute (base_url s r : str) :
  http_base base_url -> absolute base_url s = Ok r ->
  Url.nonempty s = true -> startswith s (u "data:") = false ->
  Url.nonempty r && negb (startswith r (u "data:")) && absolute_address r = true.
Proof.
  intros Hb H Hne Hd. unfold absolute_address.
  destruct (@absolute_http base_url s r Hb H) as [J | [-> J]].
  - destruct (@http_not_data r J) as [J1 J2]. rewrite J1, J2, J. reflexivity.
  - rewrite Hne, Hd, J. cbn [negb andb]. apply orb_true_r.
Qed.

Lemma absolute_address_of (base_url s r : str) :
  http_base base_url -> absolute base_url s = Ok r -> absolute_address r = true.
Proof.
  intros Hb H. unfold absolute_address.
  destruct (@absolute_http base_url s r Hb H) as [J | [-> J]]; rewrite J;
    [reflexivity | apply orb_true_r].
Qed.

Section ResolveMediaFacts.

Variable strict : bool.
Variable base_url : str.
Hypothesis Hbase : strict = true -> http_base base_url.

(** The loop over the images. *)
Lemma resolve_img_step (nm : str) (attrs : list (str * str)) (kids out : list node) :
  forallb (every_elem (image_resolved strict)) kids = true ->
  resolve_img base_url nm attrs kids = Ok out ->
  forallb (every_elem (image_resolved strict)) out = true.
Proof.
  intros Hk H.
  assert (Hone : forall attrs', image_resolved strict nm attrs' = true ->
                 forallb (every_elem (image_resolved strict)) [Elem nm attrs' kids]
                 = true)
    by (intros attrs' Hc; cbn [forallb every_elem]; rewrite Hc, Hk; reflexivity).
  unfold resolve_img in H.
  destruct (str_eqb nm (u "img")) eqn:En; cbn [negb] in H.
  2:{ injection H as <-. apply Hone. unfold image_resolved. rewrite En. reflexivity. }
  match type of H with
  | match ?ch with Some _ => _ | None => _ end = _ =>
      destruct ch as [src|] eqn:Ech; [|injection H as <-; reflexivity]
  end.
  assert (Hne : Url.nonempty src = true).
  { destruct (lazy_src _ LAZY_ATTRS (Elem nm attrs kids)) as [r|] eqn:El.
    - destruct (_is_placeholder_src _ || empty _).
      + injection Ech as <-. exact (lazy_src_nonempty _ _ _ El).
      + destruct (empty (get_or (Elem nm attrs kids) (u "src") [])) eqn:Ee;
          [discriminate|].
        injection Ech as <-. unfold empty in Ee. apply negb_false_iff in Ee. exact Ee.
    - destruct (empty (get_or (Elem nm attrs kids) (u "src") [])) eqn:Ee;
        [discriminate|].
      injection Ech as <-. unfold empty in Ee. apply negb_false_iff in Ee. exact Ee. }
  clear Ech.
  destruct (startswith src (u "data:")) eqn:Ed; [injection H as <-; reflexivity|].
  destruct (absolute base_url src) as [s|e] eqn:Ea; [|discriminate].
  cbn [bind] in H. injection H as <-. apply Hone.
  unfold image_resolved. rewrite En.
  rewrite !lookup_del_attrs_other by reflexivity.
  rewrite (@lookup_set_attr_other (u "referrerpolicy") (u "src")) by reflexivity.
  rewrite (@lookup_set_attr_other (u "loading") (u "src")) by reflexivity.
  rewrite (@lookup_set_attr_other (u "referrerpolicy") (u "loading")) by reflexivity.
  rewrite !lookup_set_attr.
  unfold del_attrs. rewrite forallb_filter_self.
  rewrite !str_eqb_refl, !andb_true_r.
  destruct strict; [|reflexivity]. cbn [negb orb].
  exact (@absolute_is_absolute base_url src s (Hbase eq_refl) Ea Hne Ed).
Qed.

(** The loop over the videos. *)
Lemma resolve_video_step (nm : str) (attrs : list (str * str))
      (kids out : list node) :
  resolve_video base_url nm attrs kids = Ok out ->
  exists attrs',
    out = [Elem nm attrs' kids]
    /\ (str_eqb nm (u "video") = false -> attrs' = attrs)
    /\ video_resolved nm attrs' = true
    /\ source_resolved strict (u "video") nm attrs' = true.
Proof.
  intro H. unfold resolve_video in H.
  destruct (str_eqb nm (u "video")) eqn:En; cbn [negb] in H.
  2:{ injection H as <-. exists attrs. unfold video_resolved, source_resolved.
      rewrite En. auto. }
  set (src_attr := get_or (Elem nm attrs kids) (u "src") []) in H.
  set (src := if empty src_attr
              then match lazy_src [u "http"; u "/"; u "//"] LAZY_ATTRS
                           (Elem nm attrs kids) with
                   | Some v => v
                   | None => src_attr
                   end
              else src_attr) in H.
  assert (Hsrc : exists A0,
             (if Url.nonempty src
              then s <- absolute base_url src ;; Ok (set_attr (u "src") s attrs)
              else Ok attrs) = Ok A0
             /\ match lookup (u "src") A0 with
                | Some s => negb strict || empty s || absolute_address s
                | None => true
                end = true).
  { destruct (Url.nonempty src) eqn:Ene.
    - destruct (absolute base_url src) as [s|e] eqn:Ea; [|discriminate].
      cbn [bind]. eexists. split; [reflexivity|]. rewrite lookup_set_attr.
      destruct strict; [|reflexivity]. cbn [negb orb].
      rewrite (@absolute_address_of base_url src s (Hbase eq_refl) Ea).
      apply orb_true_r.
    - exists attrs. split; [reflexivity|].
      assert (Hattr : src_attr = []).
      { subst src. destruct (empty src_attr) eqn:Ee.
        - unfold empty in Ee. apply negb_true_iff in Ee.
          destruct src_attr; [reflexivity | discriminate].
        - unfold empty in Ee. rewrite Ene in Ee. discriminate. }
      unfold src_attr, get_or in Hattr. cbn [get] in Hattr.
      destruct (lookup (u "src") attrs) as [v|]; [|reflexivity].
      subst v. destruct strict; reflexivity. }
  destruct Hsrc as (A0 & EA & Hlook). rewrite EA in H. cbn [bind] in H.
  injection H as <-. eexists. split; [reflexivity|].
  split; [discriminate|].
  unfold video_resolved, source_resolved. rewrite En.
  rewrite !lookup_del_attrs_other by reflexivity.
  rewrite (@lookup_set_attr_other (u "referrerpolicy") (u "controls")) by reflexivity.
  rewrite (@lookup_set_attr_other (u "loading") (u "controls")) by reflexivity.
  rewrite (@lookup_set_attr_other (u "playsinline") (u "controls")) by reflexivity.
  rewrite (@lookup_set_attr_other (u "referrerpolicy") (u "playsinline")) by reflexivity.
  rewrite (@lookup_set_attr_other (u "loading") (u "playsinline")) by reflexivity.
  rewrite (@lookup_set_attr_other (u "referrerpolicy") (u "src")) by reflexivity.
  rewrite (@lookup_set_attr_other (u "loading") (u "src")) by reflexivity.
  rewrite (@lookup_set_attr_other (u "playsinline") (u "src")) by reflexivity.
  rewrite (@lookup_set_attr_other (u "controls") (u "src")) by reflexivity.
  rewrite !lookup_set_attr.
  unfold del_attrs. rewrite forallb_filter_self. split; [reflexivity | exact Hlook].
Qed.

(** The loop over the sources. *)
Lemma resolve_source_step (nm : str) (attrs : list (str * str))
      (kids out : list node) :
  resolve_source base_url nm attrs kids = Ok out ->
  exists attrs',
    out = [Elem nm attrs' kids]
    /\ (str_eqb nm (u "source") = false -> attrs' = attrs)
    /\ source_resolved strict (u "source") nm attrs' = true.
Proof.
  intro H. unfold resolve_source in H.
  destruct (str_eqb nm (u "source")) eqn:En; cbn [negb] in H.
  2:{ injection H as <-. exists attrs. unfold source_resolved. rewrite En. auto. }
  unfold source_resolved. rewrite En.
  set (src := get_or (Elem nm attrs kids) (u "src") []) in H.
  destruct (Url.nonempty src && negb (startswith src (u "http"))) eqn:Ec.
  - assert (Hs : forall s,
               (if startswith src (u "//") then Ok (u "https:" ++ src)
                else urljoin base_url src) = Ok s ->
               negb strict || empty s || absolute_address s = true).
    { intros s Hs. destruct strict; [|reflexivity]. cbn [negb orb].
      unfold absolute_address. destruct (startswith src (u "//")).
      - injection Hs as <-. reflexivity.
      - destruct (@urljoin_http base_url src s (Hbase eq_refl) Hs) as [J | [-> J]];
          rewrite J; [|rewrite orb_true_r]; apply orb_true_r. }
    destruct (if startswith src (u "//") then Ok (u "https:" ++ src)
              else urljoin base_url src) as [s|e] eqn:Es; [|discriminate].
    cbn [bind] in H. injection H as <-. eexists. split; [reflexivity|].
    split; [discriminate|]. rewrite lookup_set_attr. apply Hs. reflexivity.
  - injection H as <-. exists attrs. split; [reflexivity|]. split; [reflexivity|].
    unfold src, get_or in Ec. cbn [get] in Ec.
    destruct (lookup (u "src") attrs) as [v|]; [|reflexivity].
    destruct strict; [|reflexivity]. cbn [negb orb]. unfold empty, absolute_address.
    destruct (Url.nonempty v); [|reflexivity]. cbn [andb negb] in Ec |- *.
    apply negb_false_iff in Ec. rewrite Ec. reflexivity.
Qed.

(** After the three loops every image, video and source below the element
    is as its loop leaves it. *)
Lemma resolve_media_resolved (soup_element r : node) :
  _resolve_media soup_element base_url = Ok r ->
  forallb (every_elem (media_resolved strict)) (children r) = true.
Proof.
  unfold _resolve_media. intro H.
  destruct (rewrite_forest (resolve_img base_url) (children soup_element))
    as [k1|e] eqn:E1; [|discriminate].
  cbn [bind] in H.
  destruct (rewrite_forest (resolve_video base_url) k1) as [k2|e] eqn:E2;
    [|discriminate].
  cbn [bind] in H.
  destruct (rewrite_forest (resolve_source base_url) k2) as [k3|e] eqn:E3;
    [|discriminate].
  cbn [bind] in H. injection H as <-.
  assert (H1 : forallb (every_elem (image_resolved strict)) k1 = true).
  { eapply (@rewrite_every (fun _ _ => true) (image_resolved strict));
      [| apply every_elem_forest_trivial | exact E1].
    intros nm attrs kids o _. apply resolve_img_step. }
  set (Q2 := fun nm attrs => image_resolved strict nm attrs
                             && video_resolved nm attrs
                             && source_resolved strict (u "video") nm attrs).
  assert (H2 : forallb (every_elem Q2) k2 = true).
  { eapply (@rewrite_every (image_resolved strict) Q2); [| exact H1 | exact E2].
    intros nm attrs kids o HP Hk Ho.
    destruct (resolve_video_step _ _ _ Ho) as (attrs' & -> & Hsame & Hv & Hs).
    cbn [forallb every_elem]. rewrite Hk, !andb_true_r. unfold Q2.
    rewrite Hv, Hs, !andb_true_r.
    destruct (str_eqb nm (u "video")) eqn:En.
    - apply str_eqb_eq in En. subst nm. reflexivity.
    - rewrite (Hsame eq_refl). exact HP. }
  assert (H3 : forallb (every_elem (media_resolved strict)) k3 = true).
  { eapply (@rewrite_every Q2 (media_resolved strict)); [| exact H2 | exact E3].
    intros nm attrs kids o HP Hk Ho.
    destruct (resolve_source_step _ _ _ Ho) as (attrs' & -> & Hsame & Hs).
    cbn [forallb every_elem]. rewrite Hk, !andb_true_r. unfold media_resolved.
    rewrite Hs, andb_true_r.
    destruct (str_eqb nm (u "source")) eqn:En.
    - apply str_eqb_eq in En. subst nm. reflexivity.
    - rewrite (Hsame eq_refl). exact HP. }
  destruct soup_element; [reflexivity | reflexivity | exact H3].
Qed.

End ResolveMediaFacts.

Lemma media_resolved_below (strict : bool) (base_url : str)
      (soup_element r : node) (t : tag) :
  (strict = true -> http_base base_url) ->
  _resolve_media soup_element base_url = Ok r ->
  In t (tags_below (mkTag r [])) ->
  exists nm attrs kids,
    self t = Elem nm attrs kids /\ media_resolved strict nm attrs = true.
Proof.
  intros Hb H Hin. unfold tags_below in Hin. cbn [self ancestors] in Hin.
  destruct (@descendants_every (media_resolved strict) r [] t
              (@resolve_media_resolved strict base_url Hb soup_element r H) Hin)
    as [He (nm & attrs & kids & E)].
  exists nm, attrs, kids. split; [exact E|].
  rewrite E in He. cbn [every_elem] in He.
  apply andb_true_iff in He as [He _]. exact He.
Qed.

Lemma none_of_In (l : list str) (attrs : list (str * str)) :
  forallb (fun kv => negb (mem (fst kv) l)) attrs = true ->
  forall k v, In (k, v) attrs -> ~ In k l.
Proof.
  intros H k v Hin Hk. rewrite forallb_forall in H. specialize (H _ Hin).
  cbn [fst] in H. apply mem_In in Hk. rewrite Hk in H. discriminate.
Qed.

(** [_resolve_media]: below the element it returns, every image has a
    [src], [loading="lazy"] and [referrerpolicy="no-referrer"], and none of
    the lazy-load attributes, [width], [height], [onclick] or [onerror];
    every video has [controls] and [playsinline] and none of the lazy-load
    attributes, [onclick] or [onerror].  When the base url is an http or
    https address, the [src] of an image is not empty, is no [data:] url and
    is an absolute address (it begins with [http] or names a scheme of its
    own), and the [src] of a video or of a source is empty or an absolute
    address. *)
Theorem resolve_media_postcondition
        (base_url : str) (soup_element r : node) (t : tag) :
  _resolve_media soup_element base_url = Ok r ->
  In t (tags_below (mkTag r [])) ->
  (name_is (u "img") (self t) = true ->
   (exists s, get (self t) (u "src") = Some s
              /\ (http_base base_url ->
                  s <> [] /\ startswith s (u "data:") = false
                  /\ absolute_address s = true))
   /\ get (self t) (u "loading") = Some (u "lazy")
   /\ get (self t) (u "referrerpolicy") = Some (u "no-referrer")
   /\ (forall k v, In (k, v) (elem_attrs (self t)) ->
                   ~ In k (LAZY_ATTRS ++ [u "width"; u "height"; u "onclick";
                                          u "onerror"])))
  /\ (name_is (u "video") (self t) = true ->
      get (self t) (u "controls") <> None
      /\ get (self t) (u "playsinline") <> None
      /\ (forall k v, In (k, v) (elem_attrs (self t)) ->
                      ~ In k (LAZY_ATTRS ++ [u "onclick"; u "onerror"])))
  /\ (http_base base_url ->
      name_is (u "video") (self t) = true \/ name_is (u "source") (self t) = true ->
      forall s, get (self t) (u "src") = Some s ->
                s = [] \/ absolute_address s = true).
Proof.
  intros H Hin.
  destruct (@media_resolved_below false base_url soup_element r t
              ltac:(discriminate) H Hin) as (nm & attrs & kids & E & Hm).
  rewrite E. cbn [name_is get elem_attrs].
  unfold media_resolved in Hm.
  apply andb_true_iff in Hm as [Hm _]. apply andb_true_iff in Hm as [Hm _].
  apply andb_true_iff in Hm as [Hi Hv].
  split; [|split].
  - intro Hn. unfold image_resolved in Hi. rewrite Hn in Hi.
    apply andb_true_iff in Hi as [Hi Hnone]. apply andb_true_iff in Hi as [Hi Hrp].
    apply andb_true_iff in Hi as [Hsrc Hload].
    destruct (lookup (u "src") attrs) as [s|] eqn:Es; [|discriminate].
    destruct (lookup (u "loading") attrs) as [l|]; [|discriminate].
    destruct (lookup (u "referrerpolicy") attrs) as [p|]; [|discriminate].
    apply str_eqb_eq in Hload, Hrp. subst l p.
    split; [|split; [reflexivity | split; [reflexivity | exact (none_of_In _ _ Hnone)]]].
    exists s. split; [reflexivity|]. intro Hb.
    destruct (@media_resolved_below true base_url soup_element r t
                (fun _ => Hb) H Hin) as (nm' & attrs' & kids' & E' & Hm').
    rewrite E in E'. injection E' as <- <- <-.
    unfold media_resolved in Hm'.
    apply andb_true_iff in Hm' as [Hm' _]. apply andb_true_iff in Hm' as [Hm' _].
    apply andb_true_iff in Hm' as [Hi' _].
    unfold image_resolved in Hi'. rewrite Hn, Es in Hi'. cbn [negb orb] in Hi'.
    repeat (apply andb_true_iff in Hi'; destruct Hi' as [Hi' ?]).
    repeat match goal with
           | X : negb _ = true |- _ => apply negb_true_iff in X
           end.
    split; [apply nonempty_neq; assumption|]. split; assumption.
  - intro Hn. unfold video_resolved in Hv. rewrite Hn in Hv.
    apply andb_true_iff in Hv as [Hv Hnone]. apply andb_true_iff in Hv as [Hc Hp].
    destruct (lookup (u "controls") attrs); [|discriminate].
    destruct (lookup (u "playsinline") attrs); [|discriminate].
    split; [discriminate|]. split; [discriminate | exact (none_of_In _ _ Hnone)].
  - intros Hb Hn s Hs.
    destruct (@media_resolved_below true base_url soup_element r t
                (fun _ => Hb) H Hin) as (nm' & attrs' & kids' & E' & Hm').
    rewrite E in E'. injection E' as <- <- <-.
    unfold media_resolved in Hm'.
    apply andb_true_iff in Hm' as [Hm' Hss]. apply andb_true_iff in Hm' as [_ Hsv].
    assert (Hone : negb true || empty s || absolute_address s = true).
    { destruct Hn as [Hn | Hn].
      - unfold source_resolved in Hsv. rewrite Hn, Hs in Hsv. exact Hsv.
      - unfold source_resolved in Hss. rewrite Hn, Hs in Hss. exact Hss. }
    cbn [negb orb] in Hone. apply orb_true_iff in Hone as [Hone | Hone]; [|auto].
    left. unfold empty in Hone. apply negb_true_iff in Hone.
    destruct s; [reflexivity | discriminate].
Qed.

Lemma resolve_media_postcondition_witness :
  _resolve_media media_container
                 (u "https://bbs.ruliweb.com/best/board/300143/read/1")
  = Ok media_container_resolved
  /\ get (hd (Text []) (children media_container_resolved)) (u "loading")
     = Some (u "lazy").
Proof.
  split; [vm_compute; reflexivity|].
  refine (proj1 (proj2 (proj1
    (@resolve_media_postcondition
       (u "https://bbs.ruliweb.com/best/board/300143/read/1")
       media_container media_container_resolved
       (mkTag (hd (Text []) (children media_container_resolved))
              [media_container_resolved]) _ _) _))).
  - vm_compute. reflexivity.
  - left. reflexivity.
  - reflexivity.
Defined.

(* ================================================================= *)
(** * The crawler *)

(** ** What the adapters write *)

Ltac row_labelled parse_row :=
  let H := fresh "H" in
  intro H; unfold parse_row in H; cbv zeta in H; through H;
  injection H as <-; split; reflexivity.

Lemma fmkorea_row_site (tr : tag) (p : Post) :
  parse_fmkorea_row tr = Ok (Some p) ->
  site p = u "fmkorea" /\ collected_at p = None.
Proof. row_labelled parse_fmkorea_row. Qed.

Lemma humoruniv_row_site (tr : tag) (p : Post) :
  parse_humoruniv_row tr = Ok (Some p) ->
  site p = u "humoruniv" /\ collected_at p = None.
Proof. row_labelled parse_humoruniv_row. Qed.

Lemma ruliweb_row_site (tr : tag) (p : Post) :
  parse_ruliweb_row tr = Ok (Some p) ->
  site p = u "ruliweb" /\ collected_at p = None.
Proof. row_labelled parse_ruliweb_row. Qed.

Lemma etoland_row_site (li : tag) (p : Post) :
  parse_etoland_row li = Ok (Some p) ->
  site p = u "etoland" /\ collected_at p = None.
Proof. row_labelled parse_etoland_row. Qed.

Lemma inven_row_site (title_link : tag) (p : Post) :
  parse_inven_row title_link = Ok (Some p) ->
  site p = u "inven" /\ collected_at p = None.
Proof. row_labelled parse_inven_row. Qed.

Lemma dcinside_row_site (article : tag) (p : Post) :
  parse_dcinside_row article = Ok (Some p) ->
  site p = u "dcinside" /\ collected_at p = None.
Proof. row_labelled parse_dcinside_row. Qed.

Lemma clien_row_site (item : tag) (p : Post) :
  parse_clien_row item = Ok (Some p) ->
  site p = u "clien" /\ collected_at p = None.
Proof. row_labelled parse_clien_row. Qed.

Lemma list_item_row_site (site_name link base : string) (item : tag) (p : Post) :
  parse_list_item_row site_name link base item = Ok (Some p) ->
  site p = u site_name /\ collected_at p = None.
Proof. row_labelled parse_list_item_row. Qed.

Lemma mlbpark_row_site (title_elem : tag) (p : Post) :
  parse_mlbpark_row title_elem = Ok (Some p) ->
  site p = u "mlbpark" /\ collected_at p = None.
Proof. row_labelled parse_mlbpark_row. Qed.

Lemma cook82_row_site (title_elem : tag) (p : Post) :
  parse_82cook_row title_elem = Ok (Some p) ->
  site p = u "82cook" /\ collected_at p = None.
Proof. row_labelled parse_82cook_row. Qed.

Lemma damoang_row_site (title_link : tag) (p : Post) :
  parse_damoang_row title_link = Ok (Some p) ->
  site p = u "damoang" /\ collected_at p = None.
Proof. row_labelled parse_damoang_row. Qed.

Lemma ddanzi_row_site (tr : tag) (p : Post) :
  parse_ddanzi_row tr = Ok (Some p) ->
  site p = u "ddanzi" /\ collected_at p = None.
Proof. row_labelled parse_ddanzi_row. Qed.

Lemma bobaedream_row_site (tr : tag) (p : Post) :
  parse_bobaedream_row tr = Ok (Some p) ->
  site p = u "bobaedream" /\ collected_at p = None.
Proof. row_labelled parse_bobaedream_row. Qed.

Lemma ppomppu_row_site (unquote quote_plus : str -> str) (base_url : str)
      (link : tag) (p : Post) :
  parse_ppomppu_row unquote quote_plus base_url link = Ok (Some p) ->
  site p = u "ppomppu" /\ collected_at p = None.
Proof. row_labelled parse_ppomppu_row. Qed.

Lemma slrclub_row_site (tr : tag) (p : Post) :
  parse_slrclub_row tr = Ok (Some p) ->
  site p = u "slrclub" /\ collected_at p = None.
Proof. row_labelled parse_slrclub_row. Qed.

(** The result of an adapter is the result of [dedupe_posts]. *)
Lemma parse_of_deduped (unquote quote_plus : str -> str) (a : adapter)
      (base_url : str) (doc : tag) (posts : list Post) :
  parse_of unquote quote_plus a base_url doc = Ok posts ->
  exists X, posts = dedupe_posts X.
Proof.
  intro H.
  destruct a; cbn [parse_of] in H;
    match type of H with
    | ?f _ _ = _ => unfold f in H
    | ?f _ _ _ _ = _ => unfold f in H
    end;
    through H; injection H as <-;
    first [ eexists; reflexivity | exists []; reflexivity ].
Qed.

(** The adapters, their labels: the records that the parse function of an
    adapter returns carry the site name of this adapter and no collection
    time, and no two of them have the same dedupe key. *)
Theorem adapter_records_labelled
        (unquote quote_plus : str -> str) (a : adapter) (base_url : str)
        (doc : tag) (posts : list Post) :
  parse_of unquote quote_plus a base_url doc = Ok posts ->
  NoDup (map post_key posts)
  /\ Forall (fun p => site p = site_of a /\ collected_at p = None) posts.
Proof.
  intro H. split.
  - destruct (parse_of_deduped _ _ _ _ _ H) as [X ->]. apply dedupe_from_NoDup.
  - apply Forall_forall. intros p Hin.
    destruct a; cbn [parse_of site_of] in *.
    + unfold parse_fmkorea in H. from_rows H Hin. apply fmkorea_row_site.
    + unfold parse_humoruniv in H. from_rows H Hin. apply humoruniv_row_site.
    + unfold parse_ruliweb in H. from_rows H Hin. apply ruliweb_row_site.
    + unfold parse_etoland in H. from_rows H Hin. apply etoland_row_site.
    + unfold parse_inven in H. from_rows H Hin. apply inven_row_site.
    + unfold parse_dcinside in H. from_rows H Hin. apply dcinside_row_site.
    + unfold parse_clien in H. from_rows H Hin. apply clien_row_site.
    + unfold parse_dogdrip in H. from_rows H Hin. apply list_item_row_site.
    + unfold parse_theqoo in H. from_rows H Hin. apply list_item_row_site.
    + unfold parse_mlbpark in H. from_rows H Hin. apply mlbpark_row_site.
    + unfold parse_82cook in H. from_rows H Hin. apply cook82_row_site.
    + unfold parse_damoang in H. from_rows H Hin. apply damoang_row_site.
    + unfold parse_ddanzi in H. from_rows H Hin. apply ddanzi_row_site.
    + unfold parse_bobaedream in H. from_rows H Hin. apply bobaedream_row_site.
    + unfold parse_ppomppu in H. from_rows H Hin. apply ppomppu_row_site.
    + unfold parse_slrclub in H. from_rows H Hin. apply slrclub_row_site.
Qed.

Lemma adapter_records_labelled_witness :
  NoDup (map post_key [ddanzi_record])
  /\ Forall (fun p => site p = site_of ddanzi /\ collected_at p = None)
            [ddanzi_record].
Proof.
  apply (@adapter_records_labelled (fun s => s) (fun s => s) ddanzi
           (u "https://www.ddanzi.com/free") ddanzi_listing [ddanzi_record]).
  vm_compute. reflexivity.
Defined.

(** ** The popularity filters *)

(** The next step of a row is a call that may raise: it has returned. *)
Ltac returned H x :=
  match type of H with
  | bind ?m _ = _ => destruct m as [x|]; cbn [bind] in H; [|discriminate]
  end.

Lemma inven_row_filter (title_link : tag) (p : Post) :
  parse_inven_row title_link = Ok (Some p) -> site_filter inven p.
Proof.
  intro H. unfold parse_inven_row in H. cbv zeta in H.
  destruct (empty _ || empty _ || too_short 5 _); [discriminate|].
  match type of H with
  | (if ?c then _ else _) = _ => destruct c; [discriminate|]
  end.
  destruct (_abs _ _) as [url|e]; cbn [bind] in H; [|discriminate].
  returned H seen. returned H liked. returned H said.
  match type of H with
  | context [mkPost _ _ _ ?au _ _ _ _ _ _] =>
      remember au as written_by eqn:Ea in H
  end.
  clear Ea.
  match type of H with
  | (if ?c then _ else _) = _ => destruct c eqn:Estaff; [discriminate|]
  end.
  destruct (below 3000 seen) eqn:Eviews; [discriminate|].
  match type of H with
  | bind ?m _ = _ => destruct m; cbn [bind] in H; [|discriminate]
  end.
  injection H as <-. cbn [site_filter views author]. split.
  - unfold below in Eviews. destruct seen as [n|]; [|discriminate].
    exists n. split; [reflexivity | apply Z.ltb_ge; exact Eviews].
  - intros name Hname. subst written_by.
    apply andb_false_iff in Estaff as [E | E]; [|exact E].
    destruct name; [reflexivity | discriminate].
Qed.

Lemma damoang_row_filter (title_link : tag) (p : Post) :
  parse_damoang_row title_link = Ok (Some p) -> site_filter damoang p.
Proof.
  intro H. unfold parse_damoang_row in H. cbv zeta in H.
  destruct (empty _ || empty _ || too_short 5 _); [discriminate|].
  destruct (_abs _ _) as [url|e]; cbn [bind] in H; [|discriminate].
  destruct (find_parent_class _ _ _) as [parent_container|]; [|discriminate].
  match type of H with
  | (if ?c then _ else _) = _ => destruct c; [discriminate|]
  end.
  destruct (select_one [ElA "img" _] parent_container); [discriminate|].
  returned H said. destruct said as [n|]; [|discriminate].
  destruct (n <? 5)%Z eqn:En; [discriminate|].
  destruct (_extract_thumbnail _ _) as [th|e]; cbn [bind] in H; [|discriminate].
  injection H as <-. cbn [site_filter views likes comments].
  split; [|split; reflexivity].
  exists n. split; [reflexivity | apply Z.ltb_ge; exact En].
Qed.

Lemma bobaedream_row_filter (tr : tag) (p : Post) :
  parse_bobaedream_row tr = Ok (Some p) -> site_filter bobaedream p.
Proof.
  intro H. unfold parse_bobaedream_row in H. cbv zeta in H.
  destruct (select_one [ElC "a" "bsubject"] tr) as [title_link|]; [|discriminate].
  destruct (empty _ || empty _ || too_short 5 _); [discriminate|].
  destruct (_abs _ _) as [url|e]; cbn [bind] in H; [|discriminate].
  destruct (select_one [ElC "td" "recomm"] tr) as [cell|] eqn:Ecell.
  - returned H liked.
    destruct (below 3 liked) eqn:Eb; [discriminate|].
    returned H said. returned H seen.
    destruct (_extract_thumbnail _ _) as [th|e]; cbn [bind] in H; [|discriminate].
    injection H as <-. cbn [site_filter likes]. right.
    unfold below in Eb. destruct liked as [n|]; [|discriminate].
    exists n. split; [reflexivity | apply Z.ltb_ge; exact Eb].
  - cbn [count_in option_map _to_int_safe bind] in H.
    returned H said. returned H seen.
    destruct (_extract_thumbnail _ _) as [th|e]; cbn [bind] in H; [|discriminate].
    injection H as <-. cbn [site_filter likes]. left. reflexivity.
Qed.

(** The adapters, their filters: a record of inven has 3000 views or more
    and is not written by the site's staff, a record of damoang has five
    comments or more (and neither views nor likes), and a record of
    bobaedream has three recommendations or more, or none when the row has
    no cell for them. *)
Theorem adapter_records_filtered
        (unquote quote_plus : str -> str) (a : adapter) (base_url : str)
        (doc : tag) (posts : list Post) (p : Post) :
  parse_of unquote quote_plus a base_url doc = Ok posts ->
  In p posts ->
  site_filter a p.
Proof.
  intros H Hin.
  destruct a; cbn [parse_of site_filter] in *; try exact I.
  - unfold parse_inven in H. from_rows H Hin. apply inven_row_filter.
  - unfold parse_damoang in H. from_rows H Hin. apply damoang_row_filter.
  - unfold parse_bobaedream in H. from_rows H Hin. apply bobaedream_row_filter.
Qed.

Lemma adapter_records_filtered_witness : site_filter inven inven_record.
Proof.
  apply (@adapter_records_filtered (fun s => s) (fun s => s) inven
           (u "https://www.inven.co.kr/board/webzine/2097?category=유머")
           inven_listing [inven_record] inven_record).
  - vm_compute. reflexivity.
  - left. reflexivity.
Defined.

(** ** The records of an adapter *)

Ltac record_from H Hin parse ok_lemma site_lemma :=
  unfold parse in H; from_rows H Hin;
  let Hr := fresh "Hr" in
  intro Hr;
  let Ht := fresh "Ht" in
  let Hu := fresh "Hu" in
  let Hs := fresh "Hs" in
  destruct (ok_lemma _ _ Hr) as [Ht Hu]; destruct (site_lemma _ _ Hr) as [Hs _];
  split; [exact Hs | split; [exact Hu | split; [intros _; exact Ht | exact I]]].

(** Every record of the result of an adapter is one the adapter builds. *)
Lemma parse_of_record (unquote quote_plus : str -> str) (a : adapter)
      (base_url : str) (doc : tag) (posts : list Post) (p : Post) :
  (a = ppomppu -> http_base base_url) ->
  parse_of unquote quote_plus a base_url doc = Ok posts ->
  In p posts -> record_of a p.
Proof.
  intros Hb H Hin. unfold record_of.
  destruct a; cbn [parse_of site_of min_title site_filter] in *.
  - record_from H Hin parse_fmkorea (@fmkorea_row_ok) (@fmkorea_row_site).
  - record_from H Hin parse_humoruniv (@humoruniv_row_ok) (@humoruniv_row_site).
  - record_from H Hin parse_ruliweb (@ruliweb_row_ok) (@ruliweb_row_site).
  - record_from H Hin parse_etoland (@etoland_row_ok) (@etoland_row_site).
  - unfold parse_inven in H. from_rows H Hin. intro Hr.
    destruct (@inven_row_site _ _ Hr) as [Hs _].
    split; [exact Hs | split; [exact (@inven_row_ok _ _ Hr) | split]].
    + intro N. exfalso. apply N. reflexivity.
    + exact (@inven_row_filter _ _ Hr).
  - record_from H Hin parse_dcinside (@dcinside_row_ok) (@dcinside_row_site).
  - record_from H Hin parse_clien (@clien_row_ok) (@clien_row_site).
  - unfold parse_dogdrip in H. from_rows H Hin. intro Hr.
    destruct (@dogdrip_row_ok _ _ Hr) as [Ht Hu].
    destruct (@list_item_row_site _ _ _ _ _ Hr) as [Hs _].
    split; [exact Hs | split; [exact Hu | split; [intros _; exact Ht | exact I]]].
  - unfold parse_theqoo in H. from_rows H Hin. intro Hr.
    destruct (@theqoo_row_ok _ _ Hr) as [Ht Hu].
    destruct (@list_item_row_site _ _ _ _ _ Hr) as [Hs _].
    split; [exact Hs | split; [exact Hu | split; [intros _; exact Ht | exact I]]].
  - record_from H Hin parse_mlbpark (@mlbpark_row_ok) (@mlbpark_row_site).
  - record_from H Hin parse_82cook (@cook82_row_ok) (@cook82_row_site).
  - unfold parse_damoang in H. from_rows H Hin. intro Hr.
    destruct (@damoang_row_ok _ _ Hr) as [Ht Hu].
    destruct (@damoang_row_site _ _ Hr) as [Hs _].
    split; [exact Hs | split; [exact Hu | split; [intros _; exact Ht|]]].
    exact (@damoang_row_filter _ _ Hr).
  - record_from H Hin parse_ddanzi (@ddanzi_row_ok) (@ddanzi_row_site).
  - unfold parse_bobaedream in H. from_rows H Hin. intro Hr.
    destruct (@bobaedream_row_ok _ _ Hr) as [Ht Hu].
    destruct (@bobaedream_row_site _ _ Hr) as [Hs _].
    split; [exact Hs | split; [exact Hu | split; [intros _; exact Ht|]]].
    exact (@bobaedream_row_filter _ _ Hr).
  - unfold parse_ppomppu in H. from_rows H Hin. intro Hr.
    destruct (@ppomppu_row_ok _ _ _ _ _ (Hb eq_refl) Hr) as [Ht Hu].
    destruct (@ppomppu_row_site _ _ _ _ _ Hr) as [Hs _].
    split; [exact Hs | split; [exact Hu | split; [intros _; exact Ht | exact I]]].
  - record_from H Hin parse_slrclub (@slrclub_row_ok) (@slrclub_row_site).
Qed.

(** ** The transport *)

(** [fetch_html]: it makes one to three requests.  It returns the text that
    [_decode_html] gives for the last of them, which answered 200 with a
    body, or [None]: at once after a connect timeout, or after the third
    request.  After each request that neither succeeded nor timed out it
    sleeps one second more than after the one before, also after the
    third: one, three or six seconds in all. *)
Theorem fetch_html_schedule
        (decode_strict : str -> list N -> result str)
        (decode_lossy : str -> errors -> list N -> str)
        (get : nat -> outcome) (url : str) (r : option str) (trace : list event) :
  fetch_html decode_strict decode_lossy get url = (r, trace) ->
  1 <= requests trace <= 3
  /\ match r with
     | Some html =>
         (exists content encoding,
             get (requests trace - 1) = Response 200 content encoding
             /\ content <> []
             /\ _decode_html decode_strict decode_lossy url content encoding = Ok html)
         /\ seconds_slept trace = (requests trace - 1) * requests trace / 2
     | None =>
         (get (requests trace - 1) = ConnectTimeout
          /\ seconds_slept trace = (requests trace - 1) * requests trace / 2)
         \/ (requests trace = 3 /\ seconds_slept trace = 6
             /\ get 2 <> ConnectTimeout)
     end.
Proof.
  intro H. unfold fetch_html in H. cbn [seq fetch_attempts] in H.
  repeat match type of H with
         | context [match get ?k with _ => _ end] =>
             let G := fresh "G" in destruct (get k) eqn:G
         | context [if ?c then _ else _] =>
             let C := fresh "C" in destruct c eqn:C
         | context [match _decode_html ?a ?b ?c ?d ?e with _ => _ end] =>
             let D := fresh "D" in destruct (_decode_html a b c d e) eqn:D
         end.
  all: cbv beta iota zeta in H; injection H as <- <-.
  all: cbn [requests seconds_slept filter length fold_right Nat.sub Nat.add].
  all: (split; [lia|]).
  all: repeat match goal with
              | C : _ && _ = true |- _ => apply andb_true_iff in C; destruct C as [? ?]
              end.
  all: repeat match goal with
              | E : (_ =? 200)%Z = true |- _ => apply Z.eqb_eq in E; subst
              end.
  all: try (split; [|reflexivity]; do 2 eexists; split; [eassumption|];
            split; [|eassumption];
            let E := fresh in intro E; subst; discriminate).
  all: try (left; split; [assumption | reflexivity]).
  all: try (right; split; [reflexivity|]; split; [reflexivity|]; discriminate).
Qed.

Lemma fetch_html_schedule_witness :
  fetch_html sample_decode_strict sample_decode_lossy flaky_get
             (u "https://www.clien.net/service/board/park")
  = (Some (u "hi"), [Requested; Slept 1; Requested])
  /\ 1 <= requests [Requested; Slept 1; Requested] <= 3.
Proof.
  split; [vm_compute; reflexivity|].
  refine (proj1 (@fetch_html_schedule sample_decode_strict sample_decode_lossy
                   flaky_get (u "https://www.clien.net/service/board/park")
                   (Some (u "hi")) [Requested; Slept 1; Requested] _)).
  vm_compute. reflexivity.
Defined.

(** ** The drivers *)

Lemma dedupe_posts_covers (X : list Post) (q : Post) :
  In q X -> exists p, In p (dedupe_posts X) /\ post_key p = post_key q.
Proof.
  intro Hq. destruct (dedupe_from_covers X [] q Hq) as [H|H];
    [discriminate | exact H].
Qed.

Section DriverFacts.

Variable decode_strict : str -> list N -> result str.
Variable decode_lossy : str -> errors -> list N -> str.
Variable BeautifulSoup : str -> tag.
Variable page_get : str -> outcome.
Variable raises_for_status : Z -> bool.
Variable parse : str -> tag -> result (list Post).

Let attempt (url : str) : result (list Post) :=
  page_attempt decode_strict decode_lossy BeautifulSoup page_get raises_for_status
               parse url.

Let crawl (urls : list str) : list Post :=
  crawl_pages decode_strict decode_lossy BeautifulSoup page_get raises_for_status
              parse urls.

Lemma page_posts_In (url : str) (p : Post) :
  In p (page_posts decode_strict decode_lossy BeautifulSoup page_get
                   raises_for_status parse url) ->
  exists posts, attempt url = Ok posts /\ In p posts.
Proof.
  unfold page_posts. fold (attempt url).
  destruct (attempt url) as [posts|e]; [|intros []].
  intro H. exists posts. split; [reflexivity | exact H].
Qed.

Lemma crawl_pages_In (urls : list str) (p : Post) :
  In p (crawl urls) ->
  exists url posts, In url urls /\ attempt url = Ok posts /\ In p posts.
Proof.
  unfold crawl, crawl_pages. intro H. apply dedupe_posts_In in H.
  apply in_flat_map in H as [url [Hu Hp]].
  destruct (page_posts_In _ _ Hp) as [posts [Ha Hin]].
  exists url, posts. auto.
Qed.

(** The drivers that go through a list of pages (those of humoruniv,
    ddanzi, bobaedream and ppomppu): no two records of the result have the
    same dedupe key; every record comes from a page whose [try] block came
    to its end, and is one the parser returned for that page; every record
    that the parser returned for such a page is in the result, or another
    one with its key is; and a page whose block raises (the request, the
    status, the decoding or the parser) changes nothing of what the other
    pages give. *)
Theorem crawl_pages_pagewise (urls : list str) :
  NoDup (map post_key (crawl urls))
  /\ (forall p, In p (crawl urls) ->
        exists url posts, In url urls /\ attempt url = Ok posts /\ In p posts)
  /\ (forall url posts q,
        In url urls -> attempt url = Ok posts -> In q posts ->
        exists p, In p (crawl urls) /\ post_key p = post_key q)
  /\ (forall before url after e,
        urls = before ++ url :: after -> attempt url = Raise e ->
        crawl urls = crawl (before ++ after)).
Proof.
  split; [apply dedupe_from_NoDup|].
  split; [intros p; apply crawl_pages_In|].
  split.
  - intros url posts q Hu Ha Hq. apply dedupe_posts_covers.
    apply in_flat_map. exists url. split; [exact Hu|].
    unfold page_posts. fold (attempt url). rewrite Ha. exact Hq.
  - intros before url after e -> Ha. unfold crawl, crawl_pages.
    rewrite !flat_map_app. cbn [flat_map].
    unfold page_posts at 2. fold (attempt url). rewrite Ha. reflexivity.
Qed.

End DriverFacts.

(** ** A run of [crawl_all] *)

Lemma firstn_subset {A} (n : nat) (l : list A) (x : A) :
  In x (firstn n l) -> In x l.
Proof.
  revert n. induction l as [|y l IH]; intros [|n]; cbn [firstn]; intro H;
    try contradiction.
  destruct H as [H | H]; [left; exact H | right; exact (IH n H)].
Qed.


(** The pages of the drivers are https addresses. *)
Lemma humoruniv_pages_http :
  Forall http_base
    (map (page_url (u "https://web.humoruniv.com/board/humor/list.html?table=pds&st=day")
                   (u "&pg=")) (seq 1 2)).
Proof. cbn [map seq]. repeat (constructor; [http_base_tac|]). constructor. Qed.

Lemma ddanzi_pages_http :
  Forall http_base
    (map (fun page => if (1 <? page)%nat
                      then u "https://www.ddanzi.com/index.php?mid=free&page="
                           ++ str_of_nat page
                      else u "https://www.ddanzi.com/free") (seq 1 2)).
Proof. cbn [map seq]. repeat (constructor; [http_base_tac|]). constructor. Qed.

Lemma bobaedream_pages_http :
  Forall http_base
    (map (page_url (u "https://www.bobaedream.co.kr/list?code=strange")
                   (u "&page=")) (seq 1 5)).
Proof. cbn [map seq]. repeat (constructor; [http_base_tac|]). constructor. Qed.

Lemma ppomppu_pages_http :
  Forall http_base
    (map (page_url (u "https://www.ppomppu.co.kr/zboard/zboard.php?id=freeboard&hotlist_flag=999")
                   (u "&page=")) (seq 1 2)).
Proof. cbn [map seq]. repeat (constructor; [http_base_tac|]). constructor. Qed.

Section RunFacts.

Variable decode_strict : str -> list N -> result str.
Variable decode_lossy : str -> errors -> list N -> str.
Variable BeautifulSoup : str -> tag.
Variables unquote quote_plus : str -> str.
Variable get : str -> nat -> outcome.
Variable session_get : str -> outcome.
Variable page_get : str -> outcome.
Variable raises_for_status : Z -> bool.
Variable crawl_damoang_multi_pages : result (list Post).
Variable now : str.

Let parser_of (a : adapter) : str -> tag -> result (list Post) :=
  parse_of unquote quote_plus a.

Lemma page_attempt_parsed (parse : str -> tag -> result (list Post))
      (url : str) (posts : list Post) (p : Post) :
  page_attempt decode_strict decode_lossy BeautifulSoup page_get raises_for_status
               parse url = Ok posts ->
  In p posts ->
  exists html, parse url (BeautifulSoup html) = Ok posts.
Proof.
  unfold page_attempt. intros H Hin.
  destruct (page_get url) as [status content encoding| |]; try discriminate.
  destruct (raises_for_status status); [discriminate|].
  destruct (_decode_html _ _ _ _ _) as [html|e]; cbn [bind] in H; [|discriminate].
  destruct (Url.nonempty html).
  - exists html. exact H.
  - injection H as <-. destruct Hin.
Qed.

(** The records of a driver over pages are records of its adapter, the
    pages being http or https addresses. *)
Lemma crawl_pages_records (a : adapter) (urls : list str) (p : Post) :
  Forall http_base urls ->
  In p (crawl_pages decode_strict decode_lossy BeautifulSoup page_get
                    raises_for_status (parser_of a) urls) ->
  record_of a p.
Proof.
  intros Hurls Hin.
  destruct (@crawl_pages_In decode_strict decode_lossy BeautifulSoup page_get
              raises_for_status (parser_of a) urls p Hin)
    as (url & posts & Hu & Ha & Hp).
  destruct (@page_attempt_parsed (parser_of a) url posts p Ha Hp) as [html Hparse].
  rewrite Forall_forall in Hurls.
  exact (@parse_of_record unquote quote_plus a url (BeautifulSoup html) posts p
           (fun _ => Hurls url Hu) Hparse Hp).
Qed.

Lemma crawl_fmkorea_pages_records (pages : list nat) (posts : list Post) (p : Post) :
  crawl_fmkorea_pages decode_strict decode_lossy BeautifulSoup session_get pages
  = Ok posts ->
  In p posts -> record_of fmkorea p.
Proof.
  revert posts. induction pages as [|page pages IH]; intros posts H Hin;
    cbn [crawl_fmkorea_pages] in H.
  - injection H as <-. destruct Hin.
  - match type of H with
    | bind ?m _ = _ => destruct m as [here|e] eqn:Ehere; cbn [bind] in H;
                       [|discriminate]
    end.
    destruct (crawl_fmkorea_pages _ _ _ _ pages) as [others|e]; cbn [bind] in H;
      [|discriminate].
    injection H as <-. apply in_app_or in Hin as [Hin | Hin].
    + destruct (_fmkorea_fetch_sync _ _ _ _) as [[|c html]|].
      * injection Ehere as <-. destruct Hin.
      * exact (@parse_of_record unquote quote_plus fmkorea _ _ here p
                 ltac:(discriminate) Ehere Hin).
      * injection Ehere as <-. destruct Hin.
    + exact (IH others eq_refl Hin).
Qed.

(** The records of a site of [SITES], whatever the fetch, the drivers
    giving records of their adapters. *)
Section SiteRecords.

Variable fetch : str -> result (option str).
Variables drive_damoang drive_bobaedream drive_fmkorea drive_humoruniv
          drive_ddanzi drive_ppomppu : result (list Post).

Hypothesis bobaedream_driven :
  forall posts p, drive_bobaedream = Ok posts -> In p posts -> record_of bobaedream p.
Hypothesis fmkorea_driven :
  forall posts p, drive_fmkorea = Ok posts -> In p posts -> record_of fmkorea p.
Hypothesis humoruniv_driven :
  forall posts p, drive_humoruniv = Ok posts -> In p posts -> record_of humoruniv p.
Hypothesis ddanzi_driven :
  forall posts p, drive_ddanzi = Ok posts -> In p posts -> record_of ddanzi p.
Hypothesis ppomppu_driven :
  forall posts p, drive_ppomppu = Ok posts -> In p posts -> record_of ppomppu p.

(** The tests of [_crawl_site] on the name of the site, decided. *)
Ltac decide_names H :=
  repeat match type of H with
         | context [str_eqb (u ?a) (u ?b)] =>
             let v := eval vm_compute in (str_eqb (u a) (u b)) in
             let E := fresh "E" in
             assert (E : str_eqb (u a) (u b) = v) by (vm_compute; reflexivity);
             rewrite E in H; clear E
         end.

(** A site that is fetched in one request and parsed. *)
Ltac fetched_site H Hin a :=
  match type of H with
  | bind ?m _ = _ => destruct m as [[[|? ?]|]|?]; cbn [bind] in H;
                     try discriminate H
  end;
  let E := fresh "Eparse" in
  match type of H with
  | bind ?m _ = _ => destruct m eqn:E; cbn [bind] in H; [|discriminate H]
  end;
  injection H as <-; exists a; split;
  [ unfold crawled; cbn [In]; auto 15
  | unfold on_html in E;
    exact (@parse_of_record unquote quote_plus a _ _ _ _
             ltac:(discriminate) E Hin) ].

(** A site that has a driver. *)
Ltac driven_site H Hin a driven :=
  let d := fresh "d" in
  let E := fresh "E" in
  match type of H with
  | bind ?m _ = _ => remember m as d eqn:E; destruct d; cbn [bind] in H;
                     [|discriminate H]
  end;
  injection H as <-; exists a; split;
  [ unfold crawled; cbn [In]; auto 15
  | exact (driven _ _ eq_refl Hin) ].

Lemma site_records (name url : str) (parser : parser_t) (posts : list Post)
      (p : Post) :
  In (name, url, parser) (SITES BeautifulSoup unquote quote_plus) ->
  crawl_attempt fetch drive_damoang drive_bobaedream drive_fmkorea
                drive_humoruniv drive_ddanzi drive_ppomppu name url parser
  = Ok (Some posts) ->
  In p posts ->
  exists a, In a crawled /\ record_of a p.
Proof.
  intros Hs H Hin. unfold SITES in Hs. cbn [In] in Hs.
  repeat (destruct Hs as [Hs | Hs]; [injection Hs as <- <- <- | ]);
    [.. | contradiction];
    unfold crawl_attempt in H; decide_names H.
  - driven_site H Hin fmkorea fmkorea_driven.
  - driven_site H Hin humoruniv humoruniv_driven.
  - fetched_site H Hin ruliweb.
  - fetched_site H Hin etoland.
  - fetched_site H Hin inven.
  - fetched_site H Hin clien.
  - fetched_site H Hin mlbpark.
  - driven_site H Hin ddanzi ddanzi_driven.
  - driven_site H Hin bobaedream bobaedream_driven.
  - driven_site H Hin ppomppu ppomppu_driven.
  - fetched_site H Hin slrclub.
Qed.

End SiteRecords.

Lemma crawl_fmkorea_records (posts : list Post) (p : Post) :
  crawl_fmkorea decode_strict decode_lossy BeautifulSoup session_get = Ok posts ->
  In p posts -> record_of fmkorea p.
Proof.
  unfold crawl_fmkorea. intros H Hin.
  destruct (crawl_fmkorea_pages _ _ _ _ _) as [collected|e] eqn:Ep;
    cbn [bind] in H; [|discriminate].
  injection H as <-. apply dedupe_posts_In in Hin.
  exact (@crawl_fmkorea_pages_records (seq 1 2) collected p Ep Hin).
Qed.

(** A run of [crawl_all] over the transport, whatever the network and the
    pages: it returns, and every record of its result is a record of one of
    the eleven adapters of [SITES]: it carries the site name of the adapter,
    an address that is not empty and begins with [http] (or is the link of
    the row, which names a scheme of its own), a title of the adapter's
    minimum length (but for inven), the counts the site's filter asks for,
    and a collection time. *)
Theorem crawl_all_run_records :
  exists results,
    crawl_all_run decode_strict decode_lossy BeautifulSoup unquote quote_plus get
                  session_get page_get raises_for_status crawl_damoang_multi_pages
                  now = Ok results
    /\ forall p, In p results ->
                 (exists a, In a crawled /\ record_of a p)
                 /\ collected_at p <> None.
Proof.
  unfold crawl_all_run. eexists. split; [apply crawl_all_contributions|].
  intros p Hin. apply in_flat_map in Hin as [[[name address] parser] [Hs Hp]].
  cbn [fst snd] in Hp. unfold contribution in Hp.
  match type of Hp with
  | In _ (match ?att with _ => _ end) => destruct att as [[posts|]|e] eqn:Ea
  end; try (destruct Hp; fail).
  apply in_map_iff in Hp as [q [<- Hq]].
  assert (Hq' : In q posts) by exact (@firstn_subset _ 30 posts q Hq).
  assert (Hrec : exists a, In a crawled /\ record_of a q).
  { eapply site_records; cycle 5; [exact Hs | exact Ea | exact Hq' | ..].
    - intros ? ? E. injection E as <-.
      apply (@crawl_pages_records bobaedream _ _ bobaedream_pages_http).
    - apply crawl_fmkorea_records.
    - intros ? ? E. injection E as <-.
      apply (@crawl_pages_records humoruniv _ _ humoruniv_pages_http).
    - intros ? ? E. injection E as <-.
      apply (@crawl_pages_records ddanzi _ _ ddanzi_pages_http).
    - intros ? ? E. injection E as <-.
      apply (@crawl_pages_records ppomppu _ _ ppomppu_pages_http). }
  destruct Hrec as (a & Ha & Hs' & Hu & Ht & Hf).
  split; [|discriminate].
  exists a. split; [exact Ha|].
  unfold record_of. cbn [to_dict site url title].
  split; [exact Hs' | split; [exact Hu | split; [exact Ht|]]].
  destruct a; cbn [site_filter] in Hf |- *; exact Hf.
Qed.

(** *** Failures, source by source and page by page *)

Let fetch (url : str) : result (option str) :=
  Ok (fst (fetch_html decode_strict decode_lossy (get url) url)).

Let pages_of (parse : str -> tag -> result (list Post)) (urls : list str)
  : list Post :=
  crawl_pages decode_strict decode_lossy BeautifulSoup page_get raises_for_status
              parse urls.

Let page_of (parse : str -> tag -> result (list Post)) (url : str)
  : result (list Post) :=
  page_attempt decode_strict decode_lossy BeautifulSoup page_get raises_for_status
               parse url.

Let fmkorea_pages (pages : list nat) : result (list Post) :=
  crawl_fmkorea_pages decode_strict decode_lossy BeautifulSoup session_get pages.

Let humoruniv_posts : list Post :=
  crawl_humoruniv_multi_pages decode_strict decode_lossy BeautifulSoup page_get
    raises_for_status.

Let ddanzi_posts : list Post :=
  crawl_ddanzi_multi_pages decode_strict decode_lossy BeautifulSoup page_get
    raises_for_status.

Let bobaedream_posts : list Post :=
  crawl_bobaedream_multi_pages decode_strict decode_lossy BeautifulSoup page_get
    raises_for_status.

Let ppomppu_posts : list Post :=
  crawl_ppomppu_multi_pages decode_strict decode_lossy BeautifulSoup unquote
    quote_plus page_get raises_for_status.

Let fmkorea_posts : result (list Post) :=
  crawl_fmkorea decode_strict decode_lossy BeautifulSoup session_get.

(** What a source adds to the result of the run. *)
Let added (s : str * str * parser_t) : list Post :=
  contribution now
    (crawl_attempt fetch crawl_damoang_multi_pages (Ok bobaedream_posts)
       fmkorea_posts (Ok humoruniv_posts) (Ok ddanzi_posts) (Ok ppomppu_posts)
       (fst (fst s)) (snd (fst s)) (snd s)).

(** The tests of [_crawl_site] on the name of the site, decided. *)
Ltac decide_site_names :=
  repeat match goal with
         | |- context [str_eqb (u ?a) (u ?b)] =>
             let v := eval vm_compute in (str_eqb (u a) (u b)) in
             let E := fresh "E" in
             assert (E : str_eqb (u a) (u b) = v) by (vm_compute; reflexivity);
             rewrite E; clear E
         end.

Ltac one_request_site :=
  unfold added, crawl_attempt; cbn [fst snd]; decide_site_names;
  unfold fetch; cbn [bind];
  match goal with
  | |- match ?f with _ => _ end =>
      destruct f as [[|c html]|]; try reflexivity
  end;
  match goal with
  | |- match ?r with _ => _ end => destruct r; reflexivity
  end.

Lemma one_request_sources (name url : str) (parser : parser_t) :
  In (name, url, parser) (SITES BeautifulSoup unquote quote_plus) ->
  mem name [u "fmkorea"; u "humoruniv"; u "ddanzi"; u "bobaedream"; u "ppomppu"]
  = false ->
  match fst (fetch_html decode_strict decode_lossy (get url) url) with
  | Some ((_ :: _) as html) =>
      match parser url html with
      | Ok posts => added (name, url, parser) = map (to_dict now) (firstn 30 posts)
      | Raise _ => added (name, url, parser) = []
      end
  | _ => added (name, url, parser) = []
  end.
Proof.
  intros Hs Hm. unfold SITES in Hs. cbn [In] in Hs.
  repeat (destruct Hs as [Hs | Hs]; [injection Hs as <- <- <- | ]);
    [.. | contradiction];
    try (exfalso; vm_compute in Hm; discriminate Hm); clear Hm.
  - one_request_site.
  - one_request_site.
  - one_request_site.
  - one_request_site.
  - one_request_site.
  - one_request_site.
Qed.

Ltac paged_site := unfold added, crawl_attempt; cbn [fst snd]; decide_site_names;
                   reflexivity.

Lemma humoruniv_added (url : str) (parser : parser_t) :
  added (u "humoruniv", url, parser) = map (to_dict now) (firstn 30 humoruniv_posts).
Proof. paged_site. Qed.

Lemma ddanzi_added (url : str) (parser : parser_t) :
  added (u "ddanzi", url, parser) = map (to_dict now) (firstn 30 ddanzi_posts).
Proof. paged_site. Qed.

Lemma bobaedream_added (url : str) (parser : parser_t) :
  added (u "bobaedream", url, parser) = map (to_dict now) (firstn 30 bobaedream_posts).
Proof. paged_site. Qed.

Lemma ppomppu_added (url : str) (parser : parser_t) :
  added (u "ppomppu", url, parser) = map (to_dict now) (firstn 30 ppomppu_posts).
Proof. paged_site. Qed.

Lemma fmkorea_added (url : str) (parser : parser_t) :
  added (u "fmkorea", url, parser)
  = match fmkorea_posts with
    | Ok posts => map (to_dict now) (firstn 30 posts)
    | Raise _ => []
    end.
Proof.
  unfold added, crawl_attempt; cbn [fst snd]; decide_site_names.
  destruct fmkorea_posts; reflexivity.
Qed.

(** C4, as the code does it.  A run of [crawl_all] never raises, and its
    result is what the sources add one after the other, in the order of
    [SITES], so that nothing that happens to one source changes what
    another one adds.  A source that is fetched in one request (ruliweb,
    etoland, inven, clien, mlbpark, slrclub) adds nothing when its fetch
    gives nothing (all attempts failed, or the connection timed out) and
    when its parser raises, and the first 30 records of its parser
    otherwise.  A source that a driver crawls page by page through httpx
    (humoruniv, ddanzi, bobaedream, ppomppu) adds the first 30 records of
    its driver, which does not raise: a page whose request, status,
    decoding or parser raises is left out, and the records of every other
    page stay (or records with their keys).  So a failure inside the crawl
    of such a source does not empty what it adds.  For fmkorea a page whose
    fetch gives nothing is left out in the same way, but a parser that
    raises on a page makes the crawl of the source raise, and the source
    add nothing. *)
Theorem failures_by_source_and_page :
  crawl_all_run decode_strict decode_lossy BeautifulSoup unquote quote_plus get
                session_get page_get raises_for_status crawl_damoang_multi_pages
                now
  = Ok (flat_map added (SITES BeautifulSoup unquote quote_plus))
  /\ (forall name url parser,
        In (name, url, parser) (SITES BeautifulSoup unquote quote_plus) ->
        mem name [u "fmkorea"; u "humoruniv"; u "ddanzi"; u "bobaedream";
                  u "ppomppu"] = false ->
        match fst (fetch_html decode_strict decode_lossy (get url) url) with
        | Some ((_ :: _) as html) =>
            match parser url html with
            | Ok posts =>
                added (name, url, parser) = map (to_dict now) (firstn 30 posts)
            | Raise _ => added (name, url, parser) = []
            end
        | _ => added (name, url, parser) = []
        end)
  /\ (forall url parser,
        added (u "humoruniv", url, parser)
        = map (to_dict now) (firstn 30 humoruniv_posts)
        /\ added (u "ddanzi", url, parser)
           = map (to_dict now) (firstn 30 ddanzi_posts)
        /\ added (u "bobaedream", url, parser)
           = map (to_dict now) (firstn 30 bobaedream_posts)
        /\ added (u "ppomppu", url, parser)
           = map (to_dict now) (firstn 30 ppomppu_posts))
  /\ (forall parse before url after e,
        page_of parse url = Raise e ->
        pages_of parse (before ++ url :: after) = pages_of parse (before ++ after))
  /\ (forall parse urls url posts q,
        In url urls -> page_of parse url = Ok posts -> In q posts ->
        exists p, In p (pages_of parse urls) /\ post_key p = post_key q)
  /\ (forall url parser,
        added (u "fmkorea", url, parser)
        = match fmkorea_posts with
          | Ok posts => map (to_dict now) (firstn 30 posts)
          | Raise _ => []
          end)
  /\ (forall page rest,
        let url := page_url
                     (u "https://www.fmkorea.com/index.php?mid=humor&category=486622")
                     (u "&page=") page in
        match _fmkorea_fetch_sync decode_strict decode_lossy session_get url with
        | Some ((_ :: _) as html) =>
            forall e, parse_fmkorea url (BeautifulSoup html) = Raise e ->
                      fmkorea_pages (page :: rest) = Raise e
        | _ => fmkorea_pages (page :: rest) = fmkorea_pages rest
        end)
  /\ (forall e, fmkorea_pages (seq 1 2) = Raise e -> fmkorea_posts = Raise e).
Proof.
  split; [unfold crawl_all_run; apply crawl_all_contributions|].
  split; [exact one_request_sources|].
  split.
  { intros url parser.
    split; [apply humoruniv_added|]. split; [apply ddanzi_added|].
    split; [apply bobaedream_added | apply ppomppu_added]. }
  split.
  { intros parse before url after e Ha. unfold pages_of, crawl_pages.
    rewrite !flat_map_app. cbn [flat_map].
    unfold page_posts at 2. fold (page_of parse url). rewrite Ha. reflexivity. }
  split.
  { intros parse urls url posts q Hu Ha Hq. apply dedupe_posts_covers.
    apply in_flat_map. exists url. split; [exact Hu|].
    unfold page_posts. fold (page_of parse url). rewrite Ha. exact Hq. }
  split; [exact fmkorea_added|].
  split.
  { intros page rest. cbv zeta. unfold fmkorea_pages. cbn [crawl_fmkorea_pages].
    destruct (_fmkorea_fetch_sync _ _ _ _) as [[|c html]|].
    - cbn [bind]. destruct (crawl_fmkorea_pages _ _ _ _ rest); reflexivity.
    - intros e He. rewrite He. reflexivity.
    - cbn [bind]. destruct (crawl_fmkorea_pages _ _ _ _ rest); reflexivity. }
  intros e He. unfold fmkorea_posts, crawl_fmkorea.
  unfold fmkorea_pages in He. rewrite He. reflexivity.
Qed.

End RunFacts.

(** C4, as the claim states it, fails.  On a network where the request for
    the first page of ddanzi fails, the crawl of ddanzi goes on: the record
    of its second page is in the result of [crawl_all], though an exception
    was raised inside the crawl of the source. *)
Lemma ddanzi_page_failure_is_not_empty :
  page_attempt sample_decode_strict sample_decode_lossy ddanzi_parser
               ddanzi_first_page_down raises_from_400 parse_ddanzi
               (u "https://www.ddanzi.com/free")
  = Raise TransportError
  /\ crawl_ddanzi_multi_pages sample_decode_strict sample_decode_lossy
       ddanzi_parser ddanzi_first_page_down raises_from_400
     = [ddanzi_record]
  /\ crawl_all_run sample_decode_strict sample_decode_lossy ddanzi_parser
       (fun s => s) (fun s => s) unreachable no_session ddanzi_first_page_down
       raises_from_400 (Ok []) (u "2025-02-01T10:00:00")
     = Ok [to_dict (u "2025-02-01T10:00:00") ddanzi_record].
Proof. conjuncts; vm_compute; reflexivity. Qed.

(** ** Deduplication over concatenated lists *)

Lemma dedupe_from_filter (B : list Post) :
  forall s s1 s2,
    (forall k, mem k s = mem k s1 || mem k s2) ->
    dedupe_from s B
    = filter (fun p => negb (mem (post_key p) s1)) (dedupe_from s2 B).
Proof.
  induction B as [|x B IH]; intros s s1 s2 Hs; cbn [dedupe_from]; [reflexivity|].
  cbv zeta. rewrite (Hs (dedupe_key (url x))).
  destruct (mem (dedupe_key (url x)) s2) eqn:E2.
  - rewrite orb_true_r. apply IH, Hs.
  - rewrite orb_false_r. cbn [filter].
    change (post_key x) with (dedupe_key (url x)).
    destruct (mem (dedupe_key (url x)) s1) eqn:E1; cbn [negb].
    + apply IH. intro k. rewrite mem_cons, Hs.
      destruct (str_eqb k (dedupe_key (url x))) eqn:Ek; [|reflexivity].
      apply str_eqb_eq in Ek. subst k. rewrite E1. reflexivity.
    + f_equal. apply IH. intro k. rewrite !mem_cons, Hs.
      destruct (str_eqb k (dedupe_key (url x))), (mem k s1), (mem k s2);
        reflexivity.
Qed.

Lemma dedupe_from_app (B A : list Post) :
  forall seen s,
    (forall k, mem k s = mem k (map post_key A) || mem k seen) ->
    dedupe_from seen (A ++ B) = dedupe_from seen A ++ dedupe_from s B.
Proof.
  induction A as [|x A IH]; intros seen s Hs.
  - cbn [app dedupe_from]. etransitivity.
    + apply (@dedupe_from_filter B seen [] seen). reflexivity.
    + symmetry. apply (@dedupe_from_filter B s [] seen).
      intro k. rewrite Hs. reflexivity.
  - cbn [app dedupe_from]. cbv zeta.
    destruct (mem (dedupe_key (url x)) seen) eqn:E.
    + apply IH. intro k. rewrite Hs. cbn [map]. rewrite mem_cons.
      unfold post_key at 1.
      destruct (str_eqb k (dedupe_key (url x))) eqn:Ek; [|reflexivity].
      apply str_eqb_eq in Ek. subst k. rewrite E.
      destruct (mem _ (map post_key A)); reflexivity.
    + cbn [app]. f_equal. apply IH. intro k. rewrite Hs. cbn [map].
      rewrite !mem_cons. unfold post_key at 1.
      destruct (str_eqb k (dedupe_key (url x))), (mem k (map post_key A)),
        (mem k seen); reflexivity.
Qed.

Lemma dedupe_posts_app (A B : list Post) :
  dedupe_posts (A ++ B)
  = dedupe_posts A
    ++ filter (fun p => negb (mem (post_key p) (map post_key A)))
         (dedupe_posts B).
Proof.
  unfold dedupe_posts.
  rewrite (@dedupe_from_app B A [] (map post_key A)).
  - f_equal. apply dedupe_from_filter. intro k. rewrite orb_false_r. reflexivity.
  - intro k. rewrite orb_false_r. reflexivity.
Qed.

Lemma dedupe_posts_fixed (A : list Post) :
  dedupe_posts (dedupe_posts A) = dedupe_posts A.
Proof.
  unfold dedupe_posts.
  apply dedupe_from_fixed; [apply dedupe_from_NoDup | reflexivity].
Qed.

Lemma dedupe_posts_keys (A : list Post) (k : str) :
  mem k (map post_key (dedupe_posts A)) = mem k (map post_key A).
Proof.
  destruct (mem k (map post_key A)) eqn:E.
  - apply mem_In. apply mem_In in E. apply in_map_iff in E.
    destruct E as [q [Eq Hq]].
    destruct (@dedupe_posts_covers A q Hq) as [p [Hp Ep]].
    apply in_map_iff. exists p. split; [congruence | exact Hp].
  - destruct (mem k (map post_key (dedupe_posts A))) eqn:E'; [|reflexivity].
    apply mem_In in E'. apply in_map_iff in E'. destruct E' as [p [Ep Hp]].
    apply dedupe_posts_In in Hp.
    assert (H : mem k (map post_key A) = true).
    { apply mem_In. apply in_map_iff. exists p. split; assumption. }
    congruence.
Qed.

Lemma dedupe_posts_left (A B : list Post) :
  dedupe_posts (dedupe_posts A ++ B) = dedupe_posts (A ++ B).
Proof.
  rewrite !dedupe_posts_app, dedupe_posts_fixed. f_equal.
  apply filter_ext. intro p. rewrite dedupe_posts_keys. reflexivity.
Qed.

Lemma dedupe_posts_right (A B : list Post) :
  dedupe_posts (A ++ dedupe_posts B) = dedupe_posts (A ++ B).
Proof. rewrite !dedupe_posts_app, dedupe_posts_fixed. reflexivity. Qed.

(** Deduplication composes over concatenation.  The posts kept from
    [A ++ B] are those kept from [A], followed by those kept from [B]
    whose key no post of [A] has: a list placed earlier always wins, and
    what it contributes does not depend on what follows it.  Deduplicating
    the parts first changes nothing: whatever produces the parts [f x],
    deduplicating every part and then the concatenation gives the same list
    as deduplicating the concatenation of the parts as they are; the page
    drivers do the former, with the pages that the adapters have
    deduplicated one by one. *)
Theorem dedupe_posts_composition :
  (forall A B,
      dedupe_posts (A ++ B)
      = dedupe_posts A
        ++ filter (fun p => negb (mem (post_key p) (map post_key A)))
             (dedupe_posts B))
  /\ (forall (X : Type) (f : X -> list Post) (xs : list X),
        dedupe_posts (flat_map (fun x => dedupe_posts (f x)) xs)
        = dedupe_posts (flat_map f xs)).
Proof.
  split; [exact dedupe_posts_app|].
  intros X f xs. induction xs as [|x xs IH]; [reflexivity|].
  cbn [flat_map]. rewrite dedupe_posts_left.
  rewrite <- (@dedupe_posts_right (f x) (flat_map _ xs)), IH.
  apply dedupe_posts_right.
Qed.

(** ** The backfill of the thumbnails *)

Lemma nth_error_update (store : list Post) :
  forall r i p,
    nth_error (update r p store) i
    = if (i =? r)%nat
      then match nth_error store i with Some _ => Some p | None => None end
      else nth_error store i.
Proof.
  induction store as [|q store IH]; intros r i p.
  - destruct r, i; cbn [update nth_error Nat.eqb]; try reflexivity.
    destruct (_ =? _)%nat; reflexivity.
  - destruct r as [|r], i as [|i]; cbn [update nth_error Nat.eqb]; try reflexivity.
    apply IH.
Qed.

Lemma no_thumb_from_In (posts : list Post) :
  forall start r,
    In r (no_thumb_from start posts)
    <-> exists i p, r = start + i /\ nth_error posts i = Some p
                    /\ truthy (thumbnail p) = false.
Proof.
  induction posts as [|q posts IH]; intros start r; cbn [no_thumb_from].
  - split; [intros [] | intros (i & p & _ & H & _); destruct i; discriminate].
  - assert (Hrest : In r (no_thumb_from (S start) posts)
                    <-> exists i p, r = start + S i /\ nth_error posts i = Some p
                                    /\ truthy (thumbnail p) = false).
    { rewrite IH. split; intros (i & p & E & H); exists i, p; (split; [lia|exact H]). }
    destruct (truthy (thumbnail q)) eqn:Eq.
    + rewrite Hrest. split.
      * intros (i & p & E & H). exists (S i), p. split; [exact E | exact H].
      * intros (i & p & E & H & Ht). destruct i as [|i].
        -- cbn [nth_error] in H. injection H as <-. congruence.
        -- exists i, p. split; [exact E | split; assumption].
    + cbn [In]. rewrite Hrest. split.
      * intros [<- | (i & p & E & H)].
        -- exists 0, q. split; [lia | split; [reflexivity | exact Eq]].
        -- exists (S i), p. split; [exact E | exact H].
      * intros (i & p & E & H & Ht). destruct i as [|i].
        -- left. lia.
        -- right. exists i, p. split; [exact E | split; assumption].
Qed.

Lemma setdefault_append_grouped (by_site : list (str * list nat)) (s : str) (r0 : nat) :
  forall k r,
    grouped (setdefault_append s r0 by_site) k r
    <-> grouped by_site k r \/ (k = s /\ r = r0).
Proof.
  induction by_site as [|[k0 v0] rest IH]; intros k r; cbn [setdefault_append].
  - split.
    + intros (v & [E|[]] & Hr). injection E as <- <-.
      destruct Hr as [<-|[]]. right. split; reflexivity.
    + intros [(v & [] & _) | [-> ->]]. exists [r0]. split; left; reflexivity.
  - destruct (str_eqb k0 s) eqn:E.
    + apply str_eqb_eq in E. subst k0. split.
      * intros (v & [Ev|Hv] & Hr).
        -- injection Ev as <- <-. apply in_app_or in Hr. destruct Hr as [Hr|[<-|[]]].
           ++ left. exists v0. split; [left; reflexivity | exact Hr].
           ++ right. split; reflexivity.
        -- left. exists v. split; [right; exact Hv | exact Hr].
      * intros [(v & [Ev|Hv] & Hr) | [-> ->]].
        -- injection Ev as <- <-. exists (v0 ++ [r0]).
           split; [left; reflexivity | apply in_or_app; left; exact Hr].
        -- exists v. split; [right; exact Hv | exact Hr].
        -- exists (v0 ++ [r0]).
           split; [left; reflexivity | apply in_or_app; right; left; reflexivity].
    + split.
      * intros (v & [Ev|Hv] & Hr).
        -- injection Ev as <- <-. left. exists v0. split; [left; reflexivity | exact Hr].
        -- destruct (proj1 (IH k r)) as [(v' & Hv' & Hr') | Hn].
           ++ exists v. split; assumption.
           ++ left. exists v'. split; [right; exact Hv' | exact Hr'].
           ++ right. exact Hn.
      * intros [(v & [Ev|Hv] & Hr) | Hn].
        -- exists v. split; [left; exact Ev | exact Hr].
        -- destruct (proj2 (IH k r)) as (v' & Hv' & Hr').
           ++ left. exists v. split; assumption.
           ++ exists v'. split; [right; exact Hv' | exact Hr'].
        -- destruct (proj2 (IH k r) (or_intror Hn)) as (v' & Hv' & Hr').
           exists v'. split; [right; exact Hv' | exact Hr'].
Qed.

Section BackfillFacts.

Variable extract_thumbnail_from_page : str -> str -> option str.
Variable posts : list Post.

Lemma group_by_site_grouped (no_thumb : list nat) :
  forall by_site k r,
    grouped (fold_left
               (fun by_site r =>
                  match nth_error posts r with
                  | Some p =>
                      if Url.nonempty (site p)
                      then setdefault_append (site p) r by_site
                      else by_site
                  | None => by_site
                  end) no_thumb by_site) k r
    <-> grouped by_site k r
        \/ (In r no_thumb
            /\ exists p, nth_error posts r = Some p
                         /\ Url.nonempty (site p) = true /\ site p = k).
Proof.
  induction no_thumb as [|r0 rest IH]; intros by_site k r; cbn [fold_left].
  - split; [intro H; left; exact H | intros [H | [[] _]]; exact H].
  - rewrite IH. cbn [In].
    destruct (nth_error posts r0) as [p0|] eqn:E0.
    + destruct (Url.nonempty (site p0)) eqn:En.
      * rewrite setdefault_append_grouped. split.
        -- intros [[H | [-> ->]] | [Hin H]].
           ++ left. exact H.
           ++ right. split; [left; reflexivity|].
              exists p0. split; [exact E0 | split; [exact En | reflexivity]].
           ++ right. split; [right; exact Hin | exact H].
        -- intros [H | [[<- | Hin] (p & Ep & Hn & Hk)]].
           ++ left. left. exact H.
           ++ left. right. rewrite E0 in Ep. injection Ep as <-.
              split; [symmetry; exact Hk | reflexivity].
           ++ right. split; [exact Hin|].
              exists p. split; [exact Ep | split; assumption].
      * split.
        -- intros [H | [Hin H]]; [left; exact H | right; split; [right; exact Hin | exact H]].
        -- intros [H | [[<- | Hin] (p & Ep & Hn & Hk)]].
           ++ left. exact H.
           ++ rewrite E0 in Ep. injection Ep as <-. congruence.
           ++ right. split; [exact Hin|]. exists p. split; [exact Ep | split; assumption].
    + split.
      * intros [H | [Hin H]]; [left; exact H | right; split; [right; exact Hin | exact H]].
      * intros [H | [[<- | Hin] (p & Ep & Hn & Hk)]].
        -- left. exact H.
        -- congruence.
        -- right. split; [exact Hin|]. exists p. split; [exact Ep | split; assumption].
Qed.

Lemma backfilled_pending (p : Post) :
  truthy (thumbnail p) = false -> Url.nonempty (site p) = true ->
  backfilled extract_thumbnail_from_page p
  = if empty (url p) then p
    else match extract_thumbnail_from_page (url p) (site p) with
         | Some ((_ :: _) as thumb) => with_thumbnail p thumb
         | _ => p
         end.
Proof.
  intros Ht Hs. unfold backfilled, empty. rewrite Ht, Hs. cbn [negb orb].
  destruct (negb (Url.nonempty (url p))); reflexivity.
Qed.

Lemma process_post_filled (done : nat -> bool) (store : list Post) (k : str) (r : nat) :
  filled_at extract_thumbnail_from_page posts done store -> pending posts k r ->
  filled_at extract_thumbnail_from_page posts (fun i => (i =? r)%nat || done i)
            (process_post extract_thumbnail_from_page k store r).
Proof.
  intros Hf (p & Ep & Ht & Hs & Hk) i. subst k.
  pose proof (backfilled_pending p Ht Hs) as Hb.
  pose proof (Hf r) as Hr. rewrite Ep in Hr.
  unfold process_post. rewrite Hr.
  set (cur := if done r then backfilled extract_thumbnail_from_page p else p) in *.
  assert (Hu : url cur = url p).
  { unfold cur. destruct (done r); [|reflexivity]. rewrite Hb.
    destruct (empty (url p)); [reflexivity|].
    destruct (extract_thumbnail_from_page (url p) (site p)) as [[|c t]|]; reflexivity. }
  rewrite Hu.
  destruct (empty (url p)) eqn:Eu.
  - rewrite Hf. destruct (nth_error posts i) as [q|] eqn:Ei; [|reflexivity].
    destruct (i =? r)%nat eqn:Eir; [|reflexivity].
    apply Nat.eqb_eq in Eir. subst i. rewrite Ep in Ei. injection Ei as <-.
    cbn [orb]. rewrite Hb. destruct (done r); reflexivity.
  - destruct (extract_thumbnail_from_page (url p) (site p)) as [[|c t]|] eqn:Ex.
    + rewrite Hf. destruct (nth_error posts i) as [q|] eqn:Ei; [|reflexivity].
      destruct (i =? r)%nat eqn:Eir; [|reflexivity].
      apply Nat.eqb_eq in Eir. subst i. rewrite Ep in Ei. injection Ei as <-.
      cbn [orb]. rewrite Hb. destruct (done r); reflexivity.
    + rewrite nth_error_update. destruct (i =? r)%nat eqn:Eir.
      * apply Nat.eqb_eq in Eir. subst i. rewrite Hr, Ep. cbn [orb]. rewrite Hb.
        f_equal. unfold cur. destruct (done r); [rewrite Hb|]; reflexivity.
      * rewrite Hf. reflexivity.
    + rewrite Hf. destruct (nth_error posts i) as [q|] eqn:Ei; [|reflexivity].
      destruct (i =? r)%nat eqn:Eir; [|reflexivity].
      apply Nat.eqb_eq in Eir. subst i. rewrite Ep in Ei. injection Ei as <-.
      cbn [orb]. rewrite Hb. destruct (done r); reflexivity.
Qed.

Lemma process_site_filled (k : str) (site_posts : list nat) :
  forall done store,
    filled_at extract_thumbnail_from_page posts done store -> (forall r, In r site_posts -> pending posts k r) ->
    filled_at extract_thumbnail_from_page posts (fun i => existsb (Nat.eqb i) site_posts || done i)
              (_process_site extract_thumbnail_from_page k site_posts store).
Proof.
  unfold _process_site.
  induction site_posts as [|r rest IH]; intros done store Hf Hp; cbn [fold_left].
  - exact Hf.
  - pose proof (IH _ _ (process_post_filled Hf (Hp r (or_introl eq_refl)))
                  (fun r' H => Hp r' (or_intror H))) as H.
    intro i. rewrite (H i). destruct (nth_error posts i); [|reflexivity].
    cbn [existsb]. do 2 f_equal.
    destruct (i =? r)%nat, (existsb (Nat.eqb i) rest), (done i); reflexivity.
Qed.

Lemma tasks_filled (by_site : list (str * list nat)) :
  forall done store,
    filled_at extract_thumbnail_from_page posts done store -> (forall k r, grouped by_site k r -> pending posts k r) ->
    filled_at extract_thumbnail_from_page posts (fun i => existsb (fun task => existsb (Nat.eqb i) (snd task)) by_site
                        || done i)
              (fold_left (fun store task =>
                            _process_site extract_thumbnail_from_page
                              (fst task) (snd task) store) by_site store).
Proof.
  induction by_site as [|[k v] rest IH]; intros done store Hf Hp; cbn [fold_left].
  - exact Hf.
  - cbn [fst snd].
    assert (Hv : forall r, In r v -> pending posts k r).
    { intros r Hr. apply Hp. exists v. split; [left; reflexivity | exact Hr]. }
    assert (Hrest : forall k' r, grouped rest k' r -> pending posts k' r).
    { intros k' r (v' & Hv' & Hr). apply Hp. exists v'. split; [right; exact Hv' | exact Hr]. }
    pose proof (IH _ _ (@process_site_filled k v _ _ Hf Hv) Hrest) as H.
    intro i. rewrite (H i). destruct (nth_error posts i); [|reflexivity].
    cbn [existsb snd]. do 2 f_equal.
    destruct (existsb (Nat.eqb i) v),
      (existsb (fun task => existsb (Nat.eqb i) (snd task)) rest), (done i);
      reflexivity.
Qed.

Lemma existsb_eqb_In (i : nat) (l : list nat) :
  existsb (Nat.eqb i) l = true <-> In i l.
Proof.
  rewrite existsb_exists. split.
  - intros (x & Hx & E). apply Nat.eqb_eq in E. subst x. exact Hx.
  - intro H. exists i. split; [exact H | apply Nat.eqb_refl].
Qed.

Lemma fill_thumbnails_fold :
  fold_left (fun store task =>
               _process_site extract_thumbnail_from_page (fst task) (snd task) store)
            (group_by_site posts (no_thumb_from 0 posts)) posts
  = map (backfilled extract_thumbnail_from_page) posts.
Proof.
  set (by_site := group_by_site posts (no_thumb_from 0 posts)).
  assert (Hg : forall k r, grouped by_site k r
                           <-> In r (no_thumb_from 0 posts)
                               /\ exists p, nth_error posts r = Some p
                                            /\ Url.nonempty (site p) = true
                                            /\ site p = k).
  { intros k r. unfold by_site, group_by_site. rewrite group_by_site_grouped.
    split; [intros [(v & [] & _) | H]; exact H | intro H; right; exact H]. }
  assert (Hp : forall k r, grouped by_site k r -> pending posts k r).
  { intros k r H. apply Hg in H. destruct H as [Hin (p & Ep & Hn & Hk)].
    apply no_thumb_from_In in Hin. destruct Hin as (i & q & Er & Eq & Ht).
    cbn in Er. subst i. rewrite Ep in Eq. injection Eq as <-.
    exists p. split; [exact Ep | split; [exact Ht | split; assumption]]. }
  assert (H0 : filled_at extract_thumbnail_from_page posts (fun _ => false) posts).
  { intro i. destruct (nth_error posts i); reflexivity. }
  pose proof (@tasks_filled by_site _ _ H0 Hp) as H.
  apply nth_error_ext. intro i. rewrite (H i), nth_error_map.
  destruct (nth_error posts i) as [p|] eqn:Ei; [|reflexivity].
  cbn [option_map]. f_equal. rewrite orb_false_r.
  destruct (existsb _ by_site) eqn:Ed; [reflexivity|].
  unfold backfilled.
  destruct (truthy (thumbnail p)) eqn:Ht; [reflexivity|].
  destruct (empty (site p)) eqn:Es; [reflexivity|]. exfalso.
  assert (Hgr : grouped by_site (site p) i).
  { apply Hg. split.
    - apply no_thumb_from_In. exists i, p. split; [reflexivity | split; assumption].
    - exists p. split; [exact Ei|]. split; [|reflexivity].
      unfold empty in Es. destruct (Url.nonempty (site p)); [reflexivity | discriminate]. }
  destruct Hgr as (v & Hv & Hr).
  assert (Et : existsb (fun task => existsb (Nat.eqb i) (snd task)) by_site = true).
  { apply existsb_exists. exists (site p, v). split; [exact Hv|].
    apply existsb_eqb_In. exact Hr. }
  congruence.
Qed.

End BackfillFacts.

Lemma fill_thumbnails_map
  (extract_thumbnail_from_page : str -> str -> option str) (posts : list Post) :
  _fill_thumbnails_for extract_thumbnail_from_page posts
  = map (backfilled extract_thumbnail_from_page) posts.
Proof.
  unfold _fill_thumbnails_for. cbv zeta.
  pose proof (fill_thumbnails_fold extract_thumbnail_from_page posts) as H.
  destruct (no_thumb_from 0 posts) as [|r rest] eqn:E; [|exact H].
  cbn [group_by_site fold_left] in H. exact H.
Qed.

(** The backfill of the thumbnails works post by post, whatever the groups
    and the order in which the sites are gone through: the posts it leaves
    are the posts it was given, in their order, each one made over by
    [backfilled].  So no post is added, dropped or moved; a post that has
    a thumbnail keeps it, and every other field of every post stays; a
    post without a thumbnail, with a site and a url, gets the thumbnail of
    its detail page exactly when [extract_thumbnail_from_page] finds one,
    and stays without one otherwise.  The cache that a crawl builds holds
    the records of [crawl_all], backfilled in this way, and the number of
    posts it announces is the number of posts it holds. *)
Theorem fill_thumbnails_post_by_post :
  (forall extract_thumbnail_from_page posts,
      _fill_thumbnails_for extract_thumbnail_from_page posts
      = map (backfilled extract_thumbnail_from_page) posts)
  /\ (forall decode_strict decode_lossy BeautifulSoup unquote quote_plus get
             session_get page_get raises_for_status crawl_damoang_multi_pages
             now now' list_of_set,
        exists results,
          crawl_all_run decode_strict decode_lossy BeautifulSoup unquote quote_plus
            get session_get page_get raises_for_status crawl_damoang_multi_pages
            now = Ok results
          /\ _crawl_and_fill_thumbnails decode_strict decode_lossy BeautifulSoup
               unquote quote_plus get session_get page_get raises_for_status
               crawl_damoang_multi_pages now now' list_of_set
             = Ok (mkData (length results) now' (list_of_set (map site results))
                     (map (backfilled
                             (extract_thumbnail_from_page decode_strict decode_lossy
                                BeautifulSoup get session_get))
                          results))).
Proof.
  split; [exact fill_thumbnails_map|].
  intros. unfold _crawl_and_fill_thumbnails, crawl_all_run.
  eexists. split; [apply crawl_all_contributions|].
  rewrite crawl_all_contributions. cbn [bind].
  rewrite fill_thumbnails_map. reflexivity.
Qed.
